(** * A Playwright test framework in pytest: shallow embedding and properties

    Part I is the model.  It follows the layout of the repository:
    - [Py]            the fragment of the Python runtime the code relies on:
                      exception classes, [try]/[except], [int],
                      [str.lower], truthiness and [or], and statements with
                      effects as a state-and-error monad;
    - [config]        [config.py], the class body of [Config];
    - [os_]           the file system as [os.path], [pathlib] and [open]
                      see it;
    - [logger]        [utils/logger.py], with the part of the [logging]
                      library it configures: the registry of named loggers,
                      handlers, levels and propagation;
    - [session]       the state of a test process: logging state, the calls
                      made on the page handle, the clock, the test item;
    - [base_page], [login_page]   the page objects of [pages/];
    - [conftest]      [conftest.py]: the lifecycle fixture in its two
                      halves, the report hook, and the context options;
    - [pytest]        the test framework's protocol for one test;
    - [test_runner]   [test_runner.py]: command, child processes and exit
                      status.

    Part II states and proves the properties, one section per source file.

    Strings are byte strings ([string] of the Standard Library);
    dictionaries are [gmap]s; a shared mutable object (a logger, the test
    item) is an entry of the store, referred to by its name. *)

From Stdlib Require Import ZArith Ascii String List Bool Lia.
From stdpp Require Import base option list gmap strings pretty.

Local Open Scope string_scope.
Local Open Scope Z_scope.
Local Open Scope list_scope.

(* ===================================================================== *)
(** * The Python runtime fragment *)
(* ===================================================================== *)

Module Py.

(** Exception classes that occur in the sources or are raised by the
    libraries they call, with the class each one derives from. *)
Inductive exn_class : Set :=
| BaseException
| Exception
| KeyboardInterrupt
| SystemExit
| ValueError
| TypeError
| AssertionError
| OSError
| FileNotFoundError
| FileExistsError
| PermissionError
| IsADirectoryError
| NotADirectoryError
| PlaywrightError
| PlaywrightTimeoutError
| OutcomeException
| Skipped
| Failed
| XFailed
| Exit.

#[global] Instance exn_class_eq_dec : EqDecision exn_class.
Proof. solve_decision. Defined.

Definition base (c : exn_class) : option exn_class :=
  match c with
  | BaseException => None
  | Exception | KeyboardInterrupt | SystemExit | OutcomeException => Some BaseException
  | ValueError | TypeError | AssertionError | OSError | PlaywrightError | Exit =>
      Some Exception
  | FileNotFoundError | FileExistsError | PermissionError
  | IsADirectoryError | NotADirectoryError => Some OSError
  | PlaywrightTimeoutError => Some PlaywrightError
  | Skipped | Failed => Some OutcomeException
  | XFailed => Some Failed
  end.

(** [issubclass c d]: walk up from [c]; the hierarchy above has depth 4. *)
Fixpoint issubclass_fuel (fuel : nat) (c d : exn_class) : bool :=
  if decide (c = d) then true
  else match fuel, base c with
       | S k, Some b => issubclass_fuel k b d
       | _, _ => false
       end.

Definition issubclass : exn_class → exn_class → bool := issubclass_fuel 4.

(** [c.__name__] *)
Definition class_name (c : exn_class) : string :=
  match c with
  | BaseException => "BaseException" | Exception => "Exception"
  | KeyboardInterrupt => "KeyboardInterrupt" | SystemExit => "SystemExit"
  | ValueError => "ValueError" | TypeError => "TypeError"
  | AssertionError => "AssertionError" | OSError => "OSError"
  | FileNotFoundError => "FileNotFoundError" | FileExistsError => "FileExistsError"
  | PermissionError => "PermissionError" | IsADirectoryError => "IsADirectoryError"
  | NotADirectoryError => "NotADirectoryError" | PlaywrightError => "Error"
  | PlaywrightTimeoutError => "TimeoutError" | OutcomeException => "OutcomeException"
  | Skipped => "Skipped" | Failed => "Failed" | XFailed => "XFailed" | Exit => "Exit"
  end.

(** A raised exception: its class and its message ([str(e)]). *)
Record exn : Set := Exn { exn_cls : exn_class; exn_msg : string }.

Definition isinstance (e : exn) (c : exn_class) : bool := issubclass (exn_cls e) c.

(** The outcome of evaluating an expression or running a statement. *)
Inductive result (A : Type) : Type :=
| Ok (a : A)
| Raise (e : exn).
Arguments Ok {A} a.
Arguments Raise {A} e.

Definition raises {A} (r : result A) : bool :=
  match r with Ok _ => false | Raise _ => true end.

(** [try: body except cls: handler] for pure bodies. *)
Definition try_except {A} (body : result A) (cls : exn_class)
    (handler : exn → result A) : result A :=
  match body with
  | Ok a => Ok a
  | Raise e => if isinstance e cls then handler e else Raise e
  end.

(** ** Characters and strings *)

Definition code (c : ascii) : Z := Z.of_N (N_of_ascii c).

Definition is_digit (c : ascii) : bool := (48 <=? code c) && (code c <=? 57).
Definition is_upper (c : ascii) : bool := (65 <=? code c) && (code c <=? 90).
(** The ASCII characters [int] strips: tab, LF, VT, FF, CR and space. *)
Definition is_space (c : ascii) : bool :=
  ((9 <=? code c) && (code c <=? 13)) || (code c =? 32).

Definition lower_char (c : ascii) : ascii :=
  if is_upper c then ascii_of_N (Z.to_N (code c + 32)) else c.

(** [s.lower()] *)
Fixpoint lower (s : string) : string :=
  match s with
  | EmptyString => EmptyString
  | String c r => String (lower_char c) (lower r)
  end.

Definition is_lower (c : ascii) : bool := (97 <=? code c) && (code c <=? 122).
Definition upper_char (c : ascii) : ascii :=
  if is_lower c then ascii_of_N (Z.to_N (code c - 32)) else c.

(** [s.upper()] *)
Fixpoint upper (s : string) : string :=
  match s with
  | EmptyString => EmptyString
  | String c r => String (upper_char c) (upper r)
  end.

Fixpoint lstrip (l : list ascii) : list ascii :=
  match l with
  | c :: r => if is_space c then lstrip r else l
  | [] => []
  end.

Definition strip (l : list ascii) : list ascii := rev (lstrip (rev (lstrip l))).

(** The digits of a decimal literal: groups of digits, single underscores
    between them only.  [prev] says whether the previous character was a
    digit. *)
Fixpoint digits_value (prev : bool) (acc : Z) (l : list ascii) : option Z :=
  match l with
  | [] => if prev then Some acc else None
  | c :: r =>
      if is_digit c then digits_value true (10 * acc + (code c - 48)) r
      else if decide (c = "_"%char) then
             (if prev then digits_value false acc r else None)
           else None
  end.

Definition signed_value (l : list ascii) : option Z :=
  match l with
  | c :: r =>
      if decide (c = "-"%char) then Z.opp <$> digits_value false 0 r
      else if decide (c = "+"%char) then digits_value false 0 r
      else digits_value false 0 l
  | [] => None
  end.

(** [int(s)] for a string argument, base 10: surrounding whitespace, an
    optional sign, digits.  Any other string raises [ValueError].  (The
    interpreter's cap on the number of digits raises [ValueError] too and is
    not modelled.) *)
Definition int (s : string) : result Z :=
  match signed_value (strip (list_ascii_of_string s)) with
  | Some n => Ok n
  | None =>
      Raise (Exn ValueError ("invalid literal for int() with base 10: " +:+ s))
  end.

(** Truthiness of an optional string ([None] and [""] are falsy) and the
    value of [x or d]. *)
Definition truthy (x : option string) : bool :=
  match x with
  | None => false
  | Some s => negb (String.eqb s "")
  end.

Definition or_ (x : option string) (d : string) : string :=
  match x with
  | Some s => if truthy x then s else d
  | None => d
  end.

(** Lookup in a table of pairs, first match. *)
Fixpoint assoc {V} (k : string) (l : list (string * V)) : option V :=
  match l with
  | [] => None
  | (k', v) :: r => if decide (k' = k) then Some v else assoc k r
  end.

(** ** Statements with effects

    A statement that reads and updates a store [S] and either completes with
    a value or raises.  The store after a raise is the store at the point of
    the raise: updates made before it stay. *)
Definition SE (S A : Type) : Type := S → S * result A.

#[global] Instance SE_ret {S} : MRet (SE S) := λ A a s, (s, Ok a).
#[global] Instance SE_bind {S} : MBind (SE S) := λ A B f m s,
  match m s with
  | (s', Ok a) => f a s'
  | (s', Raise e) => (s', Raise e)
  end.

Definition raise {S A} (c : exn_class) (msg : string) : SE S A :=
  λ s, (s, Raise (Exn c msg)).
(** An expression that does not touch the store. *)
Definition eval {S A} (r : result A) : SE S A := λ s, (s, r).
Definition gets {S A} (f : S → A) : SE S A := λ s, (s, Ok (f s)).
Definition modify {S} (f : S → S) : SE S unit := λ s, (f s, Ok tt).

(** [try: body except cls as e: handler e] *)
Definition try_catch {S A} (body : SE S A) (cls : exn_class)
    (handler : exn → SE S A) : SE S A :=
  λ s, match body s with
       | (s', Ok a) => (s', Ok a)
       | (s', Raise e) => if isinstance e cls then handler e s' else (s', Raise e)
       end.

(** Run a statement over a part [T] of the store [S]. *)
Definition lift {S T A} (get : S → T) (set : T → S → S) (m : SE T A) : SE S A :=
  λ s, let '(t', r) := m (get s) in (set t' s, r).

(** [needle in s] for strings: [needle] occurs in [s]. *)
Fixpoint contains (needle s : string) : bool :=
  String.prefix needle s ||
  match s with
  | EmptyString => false
  | String _ r => contains needle r
  end.

End Py.

(* ===================================================================== *)
(** * config.py *)
(* ===================================================================== *)

Module config.
Import Py.

(** [os.getenv(key, default)] over the process environment. *)
Definition getenv (environ : gmap string string) (key dflt : string) : string :=
  default dflt (environ !! key).

(** The truthy tokens of the boolean settings (lines 22, 32, 33). *)
Definition truthy_tokens : list string := ["true"; "1"; "yes"; "on"].

Definition flag (environ : gmap string string) (key dflt : string) : bool :=
  bool_decide (lower (getenv environ key dflt) ∈ truthy_tokens).

(** Lines 15-18. *)
Definition TIMEOUT_stmt (environ : gmap string string) : result Z :=
  try_except (int (getenv environ "TIMEOUT" "30000")) ValueError
             (fun _ => Ok 30000).

(** Line 22. *)
Definition HEADLESS_expr (environ : gmap string string) : bool :=
  flag environ "HEADLESS" "true".

(** The attributes of the class. *)
Record Config : Type := {
  BASE_URL : string;
  TIMEOUT : Z;
  BROWSER : string;
  HEADLESS : bool;
  DEVICE : string;
  TEST_ENV : string;
  TEST_USER : string;
  TEST_PASSWORD : string;
  LOG_LEVEL : string;
  LOG_TO_FILE : bool;
  LOG_TO_CONSOLE : bool;
  LOG_FILE_PATH : string;
  BROWSERS : list string;
  DEVICES : gmap string (option string)
}.

(** Lines 40-45. *)
Definition DEVICES_table : gmap string (option string) :=
  <["Desktop Chrome" := None]>
    (<["iPhone 12" := Some "iPhone 12"]>
       (<["iPad" := Some "iPad"]>
          (<["Pixel 5" := Some "Pixel 5"]> ∅))).

(** The class body after the timeout statement: every other attribute is
    an expression that does not raise. *)
Definition Config_with (environ : gmap string string) (timeout : Z) : Config :=
  {| BASE_URL := getenv environ "BASE_URL" "https://example.com";
     TIMEOUT := timeout;
     BROWSER := getenv environ "BROWSER" "chromium";
     HEADLESS := HEADLESS_expr environ;
     DEVICE := getenv environ "DEVICE" "Desktop Chrome";
     TEST_ENV := getenv environ "TEST_ENV" "dev";
     TEST_USER := getenv environ "TEST_USER" "standard_user";
     TEST_PASSWORD := getenv environ "TEST_PASSWORD" "secret_sauce";
     LOG_LEVEL := upper (getenv environ "LOG_LEVEL" "INFO");
     LOG_TO_FILE := flag environ "LOG_TO_FILE" "true";
     LOG_TO_CONSOLE := flag environ "LOG_TO_CONSOLE" "true";
     LOG_FILE_PATH := getenv environ "LOG_FILE_PATH" "logs/test_execution.log";
     BROWSERS := ["chromium"; "firefox"; "webkit"];
     DEVICES := DEVICES_table |}.

(** The class body, executed once when the module is imported: the
    statements in order; a statement that raises aborts the import. *)
Definition Config_class (environ : gmap string string) : result Config :=
  match TIMEOUT_stmt environ with
  | Raise e => Raise e
  | Ok timeout => Ok (Config_with environ timeout)
  end.

End config.

(* ===================================================================== *)
(** * The file system, as [os], [pathlib] and [open] see it *)
(* ===================================================================== *)

Module os_.
Import Py.

(** ** Paths *)

Fixpoint split_on (sep : ascii) (s : string) : list string :=
  match s with
  | EmptyString => [EmptyString]
  | String c r =>
      if decide (c = sep) then EmptyString :: split_on sep r
      else match split_on sep r with
           | x :: xs => String c x :: xs
           | [] => [String c EmptyString]
           end
  end.

Definition is_abs (p : string) : bool :=
  match p with String "/" _ => true | _ => false end.

(** [PurePosixPath(p).parts] without the root: empty components and [.]
    are dropped, [..] is kept. *)
Definition parts (p : string) : list string :=
  filter (λ c, c ≠ "" ∧ c ≠ ".") (split_on "/" p).

Definition join (abs : bool) (cs : list string) : string :=
  match cs with
  | [] => if abs then "/" else "."
  | _ => (if abs then "/" else "") +:+ String.concat "/" cs
  end.

(** [str(Path(p))] and [str(Path(p).parent)]. *)
Definition norm (p : string) : string := join (is_abs p) (parts p).
Definition parent (p : string) : string := join (is_abs p) (removelast (parts p)).

(** ** The store

    [files] maps the path of a regular file to its lines, [dirs] holds the
    directories besides the working directory and the root, and [denied]
    the paths the process may not create or open for writing.  All keys are
    normalised paths. *)
Record FS (L : Type) : Type := mkFS {
  files : gmap string (list L);
  dirs : gset string;
  denied : gset string
}.
Arguments mkFS {L} _ _ _.
Arguments files {L} _.
Arguments dirs {L} _.
Arguments denied {L} _.

Section ops.
Context {L : Type}.

Definition is_dir (fs : FS L) (q : string) : bool :=
  bool_decide (q = ".") || bool_decide (q = "/") || bool_decide (q ∈ dirs fs).
Definition is_file (fs : FS L) (q : string) : bool :=
  bool_decide (is_Some (files fs !! q)).

(** [os.path.exists(p)] *)
Definition path_exists (fs : FS L) (p : string) : bool :=
  is_file fs (norm p) || is_dir fs (norm p).

(** [Path(p).mkdir(exist_ok=True)], without [parents]. *)
Definition mkdir_exist_ok (p : string) : SE (FS L) unit := λ fs,
  let q := norm p in
  if is_dir fs q then (fs, Ok tt)
  else if is_file fs q then raise FileExistsError q fs
  else if is_file fs (parent q) then raise NotADirectoryError q fs
  else if negb (is_dir fs (parent q)) then raise FileNotFoundError q fs
  else if bool_decide (q ∈ denied fs) then raise PermissionError q fs
  else (mkFS (files fs) ({[q]} ∪ dirs fs) (denied fs), Ok tt).

(** [open(p, 'w')] when [truncate], [open(p, 'a')] otherwise: the file is
    created when missing; nothing is written yet. *)
Definition open_ (p : string) (truncate : bool) : SE (FS L) unit := λ fs,
  let q := norm p in
  if is_dir fs q then raise IsADirectoryError q fs
  else if is_file fs (parent q) then raise NotADirectoryError q fs
  else if negb (is_dir fs (parent q)) then raise FileNotFoundError q fs
  else if bool_decide (q ∈ denied fs) then raise PermissionError q fs
  else (mkFS (<[q := if truncate then [] else default [] (files fs !! q)]> (files fs))
             (dirs fs) (denied fs), Ok tt).

(** A write of one line through a stream opened for appending. *)
Definition append_line (p : string) (l : L) (fs : FS L) : FS L :=
  mkFS (alter (λ ls, ls ++ [l]) (norm p) (files fs)) (dirs fs) (denied fs).

End ops.
End os_.


(* ===================================================================== *)
(** * utils/logger.py, and the [logging] library it configures *)
(* ===================================================================== *)

Module logger.
Import Py config os_.

(** ** Records, handlers and loggers *)

(** A formatted message: literal text, integers, and numbers printed with
    [:.2f]. *)
Inductive fragment : Type :=
| Text (s : string)
| Num (n : Z)
| Float2 (x : Z).
Definition message : Type := list fragment.

Record LogRecord : Type := mkRecord {
  r_name : string;
  r_levelno : Z;
  r_msg : message
}.

Inductive sink : Type :=
| FileSink (path : string)
| ConsoleSink.

(** A handler object; [h_id] is its identity (two handlers built by two
    calls are two objects, even when they write to the same file). *)
Record Handler : Type := mkHandler {
  h_id : nat;
  h_sink : sink;
  h_level : Z
}.

Record Logger : Type := mkLogger {
  lg_level : Z;
  lg_handlers : list Handler
}.

Definition CRITICAL : Z := 50.
Definition ERROR : Z := 40.
Definition WARNING : Z := 30.
Definition INFO : Z := 20.
Definition DEBUG : Z := 10.
Definition NOTSET : Z := 0.

(** The state the logging code reads and writes: the file system, the
    registry of named loggers ([Logger.manager.loggerDict]), the level of
    the root logger, the next fresh handler identity, what was printed, what
    the console handlers wrote, and every record handed to a logger's
    method, before any filtering. *)
Record LogWorld : Type := mkLogWorld {
  fs : FS LogRecord;
  loggerDict : gmap string Logger;
  root_level : Z;
  next_id : nat;
  stdout : list string;
  stderr : list LogRecord;
  submitted : list LogRecord
}.

Definition with_fs (f : FS LogRecord) (w : LogWorld) : LogWorld :=
  mkLogWorld f (loggerDict w) (root_level w) (next_id w) (stdout w) (stderr w) (submitted w).
Definition with_loggerDict (d : gmap string Logger) (w : LogWorld) : LogWorld :=
  mkLogWorld (fs w) d (root_level w) (next_id w) (stdout w) (stderr w) (submitted w).
Definition with_next_id (n : nat) (w : LogWorld) : LogWorld :=
  mkLogWorld (fs w) (loggerDict w) (root_level w) n (stdout w) (stderr w) (submitted w).
Definition with_stdout (o : list string) (w : LogWorld) : LogWorld :=
  mkLogWorld (fs w) (loggerDict w) (root_level w) (next_id w) o (stderr w) (submitted w).
Definition with_stderr (o : list LogRecord) (w : LogWorld) : LogWorld :=
  mkLogWorld (fs w) (loggerDict w) (root_level w) (next_id w) (stdout w) o (submitted w).
Definition with_submitted (o : list LogRecord) (w : LogWorld) : LogWorld :=
  mkLogWorld (fs w) (loggerDict w) (root_level w) (next_id w) (stdout w) (stderr w) o.

Definition on_fs {A} (m : SE (FS LogRecord) A) : SE LogWorld A := lift fs with_fs m.

(** [print(s)] *)
Definition print (s : string) : SE LogWorld unit :=
  modify (λ w, with_stdout (stdout w ++ [s]) w).

(** ** The library: [logging] *)

(** What [getattr(logging, name, default)] finds: the module's attributes
    whose names are upper-case are the level constants, the format string
    [BASIC_FORMAT] and the table [_STYLES]. *)
Inductive attr : Type :=
| IntAttr (n : Z)
| StrAttr (s : string)
| ObjAttr.

Definition logging_attrs : list (string * attr) :=
  [("CRITICAL", IntAttr CRITICAL); ("FATAL", IntAttr CRITICAL);
   ("ERROR", IntAttr ERROR); ("WARNING", IntAttr WARNING);
   ("WARN", IntAttr WARNING); ("INFO", IntAttr INFO);
   ("DEBUG", IntAttr DEBUG); ("NOTSET", IntAttr NOTSET);
   ("BASIC_FORMAT", StrAttr "%(levelname)s:%(name)s:%(message)s");
   ("_STYLES", ObjAttr)].

Definition logging_getattr (name : string) (dflt : attr) : attr :=
  default dflt (assoc name logging_attrs).

Definition level_names : list (string * Z) :=
  [("CRITICAL", CRITICAL); ("FATAL", CRITICAL); ("ERROR", ERROR);
   ("WARN", WARNING); ("WARNING", WARNING); ("INFO", INFO);
   ("DEBUG", DEBUG); ("NOTSET", NOTSET)].

(** [_checkLevel] *)
Definition checkLevel (a : attr) : result Z :=
  match a with
  | IntAttr n => Ok n
  | StrAttr s =>
      match assoc s level_names with
      | Some n => Ok n
      | None => Raise (Exn ValueError ("Unknown level: " +:+ s))
      end
  | ObjAttr => Raise (Exn TypeError "Level not an integer or a valid string")
  end.

(** [logging.getLogger(name)]: the registered logger of that name, created
    with no handler and level [NOTSET] on first use.  The result is a
    reference to the registered object: its name. *)
Definition getLogger (name : string) : SE LogWorld string := λ w,
  match loggerDict w !! name with
  | Some _ => (w, Ok name)
  | None => (with_loggerDict (<[name := mkLogger NOTSET []]> (loggerDict w)) w, Ok name)
  end.

Definition update_logger (name : string) (f : Logger → Logger) : SE LogWorld unit :=
  modify (λ w, with_loggerDict (alter f name (loggerDict w)) w).

(** [logger.setLevel(level)] *)
Definition setLevel (name : string) (level : attr) : SE LogWorld unit :=
  n ← eval (checkLevel level);
  update_logger name (λ lg, mkLogger n (lg_handlers lg)).

(** [logger.addHandler(h)] for a handler that is not attached yet. *)
Definition addHandler (name : string) (h : Handler) : SE LogWorld unit :=
  update_logger name (λ lg, mkLogger (lg_level lg) (lg_handlers lg ++ [h])).

Definition fresh_id : SE LogWorld nat := λ w,
  (with_next_id (S (next_id w)) w, Ok (next_id w)).

(** [logging.FileHandler(path, mode='a', ...)] followed by [setLevel]: the
    file is opened at once. *)
Definition FileHandler (path : string) (level : Z) : SE LogWorld Handler :=
  on_fs (open_ path false);;
  i ← fresh_id;
  mret (mkHandler i (FileSink path) level).

(** [colorlog.StreamHandler()] followed by [setLevel]. *)
Definition StreamHandler (level : Z) : SE LogWorld Handler :=
  i ← fresh_id;
  mret (mkHandler i ConsoleSink level).

(** The positions of the dots of a name, the first character being at
    position [i]. *)
Fixpoint dots (i : nat) (s : string) : list nat :=
  match s with
  | EmptyString => []
  | String c r => (if decide (c = "."%char) then [i] else []) ++ dots (S i) r
  end.

(** The dots the manager's parent search visits ([_fixupParents]): it
    starts at the last dot, [i = name.rfind(".")], goes on while [i > 0], and
    steps from the dot at [i] to the last dot before position [i - 1],
    [name.rfind(".", 0, i - 1)]; so a dot that stands right in front of the
    dot visited last is passed over.  [ds] holds the dots to the left of the
    dot visited last, [prev], nearest first. *)
Fixpoint visited (prev : option nat) (ds : list nat) : list nat :=
  match ds with
  | [] => []
  | d :: r =>
      if decide (prev = Some (S d)) then visited prev r
      else if decide (d = 0%nat) then []
      else d :: visited (Some d) r
  end.

(** The names the search looks up, [name[:i]] for each dot visited, nearest
    first: the names of the possible ancestors. *)
Definition candidates (name : string) : list string :=
  (λ i, substring 0 i name) <$> visited None (rev (dots 0 name)).

(** [logger.parent], when it is not the root logger: the nearest registered
    logger among the names the search looks up.  The manager sets this
    pointer when the logger is created and moves it when a nearer logger is
    created later ([_fixupChildren]).  (Its test for moving the pointer
    compares names with the root's own name, [root]; it goes wrong only for
    a logger called [r], [ro] or [roo] that is created after its children,
    and no logger of this program has such a name.) *)
Definition parent_of (w : LogWorld) (name : string) : option string :=
  head (filter (λ p, is_Some (loggerDict w !! p)) (candidates name)).

(** The chain of parents, nearest first, at most [fuel] of them. *)
Fixpoint parents (fuel : nat) (w : LogWorld) (name : string) : list string :=
  match fuel with
  | O => []
  | S k =>
      match parent_of w name with
      | Some p => p :: parents k w p
      | None => []
      end
  end.

(** The registered ancestors of a logger, nearest first (the root logger is
    not in the registry).  A parent has a shorter name than its child, so
    the chain has fewer links than the name has characters. *)
Definition ancestors (w : LogWorld) (name : string) : list string :=
  parents (String.length name) w name.

Definition level_of (w : LogWorld) (name : string) : Z :=
  match loggerDict w !! name with Some lg => lg_level lg | None => NOTSET end.

(** [logger.getEffectiveLevel()]: the first level that is set, from the
    logger up to the root. *)
Definition getEffectiveLevel (w : LogWorld) (name : string) : Z :=
  match list_find (λ l, l ≠ NOTSET) (level_of w <$> (name :: ancestors w name)) with
  | Some (_, l) => l
  | None => root_level w
  end.

Definition isEnabledFor (w : LogWorld) (name : string) (level : Z) : bool :=
  bool_decide (getEffectiveLevel w name ≤ level).

Definition handlers_of (w : LogWorld) (name : string) : list Handler :=
  match loggerDict w !! name with Some lg => lg_handlers lg | None => [] end.

(** [logger.callHandlers(record)]: the handlers of the logger and of its
    ancestors (no logger of this program turns [propagate] off) whose own
    level admits the record.  Handlers attached to the root logger belong
    to the test framework and are left out, and so is the handler of last
    resort, which writes warnings when no handler at all is found. *)
Definition callHandlers (w : LogWorld) (name : string) (r : LogRecord) : list Handler :=
  filter (λ h, h_level h ≤ r_levelno r)
         (mjoin (handlers_of w <$> (name :: ancestors w name))).

(** [handler.emit(record)] *)
Definition emit (r : LogRecord) (w : LogWorld) (h : Handler) : LogWorld :=
  match h_sink h with
  | FileSink p => with_fs (append_line p r (fs w)) w
  | ConsoleSink => with_stderr (stderr w ++ [r]) w
  end.

(** [logger.log(level, msg)], and so [debug], [info], [error]. *)
Definition log (name : string) (level : Z) (msg : message) : SE LogWorld unit := λ w,
  let r := mkRecord name level msg in
  let w1 := with_submitted (submitted w ++ [r]) w in
  if isEnabledFor w name level
  then (foldl (emit r) w1 (callHandlers w name r), Ok tt)
  else (w1, Ok tt).

Definition debug (name : string) (msg : message) : SE LogWorld unit := log name DEBUG msg.
Definition info (name : string) (msg : message) : SE LogWorld unit := log name INFO msg.
Definition error (name : string) (msg : message) : SE LogWorld unit := log name ERROR msg.

(** ** class TestLogger *)

(** [setup_logger], lines 16-56. *)
Definition setup_logger (cfg : Config) (name : string) : SE LogWorld unit :=
  update_logger name (λ lg, mkLogger (lg_level lg) []);;
  let log_level := logging_getattr (LOG_LEVEL cfg) (IntAttr INFO) in
  setLevel name log_level;;
  on_fs (mkdir_exist_ok (parent (LOG_FILE_PATH cfg)));;
  (if LOG_TO_FILE cfg then
     level ← eval (checkLevel log_level);
     file_handler ← FileHandler (LOG_FILE_PATH cfg) level;
     addHandler name file_handler
   else mret tt);;
  (if LOG_TO_CONSOLE cfg then
     level ← eval (checkLevel log_level);
     console_handler ← StreamHandler level;
     addHandler name console_handler
   else mret tt).

(** [TestLogger(name).get_logger()], lines 11-14 and 58-60. *)
Definition TestLogger (cfg : Config) (name : string) : SE LogWorld string :=
  lg ← getLogger name;
  setup_logger cfg lg;;
  mret lg.

(** The default of the constructor's [name] is the module's [__name__]. *)
Definition module_name : string := "utils.logger".

(** [get_test_logger], lines 62-69. *)
Definition get_test_logger (cfg : Config) (test_name : option string) : SE LogWorld string :=
  let logger_name :=
    if truthy test_name then "test." +:+ default "" test_name else "test" in
  TestLogger cfg logger_name.

(** [log_test_start], lines 71-79; [kwargs] in call order. *)
Definition log_test_start (cfg : Config) (test_name : string)
    (kwargs : list (string * string)) : SE LogWorld unit :=
  lg ← get_test_logger cfg (Some test_name);
  info lg [Text "🚀 Starting test: "; Text test_name];;
  foldr (λ kv k, info lg [Text "   "; Text kv.1; Text ": "; Text kv.2];; k)
        (mret tt) kwargs.

Definition status_icon (status : string) : string :=
  let s := upper status in
  if decide (s = "PASSED") then "✅"
  else if decide (s = "FAILED") then "❌"
  else if decide (s = "SKIPPED") then "⏭️"
  else if decide (s = "ERROR") then "💥"
  else "❓".

(** The message of [log_test_end], lines 92-94.  [if duration:] is false for
    [None] and for a zero duration. *)
Definition test_end_message (test_name status : string) (duration : option Z) : message :=
  [Text (status_icon status); Text " Test "; Text (lower status); Text ": ";
   Text test_name] ++
  match duration with
  | Some d => if decide (d = 0) then [] else [Text " (Duration: "; Float2 d; Text "s)"]
  | None => []
  end.

(** [log_test_end], lines 81-99. *)
Definition log_test_end (cfg : Config) (test_name status : string)
    (duration : option Z) : SE LogWorld unit :=
  lg ← get_test_logger cfg (Some test_name);
  let message := test_end_message test_name status duration in
  if bool_decide (upper status ∈ ["PASSED"; "SKIPPED"])
  then info lg message
  else error lg message.

(** [log_action], lines 107-114. *)
Definition log_action (cfg : Config) (action : string) (element test_name : option string)
    : SE LogWorld unit :=
  lg ← get_test_logger cfg test_name;
  if truthy element
  then debug lg [Text "🎯 Action: "; Text action; Text " on element '";
                 Text (default "" element); Text "'"]
  else debug lg [Text "🎯 Action: "; Text action].

(** [log_error], lines 124-132; the exception, when given, is truthy. *)
Definition log_error (cfg : Config) (error_message : string) (exception : option exn)
    (test_name : option string) : SE LogWorld unit :=
  lg ← get_test_logger cfg test_name;
  error lg [Text "💥 Error: "; Text error_message];;
  match exception with
  | Some e =>
      error lg [Text "Exception details: "; Text (exn_msg e)];;
      debug lg [Text "Exception type: "; Text (class_name (exn_cls e))]
  | None => mret tt
  end.

(** [clear_log_file], lines 147-158. *)
Definition clear_log_file (cfg : Config) : SE LogWorld unit :=
  try_catch
    (λ w,
       if path_exists (fs w) (LOG_FILE_PATH cfg) then
         (on_fs (open_ (LOG_FILE_PATH cfg) true);;
          lg ← TestLogger cfg module_name;
          info lg [Text "🧹 Log file cleared"]) w
       else (w, Ok tt))
    Exception
    (λ e, print ("Warning: Could not clear log file: " +:+ exn_msg e)).

(** [log_step], lines 101-105. *)
Definition log_step (cfg : Config) (step_description : string) (test_name : option string)
    : SE LogWorld unit :=
  lg ← get_test_logger cfg test_name;
  info lg [Text "📋 Step: "; Text step_description].

(** [log_assertion], lines 116-122. *)
Definition log_assertion (cfg : Config) (assertion : string) (result : bool)
    (test_name : option string) : SE LogWorld unit :=
  lg ← get_test_logger cfg test_name;
  let icon := if result then "✅" else "❌" in
  let level := if result then INFO else ERROR in
  log lg level [Text icon; Text " Assertion: "; Text assertion; Text " - ";
                Text (if result then "PASSED" else "FAILED")].

(** [log_screenshot], lines 134-138. *)
Definition log_screenshot (cfg : Config) (screenshot_path : string)
    (test_name : option string) : SE LogWorld unit :=
  lg ← get_test_logger cfg test_name;
  info lg [Text "📸 Screenshot saved: "; Text screenshot_path].

(** [log_browser_info], lines 140-144; [device or 'Desktop']. *)
Definition log_browser_info (cfg : Config) (browser : string) (device : option string)
    (headless : bool) : SE LogWorld unit :=
  lg ← get_test_logger cfg None;
  info lg [Text "🌐 Browser: "; Text browser; Text " | Device: ";
           Text (or_ device "Desktop"); Text " | Headless: ";
           Text (if headless then "True" else "False")].

(** [get_logger], lines 161-163: [name or __name__]. *)
Definition get_logger (cfg : Config) (name : option string) : SE LogWorld string :=
  TestLogger cfg (or_ name module_name).

End logger.

(* ===================================================================== *)
(** * The test process: driver, clock and test item *)
(* ===================================================================== *)

Module session.
Import Py config os_ logger.

(** A call on the page handle. *)
Inductive action : Type :=
| Goto (url : string)
| WaitForLoadState (state : string)
| Click (selector : string)
| Fill (selector text : string)
| TextContent (selector : string)
| IsVisible (selector : string)
| WaitForSelector (selector : string) (timeout : Z)
| Screenshot (path : string)
| Title.

(** The page handle ([playwright.sync_api.Page]): what the browser answers
    to each call, given the calls made before it. *)
Record Page : Type := mkPage {
  goto : list action → string → result unit;
  wait_for_load_state : list action → string → result unit;
  click : list action → string → result unit;
  fill : list action → string → string → result unit;
  text_content : list action → string → result (option string);
  is_visible : list action → string → result bool;
  wait_for_selector : list action → string → Z → result unit;
  screenshot : list action → string → result unit;
  title : list action → result string;
  url : list action → string
}.

(** A test report of the test framework: the phase it is about and its
    outcome. *)
Record TestReport : Type := mkReport {
  when_ : string;
  outcome : string
}.
Definition passed (rep : TestReport) : bool := bool_decide (outcome rep = "passed").
Definition failed (rep : TestReport) : bool := bool_decide (outcome rep = "failed").
Definition skipped (rep : TestReport) : bool := bool_decide (outcome rep = "skipped").

(** The state of the test process: the logging state, the calls made on
    the page, the reading of the wall clock ([time.time()], in ticks), and
    the attributes set on the test item. *)
Record World : Type := mkWorld {
  logw : LogWorld;
  history : list action;
  clock : Z;
  item_attrs : gmap string TestReport
}.

Definition with_logw (l : LogWorld) (w : World) : World :=
  mkWorld l (history w) (clock w) (item_attrs w).
Definition with_history (h : list action) (w : World) : World :=
  mkWorld (logw w) h (clock w) (item_attrs w).
Definition with_item_attrs (a : gmap string TestReport) (w : World) : World :=
  mkWorld (logw w) (history w) (clock w) a.

Definition on_log {A} (m : SE LogWorld A) : SE World A := lift logw with_logw m.

(** A driver call: it is recorded, and answered from the calls before it. *)
Definition call {A} (a : action) (answer : list action → result A) : SE World A :=
  λ w, (with_history (history w ++ [a]) w, answer (history w)).

(** [time.time()] *)
Definition time_time : SE World Z := gets clock.

End session.

(* ===================================================================== *)
(** * pages/base_page.py *)
(* ===================================================================== *)

Module base_page.
Import Py config os_ logger session.

Record BasePage : Type := mkBasePage {
  page : Page;
  config : Config;
  logger : string
}.

(** [__init__]; [class_name] is [self.__class__.__name__]. *)
Definition BasePage_init (cfg : Config) (pg : Page) (class_name : string)
    : SE World BasePage :=
  lg ← on_log (get_test_logger cfg (Some class_name));
  mret (mkBasePage pg cfg lg).

(** A bare [raise] inside a handler. *)
Definition reraise {A} (e : exn) : SE World A := λ w, (w, Raise e).

Definition navigate_to (self : BasePage) (url : option string) : SE World unit :=
  let target_url := or_ url (BASE_URL (config self)) in
  on_log (info (logger self) [Text "🌐 Navigating to: "; Text target_url]);;
  call (Goto target_url) (λ h, goto (page self) h target_url);;
  on_log (log_action (config self) ("Navigate to " +:+ target_url) None None).

Definition wait_for_page_load (self : BasePage) : SE World unit :=
  on_log (debug (logger self) [Text "⏳ Waiting for page to load..."]);;
  call (WaitForLoadState "networkidle")
       (λ h, wait_for_load_state (page self) h "networkidle");;
  on_log (log_action (config self) "Page loaded completely" None None).

Definition click_element (self : BasePage) (selector : string) : SE World unit :=
  on_log (debug (logger self) [Text "🖱️ Clicking element: "; Text selector]);;
  try_catch
    (call (Click selector) (λ h, click (page self) h selector);;
     on_log (log_action (config self) "Click" (Some selector) None))
    Exception
    (λ e, on_log (log_error (config self) ("Failed to click element: " +:+ selector)
                            (Some e) None);;
          reraise e).

Definition fill_input (self : BasePage) (selector text : string) : SE World unit :=
  on_log (debug (logger self)
                [Text "⌨️ Filling input "; Text selector; Text " with: "; Text text]);;
  try_catch
    (call (Fill selector text) (λ h, fill (page self) h selector text);;
     on_log (log_action (config self) ("Fill input with '" +:+ text +:+ "'")
                        (Some selector) None))
    Exception
    (λ e, on_log (log_error (config self) ("Failed to fill input: " +:+ selector)
                            (Some e) None);;
          reraise e).

Definition get_text (self : BasePage) (selector : string) : SE World (option string) :=
  on_log (debug (logger self) [Text "📝 Getting text from: "; Text selector]);;
  try_catch
    (text ← call (TextContent selector) (λ h, text_content (page self) h selector);
     on_log (log_action (config self)
                        ("Get text: '" +:+ default "None" text +:+ "'")
                        (Some selector) None);;
     mret text)
    Exception
    (λ e, on_log (log_error (config self) ("Failed to get text from: " +:+ selector)
                            (Some e) None);;
          reraise e).

Definition str_of_bool (b : bool) : string := if b then "True" else "False".

(** [is_element_visible], lines 58-66. *)
Definition is_element_visible (self : BasePage) (selector : string) : SE World bool :=
  try_catch
    (visible ← call (IsVisible selector) (λ h, is_visible (page self) h selector);
     on_log (debug (logger self)
                   [Text "👁️ Element "; Text selector; Text " visible: ";
                    Text (str_of_bool visible)]);;
     mret visible)
    Exception
    (λ e, on_log (debug (logger self)
                        [Text "Element "; Text selector;
                         Text " not found or error: "; Text (exn_msg e)]);;
          mret false).

(** [timeout or self.config.TIMEOUT]: [None] and [0] are falsy. *)
Definition or_timeout (timeout : option Z) (d : Z) : Z :=
  match timeout with
  | Some t => if decide (t = 0) then d else t
  | None => d
  end.

Definition wait_for_element (self : BasePage) (selector : string) (timeout : option Z)
    : SE World unit :=
  let timeout := or_timeout timeout (TIMEOUT (config self)) in
  on_log (debug (logger self)
                [Text "⏱️ Waiting for element: "; Text selector; Text " (timeout: ";
                 Num timeout; Text "ms)"]);;
  try_catch
    (call (WaitForSelector selector timeout)
          (λ h, wait_for_selector (page self) h selector timeout);;
     on_log (log_action (config self) "Element appeared" (Some selector) None))
    Exception
    (λ e, on_log (log_error (config self)
                            ("Element did not appear within timeout: " +:+ selector)
                            (Some e) None);;
          reraise e).

(** [take_screenshot], lines 79-87; [name] defaults to [screenshot].  The
    handler does not raise again. *)
Definition take_screenshot (self : BasePage) (name : string) : SE World unit :=
  let screenshot_path := "screenshots/" +:+ name +:+ ".png" in
  on_log (info (logger self) [Text "📸 Taking screenshot: "; Text screenshot_path]);;
  try_catch
    (call (Screenshot screenshot_path) (λ h, screenshot (page self) h screenshot_path);;
     on_log (log_screenshot (config self) screenshot_path None))
    Exception
    (λ e, on_log (log_error (config self)
                            ("Failed to take screenshot: " +:+ screenshot_path)
                            (Some e) None)).

(** [get_page_title], lines 89-93. *)
Definition get_page_title (self : BasePage) : SE World string :=
  title_ ← call Title (λ h, title (page self) h);
  on_log (debug (logger self) [Text "📄 Page title: "; Text title_]);;
  mret title_.

End base_page.

(* ===================================================================== *)
(** * pages/login_page.py *)
(* ===================================================================== *)

Module login_page.
Import Py config os_ logger session base_page.

(** Page elements (lines 11-17). *)
Definition product_logo : string := ".login_logo".
Definition username_input : string := "#user-name".
Definition password_input : string := "#password".
Definition login_button : string := "#login-button".
Definition req_error : string := "//h3[@data-test='error']".
Definition product_title : string := "//*[@data-test='title']".

(** [LoginPage(page)]: the base initialiser, run with the subclass's name. *)
Definition LoginPage (cfg : Config) (pg : Page) : SE World BasePage :=
  BasePage_init cfg pg "LoginPage".

Definition open (self : BasePage) : SE World unit :=
  let login_url := BASE_URL (config self) in
  navigate_to self (Some login_url);;
  wait_for_page_load self.

Definition enter_username (self : BasePage) (username : string) : SE World unit :=
  wait_for_element self username_input None;;
  fill_input self username_input username.

Definition enter_password (self : BasePage) (password : string) : SE World unit :=
  wait_for_element self password_input None;;
  fill_input self password_input password.

Definition click_login_button (self : BasePage) : SE World unit :=
  click_element self login_button.

(** [login], lines 48-57. *)
Definition login (self : BasePage) (email password : option string) : SE World unit :=
  let username := or_ email (TEST_USER (config self)) in
  let password := or_ password (TEST_PASSWORD (config self)) in
  enter_username self username;;
  enter_password self password;;
  click_login_button self.

(** [get_error_message], lines 59-63. *)
Definition get_error_message (self : BasePage) : SE World (option string) :=
  is_element_visible self req_error ≫= λ visible : bool,
  if visible then get_text self req_error else mret (Some "").

(** The assertions of the driver ([playwright.sync_api.expect]): each
    either holds, or raises [AssertionError] once its own timeout is over.
    They are answered from the calls made so far and are not recorded among
    them. *)
Record Expect : Type := mkExpect {
  to_have_url : list action → string → result unit;
  to_be_visible : list action → string → result unit
}.

Definition expect {A} (answer : list action → result A) : SE World A :=
  λ w, (w, answer (history w)).

(** [verify_login_page_loaded], lines 37-46. *)
Definition verify_login_page_loaded (self : BasePage) (ex : Expect) : SE World unit :=
  expect (λ h, to_have_url ex h (BASE_URL (config self)));;
  (is_element_visible self username_input ≫= λ visible : bool,
   if visible then expect (λ h, to_be_visible ex h username_input) else mret tt);;
  (is_element_visible self password_input ≫= λ visible : bool,
   if visible then expect (λ h, to_be_visible ex h password_input) else mret tt).

(** [is_login_successful], lines 65-70; [page.url] reads the address the
    page is at after the calls made so far. *)
Definition is_login_successful (self : BasePage) : SE World bool :=
  is_element_visible self product_title;;
  current_url ← gets (λ w, url (page self) (history w));
  mret (contains "/inventory.html" current_url).

End login_page.

(* ===================================================================== *)
(** * conftest.py *)
(* ===================================================================== *)

Module conftest.
Import Py config os_ logger session.

(** The test item ([request.node]): its name, the name of its class if it
    has one, and the base name of its file. *)
Record Item : Type := mkItem {
  name : string;
  cls : option string;
  fspath_basename : string
}.

(** [log_test_execution], lines 32-65, up to the [yield]: the value kept
    across the [yield] is [start_time]. *)
Definition log_test_execution_setup (cfg : Config) (node : Item) : SE World Z :=
  let test_name := name node in
  let test_class := match cls node with Some c => c | None => "standalone" end in
  on_log (log_test_start cfg test_name
            [("test_class", test_class); ("test_file", fspath_basename node)]);;
  start_time ← time_time;
  mret start_time.

(** The status chosen at lines 52-62. *)
Definition status_of (attrs : gmap string TestReport) : string :=
  match attrs !! "rep_call" with
  | Some rep_call =>
      if passed rep_call then "PASSED"
      else if failed rep_call then "FAILED"
      else if skipped rep_call then "SKIPPED"
      else "ERROR"
  | None => "UNKNOWN"
  end.

(** [log_test_execution] after the [yield]. *)
Definition log_test_execution_teardown (cfg : Config) (node : Item) (start_time : Z)
    : SE World unit :=
  let test_name := name node in
  now ← time_time;
  let duration := now - start_time in
  attrs ← gets item_attrs;
  let status := status_of attrs in
  on_log (log_test_end cfg test_name status (Some duration)).

(** [pytest_runtest_makereport], lines 68-73: the wrapper receives the
    report the framework built and stores it on the item. *)
Definition pytest_runtest_makereport (rep : TestReport) : SE World unit :=
  modify (λ w, with_item_attrs (<["rep_" +:+ when_ rep := rep]> (item_attrs w)) w).

(** A value of an option dictionary. *)
Inductive value : Type :=
| VNone
| VBool (b : bool)
| VNum (numerator denominator : Z)
| VStr (s : string)
| VSize (width height : Z).

(** The defaults of [context], lines 113-117. *)
Definition default_options (environ : gmap string string) : gmap string value :=
  <["viewport" := VSize 1920 1080]>
    (<["ignore_https_errors" := VBool true]>
       (<["record_video_dir" :=
            if truthy (environ !! "RECORD_VIDEO")
            then VStr "test-results/videos/" else VNone]> ∅)).

(** [context], lines 107-126: the options [browser.new_context] is called
    with.  [devices] is the driver's registry [playwright.devices];
    [dict.update] lets the device's entries win. *)
Definition context_options (cfg : Config) (environ : gmap string string)
    (devices : gmap string (gmap string value)) : gmap string value :=
  let context_options := default_options environ in
  if truthy (Some (DEVICE cfg)) && truthy (mjoin (DEVICES cfg !! DEVICE cfg)) then
    let device_name := default "" (mjoin (DEVICES cfg !! DEVICE cfg)) in
    match devices !! device_name with
    | Some device => device ∪ context_options
    | None => context_options
    end
  else context_options.

(** The fixture up to its [yield]; [new_context] is the browser's. *)
Definition context {C} (cfg : Config) (environ : gmap string string)
    (devices : gmap string (gmap string value))
    (new_context : gmap string value → result C) : result C :=
  new_context (context_options cfg environ devices).


(** The browser engines of the driver ([playwright.chromium] and so on). *)
Inductive engine : Type := chromium | firefox | webkit.

(** [browser_type], lines 83-92. *)
Definition browser_type (cfg : Config) : engine :=
  if decide (BROWSER cfg = "firefox") then firefox
  else if decide (BROWSER cfg = "webkit") then webkit
  else chromium.

(** The keyword arguments of [browser_type.launch], lines 99-102. *)
Record LaunchOptions : Type := mkLaunch {
  launch_headless : bool;
  slow_mo : Z
}.

Definition launch_options (cfg : Config) : LaunchOptions :=
  mkLaunch (HEADLESS cfg) (if negb (HEADLESS cfg) then 50 else 0).

End conftest.

(* ===================================================================== *)
(** * The test framework's protocol for one test *)
(* ===================================================================== *)

Module pytest.
Import Py config os_ logger session conftest.

(** How the framework reports the result of a phase: no exception is
    [passed]; the skip signal, and the imperative xfail signal, are
    [skipped]; every other exception is [failed].  (Items carry no xfail
    mark: the repository's tests use none.) *)
Definition report_of (when_ : string) (r : result unit) : TestReport :=
  mkReport when_
    match r with
    | Ok _ => "passed"
    | Raise e => if isinstance e Skipped || isinstance e XFailed then "skipped" else "failed"
    end.

(** Exceptions that abort the session instead of being reported. *)
Definition interrupts (e : exn) : bool :=
  isinstance e Exit || isinstance e KeyboardInterrupt.

(** The second half of [call_and_report]: build the report of a phase and
    run the report hook with it. *)
Definition report_phase (when_ : string) (r : result unit) : SE World unit :=
  match r with
  | Raise e =>
      if interrupts e then (λ w, (w, Raise e))
      else pytest_runtest_makereport (report_of when_ r)
  | Ok _ => pytest_runtest_makereport (report_of when_ r)
  end.

Definition call_and_report (when_ : string) (phase : SE World unit) : SE World unit :=
  λ w, let '(w', r) := phase w in report_phase when_ r w'.

(** The teardown phase: the finalizers run in the reverse order of the
    setup, so those of the later fixtures run before what follows the
    [yield] of [log_test_execution]; every finalizer runs, and the first
    exception is the one reported. *)
Definition teardown_phase (finalizers finalizer : SE World unit) : SE World unit :=
  λ w, let '(w1, r1) := finalizers w in
       let '(w2, r2) := finalizer w1 in
       (w2, match r1 with Raise e => Raise e | Ok _ => r2 end).

(** [runtestprotocol] for an item that uses the autouse fixture
    [log_test_execution].  [fixtures] sets up the fixtures instantiated
    after it and [finalizers] tears them down; [body] is the test function.
    The item starts without report attributes.  The call phase runs only
    when the setup passed; the teardown phase runs whenever the fixture was
    set up, also when the session is being aborted. *)
Definition runtestprotocol (cfg : Config) (node : Item)
    (fixtures finalizers body : SE World unit) : SE World unit := λ w,
  match log_test_execution_setup cfg node (with_item_attrs ∅ w) with
  | (w1, Raise e) =>
      (report_phase "setup" (Raise e);; report_phase "teardown" (Ok tt)) w1
  | (w1, Ok start_time) =>
      let teardown :=
        teardown_phase finalizers (log_test_execution_teardown cfg node start_time) in
      match (call_and_report "setup" fixtures;;
             setup ← gets (λ w, item_attrs w !! "rep_setup");
             if bool_decide (passed <$> setup = Some true)
             then call_and_report "call" body
             else mret tt) w1 with
      | (w2, Ok _) => call_and_report "teardown" teardown w2
      | (w2, Raise e) => let '(w3, _) := teardown w2 in (w3, Raise e)
      end
  end.

End pytest.

(* ===================================================================== *)
(** * test_runner.py *)
(* ===================================================================== *)

Module test_runner.
Import Py config.

(** The parsed command line ([argparse.Namespace]). *)
Record Args : Type := mkArgs {
  install : bool;
  parallel : bool;
  workers : option Z;
  markers : option string;
  test_file : option string;
  browser : option string;
  headless : option bool;
  device : option string;
  log_level : option string;
  show_logs : bool;
  allure : bool;
  serve_allure : option Z
}.

Record CompletedProcess : Type := mkCompleted {
  returncode : Z;
  stdout : string;
  stderr : string
}.

(** The host the runner talks to: the path of the interpreter
    ([sys.executable]); the answer to the [n]-th [subprocess.run], given its
    command and the environment entries set for the child; to creating a
    directory; and to inspecting the directory of Allure results. *)
Record Host : Type := mkHost {
  executable : string;
  run : nat → list string → gmap string string → result CompletedProcess;
  mkdir : string → result unit;
  allure_results_exists : bool;
  allure_results_listdir : result (list string)
}.

(** The store is the number of child processes started so far. *)
Definition subprocess_run (h : Host) (command : list string)
    (env : gmap string string) : SE nat CompletedProcess :=
  λ n, (S n, run h n command env).

(** [ensure_directories], lines 19-31. *)
Definition ensure_directories (h : Host) : SE nat unit :=
  foldr (λ directory k, eval (mkdir h directory);; k) (mret tt)
        ["test-results"; "screenshots"; "test-results/videos";
         "allure-results"; "allure-report"; "logs"].

(** [run_command], lines 33-45. *)
Definition run_command (h : Host) (command : list string) : SE nat bool :=
  try_catch
    (result ← subprocess_run h command ∅;
     mret (bool_decide (returncode result = 0)))
    Exception
    (λ _, mret false).

(** [install_dependencies], lines 47-60. *)
Definition install_dependencies (h : Host) : SE nat bool :=
  run_command h [executable h; "-m"; "pip"; "install"; "-r"; "requirements.txt"]
    ≫= λ ok : bool,
  if negb ok then mret false
  else run_command h [executable h; "-m"; "playwright"; "install"] ≫= λ ok : bool,
       if negb ok then mret false else mret true.

(** [check_allure_cli], lines 62-75. *)
Definition check_allure_cli (h : Host) : SE nat bool :=
  try_catch
    (result ← subprocess_run h ["allure"; "--version"] ∅;
     mret (bool_decide (returncode result = 0)))
    FileNotFoundError
    (λ _, mret false).

(** [generate_allure_report], lines 177-198. *)
Definition generate_allure_report (h : Host) : SE nat bool :=
  try_catch
    (eval (if allure_results_exists h
          then match allure_results_listdir h with
               | Ok l => Ok (bool_decide (l = []))
               | Raise e => Raise e
               end
          else Ok true) ≫= λ missing_or_empty : bool,
     if missing_or_empty then mret false
     else
       result ← subprocess_run h
                  ["allure"; "generate"; "allure-results"; "-o"; "allure-report"; "--clean"] ∅;
       mret (bool_decide (returncode result = 0)))
    Exception
    (λ _, mret false).

Definition str_of_Z (n : Z) : string := pretty n.

(** The command of [run_tests], lines 79-127; [allure_found] is the
    answer of [check_allure_cli], asked only under [--allure]. *)
Definition command (h : Host) (args : Args) (allure_found : bool) : list string :=
  [executable h; "-m"; "pytest"] ++
  ["-v"; "--tb=short"; "--html=test-results/report.html";
   "--self-contained-html"; "--junitxml=test-results/junit.xml"] ++
  (if allure args && allure_found then ["--alluredir=allure-results"] else []) ++
  (if show_logs args then ["--capture=no"; "-s"] else ["--capture=sys"]) ++
  (if parallel args then
     match workers args with
     | Some n => if decide (n = 0) then ["-n"; "auto"] else ["-n"; str_of_Z n]
     | None => ["-n"; "auto"]
     end
   else []) ++
  (if truthy (markers args) then ["-m"; default "" (markers args)] else []) ++
  (if truthy (test_file args) then [default "" (test_file args)] else ["tests/"]).

(** The entries set on the copy of the environment, lines 129-150. *)
Definition child_env (args : Args) : gmap string string :=
  let set_if (key : string) (v : option string) (env : gmap string string) :=
    if truthy v then <[key := default "" v]> env else env in
  set_if "LOG_LEVEL" (upper <$> log_level args)
    (set_if "DEVICE" (device args)
       (match headless args with
        | Some b => <["HEADLESS" := if b then "true" else "false"]>
        | None => id
        end (set_if "BROWSER" (browser args) ∅))).

(** [run_tests], lines 77-175. *)
Definition run_tests (h : Host) (args : Args) : SE nat bool :=
  (if allure args then check_allure_cli h else mret false) ≫= λ allure_found : bool,
  try_catch
    (result ← subprocess_run h (command h args allure_found) (child_env args);
     let success := bool_decide (returncode result = 0) in
     (if allure args then
        check_allure_cli h ≫= λ found : bool,
        if found then generate_allure_report h;; mret tt else mret tt
      else mret tt);;
     mret success)
    Exception
    (λ _, mret false).

(** [serve_allure_report], lines 200-206. *)
Definition serve_allure_report (h : Host) (port : Z) : SE nat unit :=
  try_catch
    (subprocess_run h ["allure"; "serve"; "allure-results"; "--port"; str_of_Z port] ∅;;
     mret tt)
    Exception
    (λ _, mret tt).

(** How the interpreter ends. *)
Inductive ending : Type :=
| Returns
| SysExit (code : Z)
| Traceback (e : exn).

(** The exit status of the process, as a parent process reads it
    ([returncode]): 0 when [main] returns, the argument of [sys.exit], and
    1 for an exception nobody handled (also for a [SystemExit] raised with
    a message, which is the kind an [exn] stands for); but an unhandled
    [KeyboardInterrupt] makes the interpreter end itself by the interrupt
    signal, which a parent reads as status -2. *)
Definition exit_code (e : ending) : Z :=
  match e with
  | Returns => 0
  | SysExit c => c
  | Traceback e => if isinstance e KeyboardInterrupt then -2 else 1
  end.

Definition truthy_Z (x : option Z) : bool :=
  match x with Some n => negb (n =? 0) | None => false end.

(** [main], lines 209-304; [parsed] is the outcome of [parse_args]: the
    arguments, or the status it exits with. *)
Definition main (h : Host) (parsed : Args + Z) : ending :=
  match parsed with
  | inr code => SysExit code
  | inl args =>
      match ensure_directories h 0%nat with
      | (_, Raise e) => Traceback e
      | (n, Ok _) =>
          if install args then
            match install_dependencies h n with
            | (_, Raise e) => Traceback e
            | (_, Ok ok) => if negb ok then SysExit 1 else Returns
            end
          else if truthy_Z (serve_allure args) then
            match serve_allure_report h (default 0 (serve_allure args)) n with
            | (_, Raise e) => Traceback e
            | (_, Ok _) => Returns
            end
          else
            match run_tests h args n with
            | (_, Raise e) => Traceback e
            | (_, Ok success) => SysExit (if success then 0 else 1)
            end
      end
  end.


(** [--headless BOOL], line 243: with [type=bool] the parser applies [bool]
    to the text of the argument, and a string is truthy unless it is
    empty. *)
Definition headless_type (arg_string : string) : bool := truthy (Some arg_string).

(** [env] at line 158: the copy of the runner's own environment (line 130)
    with the entries set at lines 132-150. *)
Definition child_environ (environ : gmap string string) (args : Args)
    : gmap string string :=
  child_env args ∪ environ.

End test_runner.

(* ===================================================================== *)
(** * utils/helpers.py *)
(* ===================================================================== *)

Module helpers.
Import Py.

(** ** class WaitHelper *)

(** What [retry_action] does to the process: the number of calls of the
    action made so far, and the pauses taken, each recorded by the number
    [k] of the attempt it follows; the pause after attempt [k] is
    [delay * (2 ** k)] long. *)
Record Retries : Type := mkRetries {
  calls : nat;
  pauses : list nat
}.

(** The action is answered by the number of the call. *)
Definition call_action {A} (action_func : nat → result A) : SE Retries A :=
  λ s, (mkRetries (S (calls s)) (pauses s), action_func (calls s)).

(** [time.sleep(delay * (2 ** attempt))]; [sleep_answer attempt] is what
    computing that length and sleeping gives: the call raises when the
    length is negative or too large. *)
Definition sleep (sleep_answer : nat → result unit) (attempt : nat) : SE Retries unit :=
  λ s, match sleep_answer attempt with
       | Ok _ => (mkRetries (calls s) (pauses s ++ [attempt]), Ok tt)
       | Raise e => (s, Raise e)
       end.

(** The loop of [retry_action], lines 118-124, over the attempts that
    are left; falling out of the loop returns [None]. *)
Fixpoint retry_loop {A} (action_func : nat → result A) (sleep_answer : nat → result unit)
    (max_attempts : Z) (attempts : list nat) : SE Retries (option A) :=
  match attempts with
  | [] => mret None
  | attempt :: rest =>
      try_catch
        (a ← call_action action_func; mret (Some a))
        Exception
        (λ e, if decide (Z.of_nat attempt = max_attempts - 1)
              then eval (Raise e)
              else sleep sleep_answer attempt;;
                   retry_loop action_func sleep_answer max_attempts rest)
  end.

(** [retry_action], lines 115-124; [range(max_attempts)] is empty for a
    number that is not positive. *)
Definition retry_action {A} (action_func : nat → result A)
    (sleep_answer : nat → result unit) (max_attempts : Z) : SE Retries (option A) :=
  retry_loop action_func sleep_answer max_attempts (seq 0 (Z.to_nat max_attempts)).

(** ** class APIHelper *)

(** [s.lstrip('/')] *)
Fixpoint lstrip_slash (s : string) : string :=
  match s with
  | String c r => if Ascii.eqb c "/" then lstrip_slash r else s
  | EmptyString => EmptyString
  end.

(** [s.rstrip('/')] *)
Fixpoint rstrip_slash (s : string) : string :=
  match s with
  | String c r =>
      match rstrip_slash r with
      | EmptyString => if Ascii.eqb c "/" then EmptyString else String c EmptyString
      | r' => String c r'
      end
  | EmptyString => EmptyString
  end.

(** [build_api_url], lines 335-345; [urlencode] is the library's
    [urllib.parse.urlencode], and an empty dictionary is falsy. *)
Definition build_api_url (urlencode : list (string * string) → string)
    (base_url endpoint : string) (params : option (list (string * string))) : string :=
  let url := rstrip_slash base_url +:+ "/" +:+ lstrip_slash endpoint in
  match params with
  | Some (p :: ps) => url +:+ "?" +:+ urlencode (p :: ps)
  | _ => url
  end.

End helpers.

(* ===================================================================== *)
(** * tests/test_login.py *)
(* ===================================================================== *)

Module test_login.
Import Py config os_ logger session base_page login_page.

(** [assert cond]; the text of the error, which the framework composes,
    is left out. *)
Definition assert_ (cond : bool) : SE World unit :=
  if cond then mret tt else raise AssertionError "".

(** [needle in x] where [x] may be [None]. *)
Definition in_ (needle : string) (x : option string) : SE World bool :=
  match x with
  | Some s => mret (contains needle s)
  | None => raise TypeError "argument of type 'NoneType' is not iterable"
  end.

(** Lines 8-11; [page] is the fixture, [ex] the assertions of the driver. *)
Definition test_login_page_loads_successfully (cfg : Config) (page : Page) (ex : Expect)
    : SE World unit :=
  login_page ← LoginPage cfg page;
  open login_page;;
  verify_login_page_loaded login_page ex.

(** Lines 15-20. *)
Definition test_login_with_valid_credentials (cfg : Config) (page : Page)
    : SE World unit :=
  login_page ← LoginPage cfg page;
  open login_page;;
  login login_page None None;;
  successful ← is_login_successful login_page;
  assert_ successful.

(** Lines 23-29. *)
Definition test_login_with_invalid_credentials (cfg : Config) (page : Page)
    : SE World unit :=
  login_page ← LoginPage cfg page;
  open login_page;;
  enter_username login_page "standard_user";;
  click_login_button login_page;;
  message ← get_error_message login_page;
  found ← in_ "Password is required" message;
  assert_ found.

End test_login.

(* ===================================================================== *)
(** * Properties of the runtime fragment, and the initial state *)
(* ===================================================================== *)

Section runtime_properties.
Import Py config os_ logger session.

Lemma truthy_Some (s : string) : truthy (Some s) = true ↔ s ≠ "".
Proof.
  cbn. rewrite negb_true_iff. split.
  - intros H ->. by rewrite String.eqb_refl in H.
  - intros H. by apply String.eqb_neq.
Qed.

(** The configuration of an empty environment: every default. *)
Definition default_config : Config := Config_with ∅ 30000.

(** A fresh process in an empty working directory: no file, no directory,
    no logger; the root logger at its initial level. *)
Definition empty_logworld : LogWorld :=
  mkLogWorld (mkFS ∅ ∅ ∅) ∅ WARNING 0 [] [] [].

Definition empty_world : World := mkWorld empty_logworld [] 0 ∅.

End runtime_properties.

(* ===================================================================== *)
(** * Properties of config.py *)
(* ===================================================================== *)

Section config_properties.
Import Py config.

Lemma isinstance_ValueError (msg : string) :
  isinstance (Exn ValueError msg) ValueError = true.
Proof. reflexivity. Qed.

(** What [int] raises is a [ValueError], so the handler of lines 17-18
    takes it. *)
Lemma int_raises_ValueError (s : string) (e : exn) :
  int s = Raise e → isinstance e ValueError = true.
Proof.
  unfold int. destruct (signed_value _); intros H; inversion H.
  apply isinstance_ValueError.
Qed.

Lemma TIMEOUT_stmt_unfold (environ : gmap string string) :
  TIMEOUT_stmt environ =
  match int (getenv environ "TIMEOUT" "30000") with
  | Ok n => Ok n
  | Raise _ => Ok 30000
  end.
Proof.
  unfold TIMEOUT_stmt, try_except.
  destruct (int _) as [n|e] eqn:E; [reflexivity|].
  by rewrite (int_raises_ValueError _ _ E).
Qed.

Lemma getenv_set (environ : gmap string string) (key dflt v : string) :
  environ !! key = Some v → getenv environ key dflt = v.
Proof. unfold getenv. by intros ->. Qed.

(** C1. Whatever the value of the variable TIMEOUT, the class body of
    [Config] completes and never raises; when the value does not parse as
    an integer the timeout is the default 30000, and when it parses the
    timeout is the parsed integer. *)
Theorem TIMEOUT_resolution (environ : gmap string string) (v : string) :
  environ !! "TIMEOUT" = Some v →
  (∃ c, Config_class environ = Ok c ∧ TIMEOUT_stmt environ = Ok (TIMEOUT c)) ∧
  (raises (int v) = true → TIMEOUT_stmt environ = Ok 30000) ∧
  (∀ n, int v = Ok n → TIMEOUT_stmt environ = Ok n).
Proof.
  intros Hv. split; [|split].
  - unfold Config_class. rewrite TIMEOUT_stmt_unfold.
    destruct (int _); eexists; split; reflexivity.
  - rewrite TIMEOUT_stmt_unfold, (getenv_set _ _ _ _ Hv).
    destruct (int v); [discriminate|reflexivity].
  - intros n Hn. by rewrite TIMEOUT_stmt_unfold, (getenv_set _ _ _ _ Hv), Hn.
Qed.

Lemma TIMEOUT_resolution_witness :
  ({["TIMEOUT" := "30s"]} : gmap string string) !! "TIMEOUT" = Some "30s" ∧
  raises (int "30s") = true ∧
  TIMEOUT_stmt {["TIMEOUT" := "30s"]} = Ok 30000.
Proof.
  split; [reflexivity|]. split; [reflexivity|].
  refine (proj1 (proj2 (TIMEOUT_resolution {["TIMEOUT" := "30s"]} "30s" _)) _);
    reflexivity.
Defined.

(** The variable unset, and values in the interpreter's integer syntax. *)
Example TIMEOUT_examples :
  TIMEOUT_stmt ∅ = Ok 30000 ∧
  TIMEOUT_stmt {["TIMEOUT" := " 5_000 "]} = Ok 5000 ∧
  TIMEOUT_stmt {["TIMEOUT" := "-1"]} = Ok (-1) ∧
  TIMEOUT_stmt {["TIMEOUT" := "1e3"]} = Ok 30000 ∧
  TIMEOUT_stmt {["TIMEOUT" := ""]} = Ok 30000.
Proof. repeat split; reflexivity. Qed.

(** The strings the specification lists for the headless flag. *)
Definition listed_tokens : list string := ["true"; "TRUE"; "1"; "yes"; "on"].

Lemma flag_true_iff (environ : gmap string string) (key dflt : string) :
  flag environ key dflt = true ↔ lower (getenv environ key dflt) ∈ truthy_tokens.
Proof. unfold flag. apply bool_decide_eq_true. Qed.

Lemma listed_tokens_lower (s : string) :
  s ∈ listed_tokens → lower s ∈ truthy_tokens.
Proof.
  unfold listed_tokens, truthy_tokens. rewrite !elem_of_cons, elem_of_nil.
  intros [->|[->|[->|[->|[->|[]]]]]]; cbn; set_solver.
Qed.

(** C2, as stated, fails: [True] is not one of the listed strings, and the
    flag resolves to true for it. *)
Lemma HEADLESS_unlisted_true :
  ("True" ∉ listed_tokens) ∧ HEADLESS_expr {["HEADLESS" := "True"]} = true.
Proof.
  split; [|reflexivity].
  unfold listed_tokens. rewrite !elem_of_cons, elem_of_nil.
  intros [H|[H|[H|[H|[H|[]]]]]]; discriminate H.
Qed.

(** C2, amended. The flag is true exactly when the lower-cased value is one
    of [true], [1], [yes], [on]: so it is true for every listed string, and
    false for every string whose lower-cased form is none of the four. *)
Theorem HEADLESS_resolution (environ : gmap string string) (s : string) :
  environ !! "HEADLESS" = Some s →
  (HEADLESS_expr environ = true ↔ lower s ∈ truthy_tokens) ∧
  (s ∈ listed_tokens → HEADLESS_expr environ = true) ∧
  (lower s ∉ truthy_tokens → HEADLESS_expr environ = false).
Proof.
  intros Hs. unfold HEADLESS_expr.
  assert (Hiff : flag environ "HEADLESS" "true" = true ↔ lower s ∈ truthy_tokens).
  { by rewrite flag_true_iff, (getenv_set _ _ _ _ Hs). }
  split; [exact Hiff|]. split.
  - intros Hin. apply Hiff. by apply listed_tokens_lower.
  - intros Hnot. destruct (flag environ "HEADLESS" "true") eqn:E; [|reflexivity].
    exfalso. apply Hnot, Hiff. reflexivity.
Qed.

Lemma HEADLESS_resolution_witness :
  ({["HEADLESS" := "Yes"]} : gmap string string) !! "HEADLESS" = Some "Yes" ∧
  (HEADLESS_expr {["HEADLESS" := "Yes"]} = true ↔ lower "Yes" ∈ truthy_tokens).
Proof.
  split; [reflexivity|].
  refine (proj1 (HEADLESS_resolution {["HEADLESS" := "Yes"]} "Yes" _)).
  reflexivity.
Defined.

End config_properties.

(* ===================================================================== *)
(** * Properties of utils/logger.py *)
(* ===================================================================== *)

Section logger_properties.
Import Py config os_ logger.

(** The level [setup_logger] gives the logger and its handlers. *)
Definition resolved_level (cfg : Config) : result Z :=
  checkLevel (logging_getattr (LOG_LEVEL cfg) (IntAttr INFO)).

(** The handlers [setup_logger] attaches when the next fresh identity
    is [n]: the file handler if enabled, then the console handler if
    enabled. *)
Definition new_handlers (cfg : Config) (level : Z) (n : nat) : list Handler :=
  (if LOG_TO_FILE cfg then [mkHandler n (FileSink (LOG_FILE_PATH cfg)) level] else []) ++
  (if LOG_TO_CONSOLE cfg
   then [mkHandler (if LOG_TO_FILE cfg then S n else n) ConsoleSink level] else []).

Lemma alter_lookup_Some {A} (f : A → A) (m : gmap string A) (k : string) (v : A) :
  m !! k = Some v → alter f k m = <[k := f v]> m.
Proof.
  intros H. apply map_eq. intros j. destruct (decide (k = j)) as [<-|Hne].
  - by rewrite lookup_alter_eq, lookup_insert_eq, H.
  - by rewrite lookup_alter_ne, lookup_insert_ne.
Qed.

(** ** What [setup_logger] does when it completes *)

Lemma setup_logger_completes (cfg : Config) (name : string) (lw lw' : LogWorld)
    (lg0 : Logger) :
  loggerDict lw !! name = Some lg0 →
  setup_logger cfg name lw = (lw', Ok tt) →
  ∃ level,
    resolved_level cfg = Ok level ∧
    loggerDict lw' =
      <[name := mkLogger level (new_handlers cfg level (next_id lw))]> (loggerDict lw) ∧
    next_id lw' = (next_id lw + length (new_handlers cfg level (next_id lw)))%nat ∧
    root_level lw' = root_level lw ∧
    stdout lw' = stdout lw ∧
    submitted lw' = submitted lw.
Proof.
  intros Hl.
  unfold setup_logger, setLevel, addHandler, update_logger, FileHandler, StreamHandler,
    fresh_id, on_fs, lift, eval, modify, mbind, SE_bind, mret, SE_ret,
    new_handlers, resolved_level.
  cbn [loggerDict with_loggerDict fs with_fs next_id with_next_id].
  destruct (checkLevel _) as [level|e]; [|discriminate].
  destruct (mkdir_exist_ok _ _) as [f1 [[]|e]]; [|discriminate].
  rewrite !(alter_lookup_Some _ _ _ _ Hl), !alter_insert_eq.
  destruct (LOG_TO_FILE cfg), (LOG_TO_CONSOLE cfg); cbn.
  - destruct (open_ _ _ _) as [f2 [[]|e]]; [|discriminate]. cbn.
    intros H; inversion H; subst; clear H. exists level. cbn.
    rewrite ?alter_insert_eq, ?insert_insert_eq. cbn.
    repeat split; try done; try lia.
  - destruct (open_ _ _ _) as [f2 [[]|e]]; [|discriminate]. cbn.
    intros H; inversion H; subst; clear H. exists level. cbn.
    rewrite ?alter_insert_eq, ?insert_insert_eq. cbn.
    repeat split; try done; try lia.
  - intros H; inversion H; subst; clear H. exists level. cbn.
    rewrite ?alter_insert_eq, ?insert_insert_eq. cbn.
    repeat split; try done; try lia.
  - intros H; inversion H; subst; clear H. exists level. cbn.
    rewrite ?alter_insert_eq, ?insert_insert_eq. cbn.
    repeat split; try done; try lia.
Qed.


(** What [TestLogger(name)] does when it completes: the logger registered
    under [name] has exactly the handlers of this call, every other logger
    is as before. *)
Lemma TestLogger_completes (cfg : Config) (name lg : string) (lw lw' : LogWorld) :
  TestLogger cfg name lw = (lw', Ok lg) →
  lg = name ∧
  ∃ level,
    resolved_level cfg = Ok level ∧
    loggerDict lw' !! name =
      Some (mkLogger level (new_handlers cfg level (next_id lw))) ∧
    (∀ other, other ≠ name → loggerDict lw' !! other = loggerDict lw !! other) ∧
    next_id lw' = (next_id lw + length (new_handlers cfg level (next_id lw)))%nat ∧
    root_level lw' = root_level lw ∧
    stdout lw' = stdout lw ∧
    submitted lw' = submitted lw.
Proof.
  unfold TestLogger, getLogger, mbind, SE_bind, mret, SE_ret.
  destruct (loggerDict lw !! name) as [lg0|] eqn:El.
  - destruct (setup_logger cfg name lw) as [lw1 [[]|e]] eqn:Es; [|discriminate].
    intros H; inversion H; subst; clear H. split; [done|].
    destruct (setup_logger_completes _ _ _ _ _ El Es) as (level & ? & Hd & ? & ? & ? & ?).
    exists level. rewrite Hd. repeat split; try done.
    + by rewrite lookup_insert_eq.
    + intros other Hne. by rewrite lookup_insert_ne.
  - destruct (setup_logger cfg name _) as [lw1 [[]|e]] eqn:Es; [|discriminate].
    intros H; inversion H; subst; clear H. split; [done|].
    eapply setup_logger_completes in Es; [|cbn; apply lookup_insert_eq].
    destruct Es as (level & ? & Hd & ? & ? & ? & ?). cbn in *.
    exists level. rewrite Hd. repeat split; try done.
    + by rewrite lookup_insert_eq.
    + intros other Hne. by rewrite !lookup_insert_ne.
Qed.



Lemma new_handlers_ids (cfg : Config) (level : Z) (n : nat) (h : Handler) :
  h ∈ new_handlers cfg level n →
  (n ≤ h_id h < n + length (new_handlers cfg level n))%nat ∧ h_level h = level.
Proof.
  unfold new_handlers.
  destruct (LOG_TO_FILE cfg), (LOG_TO_CONSOLE cfg); cbn;
    rewrite ?elem_of_cons, ?elem_of_nil; intros H;
    repeat match goal with H : _ ∨ _ |- _ => destruct H as [H|H] end;
    try done; subst; cbn; split; (lia || done).
Qed.

(** Among the handlers of one call, an identity occurs once. *)
Lemma new_handlers_once (cfg : Config) (level : Z) (n : nat) (h : Handler) :
  h ∈ new_handlers cfg level n →
  filter (λ h', h_id h' = h_id h) (new_handlers cfg level n) = [h].
Proof.
  unfold new_handlers.
  destruct (LOG_TO_FILE cfg), (LOG_TO_CONSOLE cfg); cbn;
    rewrite ?elem_of_cons, ?elem_of_nil; intros H;
    repeat match goal with H : _ ∨ _ |- _ => destruct H as [H|H] end;
    try done; subst; cbn;
    rewrite ?filter_cons, ?filter_nil; cbn;
    repeat case_decide; try done; lia.
Qed.

(** ** Handler identities are fresh *)

(** Every handler attached to a registered logger has an identity below
    the next fresh one. *)
Definition ids_allocated (lw : LogWorld) : Prop :=
  ∀ name lg h, loggerDict lw !! name = Some lg → h ∈ lg_handlers lg →
               (h_id h < next_id lw)%nat.

Lemma TestLogger_ids_allocated (cfg : Config) (name lg : string) (lw lw' : LogWorld) :
  ids_allocated lw → TestLogger cfg name lw = (lw', Ok lg) → ids_allocated lw'.
Proof.
  intros Hwf Ht.
  destruct (TestLogger_completes _ _ _ _ _ Ht) as (_ & level & _ & Hn & Ho & Hi & _).
  intros other lg' h Hl Hh. destruct (decide (other = name)) as [->|Hne].
  - rewrite Hn in Hl. inversion Hl; subst. cbn in Hh.
    apply new_handlers_ids in Hh. lia.
  - rewrite (Ho _ Hne) in Hl. specialize (Hwf _ _ _ Hl Hh). lia.
Qed.


(** ** The parent search *)

Lemma dots_bounds (i x : nat) (s : string) :
  x ∈ dots i s → (i ≤ x < i + String.length s)%nat.
Proof.
  revert i. induction s as [|c r IH]; intros i; cbn [dots String.length].
  - by rewrite elem_of_nil.
  - rewrite elem_of_app. intros [H|H].
    + destruct (decide (c = "."%char)); [|by apply elem_of_nil in H].
      apply list_elem_of_singleton in H. lia.
    + apply IH in H. lia.
Qed.

Lemma visited_subset (prev : option nat) (ds : list nat) (x : nat) :
  x ∈ visited prev ds → x ∈ ds.
Proof.
  revert prev. induction ds as [|d r IH]; intros prev; cbn [visited]; [done|].
  destruct (decide (prev = Some (S d))).
  - intros H. right. by eapply IH.
  - destruct (decide (d = 0%nat)); [by rewrite elem_of_nil|].
    rewrite !elem_of_cons. intros [->|H]; [by left|]. right. by eapply IH.
Qed.

Lemma length_substring (i : nat) (s : string) :
  (i ≤ String.length s)%nat → String.length (substring 0 i s) = i.
Proof.
  revert i. induction s as [|c r IH]; intros [|i]; cbn; try done; try lia.
  intros H. rewrite IH; lia.
Qed.

(** The names of the possible ancestors are shorter than the name. *)
Lemma candidates_shorter (name p : string) :
  p ∈ candidates name → (String.length p < String.length name)%nat.
Proof.
  unfold candidates. intros H. apply list_elem_of_fmap in H as (i & -> & Hi).
  apply visited_subset in Hi.
  rewrite list_elem_of_In, <- in_rev, <- list_elem_of_In in Hi.
  apply dots_bounds in Hi. rewrite length_substring; lia.
Qed.

Lemma parent_of_Some (lw : LogWorld) (name p : string) :
  parent_of lw name = Some p →
  p ∈ candidates name ∧ is_Some (loggerDict lw !! p).
Proof.
  unfold parent_of. intros H. apply head_Some_elem_of in H.
  by apply list_elem_of_filter in H as [? ?].
Qed.

Lemma parents_proper (k : nat) (lw : LogWorld) (name p : string) :
  p ∈ parents k lw name →
  (String.length p < String.length name)%nat ∧ is_Some (loggerDict lw !! p).
Proof.
  revert name. induction k as [|k IH]; intros name; cbn [parents].
  - by rewrite elem_of_nil.
  - destruct (parent_of lw name) as [q|] eqn:Eq; [|by rewrite elem_of_nil].
    apply parent_of_Some in Eq as [Hq Hreg]. apply candidates_shorter in Hq.
    rewrite elem_of_cons. intros [->|H]; [done|].
    apply IH in H as [Hlen Hr]. split; [lia|done].
Qed.

(** The chain of parents is complete: more fuel finds no further ancestor. *)
Lemma parents_fuel (k : nat) (lw : LogWorld) (name : string) :
  (String.length name ≤ k)%nat → parents k lw name = ancestors lw name.
Proof.
  unfold ancestors.
  assert (H : ∀ k1 k2 name, (String.length name ≤ k1)%nat →
                (String.length name ≤ k2)%nat →
                parents k1 lw name = parents k2 lw name).
  { clear. induction k1 as [|k1 IH]; intros k2 name H1 H2.
    - destruct name; [|cbn in H1; lia]. destruct k2; [done|]. cbn [parents].
      destruct (parent_of lw "") as [q|] eqn:Eq; [|done].
      apply parent_of_Some in Eq as [Hq _]. apply candidates_shorter in Hq.
      cbn in Hq. lia.
    - destruct k2 as [|k2].
      + destruct name; [|cbn in H2; lia]. cbn [parents].
        destruct (parent_of lw "") as [q|] eqn:Eq; [|done].
        apply parent_of_Some in Eq as [Hq _]. apply candidates_shorter in Hq.
        cbn in Hq. lia.
      + cbn [parents]. destruct (parent_of lw name) as [q|] eqn:Eq; [|done].
        apply parent_of_Some in Eq as [Hq _]. apply candidates_shorter in Hq.
        f_equal. apply IH; lia. }
  intros Hk. by apply H.
Qed.

Lemma ancestors_proper (lw : LogWorld) (name p : string) :
  p ∈ ancestors lw name → p ≠ name ∧ is_Some (loggerDict lw !! p).
Proof.
  unfold ancestors. intros H. apply parents_proper in H as [Hlen Hreg].
  split; [|done]. intros ->. lia.
Qed.



Lemma handlers_of_lookup (lw : LogWorld) (name : string) (lg : Logger) :
  loggerDict lw !! name = Some lg → handlers_of lw name = lg_handlers lg.
Proof. unfold handlers_of. by intros ->. Qed.

(** The handlers of the ancestors were allocated before the call that
    configured the logger. *)
Lemma ancestors_handlers_old (lw lw' : LogWorld) (name : string) (h : Handler) :
  ids_allocated lw →
  (∀ other, other ≠ name → loggerDict lw' !! other = loggerDict lw !! other) →
  h ∈ mjoin (handlers_of lw' <$> ancestors lw' name) →
  (h_id h < next_id lw)%nat.
Proof.
  intros Hwf Ho Hh.
  apply list_elem_of_join in Hh as (hs & Hh & Hhs).
  apply list_elem_of_fmap in Hhs as (p & -> & Hp).
  apply ancestors_proper in Hp as [Hne [lg Hlg]].
  rewrite (handlers_of_lookup _ _ _ Hlg) in Hh.
  rewrite (Ho _ Hne) in Hlg. by eapply Hwf.
Qed.

(** ** The file system under [setup_logger] and [log] *)

(** Every file is as before or new and empty, and no file is lost. *)
Definition files_kept (f f' : FS LogRecord) : Prop :=
  (∀ q ls, files f' !! q = Some ls → files f !! q = Some ls ∨ ls = []) ∧
  (∀ q, is_Some (files f !! q) → is_Some (files f' !! q)).

Lemma files_kept_refl (f : FS LogRecord) : files_kept f f.
Proof. split; auto. Qed.

Lemma files_kept_trans (f1 f2 f3 : FS LogRecord) :
  files_kept f1 f2 → files_kept f2 f3 → files_kept f1 f3.
Proof.
  intros [H1 D1] [H2 D2]. split.
  - intros q ls H. destruct (H2 _ _ H) as [H' | ->]; [|by right]. by apply H1.
  - intros q H. by apply D2, D1.
Qed.

Lemma mkdir_exist_ok_spec (p : string) (f f' : FS LogRecord) (r : result unit) :
  mkdir_exist_ok p f = (f', r) →
  files f' = files f ∧ (∀ e, r = Raise e → isinstance e Exception = true).
Proof.
  unfold mkdir_exist_ok, raise. intros H.
  repeat case_match; inversion H; subst; cbn; split; try done;
    intros e He; inversion He; reflexivity.
Qed.

Lemma open_spec (p : string) (truncate : bool) (f f' : FS LogRecord) (r : result unit) :
  open_ p truncate f = (f', r) →
  match r with
  | Ok _ =>
      files f' = <[norm p := if truncate then [] else default [] (files f !! norm p)]> (files f)
  | Raise e => f' = f ∧ isinstance e Exception = true
  end.
Proof.
  unfold open_, raise. intros H.
  repeat case_match; inversion H; subst; cbn; done.
Qed.

Lemma open_append_kept (p : string) (f f' : FS LogRecord) (r : result unit) :
  open_ p false f = (f', r) → files_kept f f'.
Proof.
  intros H. apply open_spec in H. destruct r as [[]|e].
  - split.
    + intros q ls. rewrite H. destruct (decide (norm p = q)) as [<-|Hne].
      * rewrite lookup_insert_eq. intros [= <-].
        destruct (files f !! norm p); cbn; auto.
      * rewrite lookup_insert_ne by done. auto.
    + intros q Hq. rewrite H. destruct (decide (norm p = q)) as [<-|Hne].
      * rewrite lookup_insert_eq. eauto.
      * by rewrite lookup_insert_ne.
  - destruct H as [-> _]. apply files_kept_refl.
Qed.

Lemma checkLevel_raises (a : attr) (e : exn) :
  checkLevel a = Raise e → isinstance e Exception = true.
Proof. unfold checkLevel. intros He. repeat case_match; inversion He; reflexivity. Qed.

(** What [setup_logger] leaves alone, whether it completes or raises. *)
Lemma setup_logger_frame (cfg : Config) (name : string) (lw lw' : LogWorld)
    (r : result unit) :
  setup_logger cfg name lw = (lw', r) →
  stdout lw' = stdout lw ∧
  files_kept (fs lw) (fs lw') ∧
  (∀ e, r = Raise e → isinstance e Exception = true).
Proof.
  unfold setup_logger, setLevel, addHandler, update_logger,
    FileHandler, StreamHandler, fresh_id, on_fs, lift, eval, modify,
    mbind, SE_bind, mret, SE_ret.
  cbn [fs with_fs with_loggerDict with_next_id].
  destruct (checkLevel _) as [level|e0] eqn:Ec.
  2:{ intros H; inversion H; subst; cbn. repeat split; try apply files_kept_refl.
      intros e [= <-]. by eapply checkLevel_raises. }
  destruct (mkdir_exist_ok _ _) as [f1 r1] eqn:Em.
  apply mkdir_exist_ok_spec in Em as [Hf1 He1].
  assert (K1 : files_kept (fs lw) f1).
  { unfold files_kept. rewrite Hf1. auto. }
  destruct r1 as [[]|e1].
  2:{ intros H; inversion H; subst; cbn. repeat split; try apply K1.
      intros e [= <-]. by apply He1. }
  destruct (LOG_TO_FILE cfg); cbn [fs with_fs with_loggerDict with_next_id].
  - destruct (open_ _ _ f1) as [f2 r2] eqn:Eo.
    pose proof (open_append_kept _ _ _ _ Eo) as K2.
    apply open_spec in Eo.
    destruct r2 as [[]|e2].
    + destruct (LOG_TO_CONSOLE cfg); intros H; inversion H; subst; cbn;
        (split; [done|]); (split; [by eapply files_kept_trans|]); by intros e [=].
    + intros H; inversion H; subst; cbn.
      split; [done|]. split; [by eapply files_kept_trans|].
      intros e [= <-]. by destruct Eo.
  - destruct (LOG_TO_CONSOLE cfg); intros H; inversion H; subst; cbn;
      (split; [done|]); (split; [done|]); by intros e [=].
Qed.

(** What [TestLogger(name)] leaves alone, whether it completes or raises. *)
Lemma TestLogger_frame (cfg : Config) (name : string) (lw lw' : LogWorld)
    (r : result string) :
  TestLogger cfg name lw = (lw', r) →
  stdout lw' = stdout lw ∧
  files_kept (fs lw) (fs lw') ∧
  (∀ e, r = Raise e → isinstance e Exception = true).
Proof.
  unfold TestLogger, getLogger, mbind, SE_bind, mret, SE_ret.
  destruct (loggerDict lw !! name).
  - destruct (setup_logger cfg name lw) as [lw1 r1] eqn:Es.
    apply setup_logger_frame in Es as (Hs & Hk & He).
    destruct r1 as [[]|e1]; intros H; inversion H; subst;
      (split; [done|]); (split; [done|]); intros e Hr; inversion Hr; subst; by apply He.
  - destruct (setup_logger cfg name _) as [lw1 r1] eqn:Es.
    apply setup_logger_frame in Es as (Hs & Hk & He). cbn in *.
    destruct r1 as [[]|e1]; intros H; inversion H; subst;
      (split; [done|]); (split; [done|]); intros e Hr; inversion Hr; subst; by apply He.
Qed.


(** Every line of the file [q] is the record [r]. *)
Definition lines_are (r : LogRecord) (q : string) (lw : LogWorld) : Prop :=
  ∃ ls, files (fs lw) !! q = Some ls ∧ Forall (λ l, l = r) ls.

Lemma emit_lines_are (r : LogRecord) (q : string) (lw : LogWorld) (h : Handler) :
  lines_are r q lw → lines_are r q (emit r lw h).
Proof.
  intros (ls & Hl & Hf). unfold emit, lines_are.
  destruct (h_sink h) as [p|]; cbn; [|eauto].
  destruct (decide (norm p = q)) as [<-|Hne].
  - exists (ls ++ [r]). rewrite lookup_alter_eq, Hl. split; [done|].
    apply Forall_app. split; [done|]. by constructor.
  - exists ls. by rewrite lookup_alter_ne.
Qed.

Lemma emit_stdout (r : LogRecord) (lw : LogWorld) (h : Handler) :
  stdout (emit r lw h) = stdout lw.
Proof. unfold emit. by destruct (h_sink h). Qed.

(** A logging call completes, prints nothing, and only appends its own
    record to files. *)
Lemma log_frame (name : string) (level : Z) (msg : message) (lw : LogWorld) :
  ∃ lw',
    log name level msg lw = (lw', Ok tt) ∧
    stdout lw' = stdout lw ∧
    (∀ q, lines_are (mkRecord name level msg) q lw →
          lines_are (mkRecord name level msg) q lw').
Proof.
  unfold log. set (r := mkRecord name level msg).
  set (w1 := with_submitted _ lw).
  assert (H1 : stdout w1 = stdout lw) by done.
  assert (H2 : ∀ q, lines_are r q lw → lines_are r q w1) by done.
  destruct (isEnabledFor lw name level); [|eauto].
  eexists. split; [reflexivity|].
  generalize (callHandlers lw name r). intros hs.
  revert H1 H2. generalize w1. clear w1.
  induction hs as [|h hs IH]; intros w1 H1 H2; cbn [foldl]; [done|].
  apply IH.
  - by rewrite emit_stdout.
  - intros q Hq. by apply emit_lines_are, H2.
Qed.

Lemma with_fs_same (lw : LogWorld) : with_fs (fs lw) lw = lw.
Proof. by destruct lw. Qed.

(** The record [clear_log_file] logs, and the warning it prints. *)
Definition cleared_record : LogRecord :=
  mkRecord module_name INFO [Text "🧹 Log file cleared"].
Definition clear_warning (e : exn) : string :=
  "Warning: Could not clear log file: " +:+ exn_msg e.

(** C6, as stated, fails: where neither the log file nor its directory
    exists, [clear_log_file] returns with the state unchanged; the directory
    the file needs has not been created. *)
Lemma clear_log_file_creates_nothing :
  path_exists (fs empty_logworld) (LOG_FILE_PATH default_config) = false ∧
  clear_log_file default_config empty_logworld = (empty_logworld, Ok tt) ∧
  is_dir (fs (clear_log_file default_config empty_logworld).1)
         (parent (LOG_FILE_PATH default_config)) = false.
Proof. repeat split; vm_compute; reflexivity. Qed.

(** C6, amended. [clear_log_file] always returns and never raises.  When
    the configured log file does not exist it does nothing at all: nothing
    is created, neither the file nor its directory.  When the path exists
    and can be opened for writing, the file is truncated: afterwards its
    only lines, if any, are the notice that the file was cleared.  When
    opening it fails, the state is as before but for a warning printed on
    the console; any later failure inside the function also ends in one
    warning line and no exception. *)
Theorem clear_log_file_total (cfg : Config) (lw : LogWorld) :
  ∃ lw',
    clear_log_file cfg lw = (lw', Ok tt) ∧
    (path_exists (fs lw) (LOG_FILE_PATH cfg) = false → lw' = lw) ∧
    (path_exists (fs lw) (LOG_FILE_PATH cfg) = true →
     match open_ (LOG_FILE_PATH cfg) true (fs lw) with
     | (_, Ok _) => lines_are cleared_record (norm (LOG_FILE_PATH cfg)) lw'
     | (_, Raise e) => lw' = with_stdout (stdout lw ++ [clear_warning e]) lw
     end) ∧
    (stdout lw' = stdout lw ∨ ∃ e, stdout lw' = stdout lw ++ [clear_warning e]).
Proof.
  unfold clear_log_file, try_catch.
  destruct (path_exists (fs lw) (LOG_FILE_PATH cfg)) eqn:Ep.
  2:{ exists lw. repeat split; auto. discriminate. }
  unfold mbind, SE_bind, on_fs, lift, print, modify.
  destruct (open_ (LOG_FILE_PATH cfg) true (fs lw)) as [f1 r1] eqn:Eo.
  apply open_spec in Eo. destruct r1 as [[]|e1].
  - set (lw1 := with_fs f1 lw).
    assert (Hl1 : lines_are cleared_record (norm (LOG_FILE_PATH cfg)) lw1).
    { exists []. cbn. rewrite Eo, lookup_insert_eq. by split. }
    destruct (TestLogger cfg module_name lw1) as [lw2 r2] eqn:Et.
    pose proof (TestLogger_frame _ _ _ _ _ Et) as (Hs2 & [Hk2 Hd2] & He2).
    assert (Hl2 : lines_are cleared_record (norm (LOG_FILE_PATH cfg)) lw2).
    { destruct Hl1 as (ls & Hls & Hf).
      destruct (Hd2 _ (mk_is_Some _ _ Hls)) as [ls2 Hls2].
      exists ls2. split; [done|].
      destruct (Hk2 _ _ Hls2) as [Hold | ->]; [|done].
      rewrite Hls in Hold. by inversion Hold; subst. }
    destruct r2 as [lg|e2].
    + apply TestLogger_completes in Et as (-> & _).
      destruct (log_frame module_name INFO [Text "🧹 Log file cleared"] lw2)
        as (lw3 & Hlog & Hs3 & Hl3).
      unfold info. rewrite Hlog. exists lw3.
      split; [done|]. split; [discriminate|]. split; [intros _; by apply Hl3|].
      left. by rewrite Hs3, Hs2.
    + rewrite (He2 e2 eq_refl). eexists. split; [reflexivity|].
      split; [discriminate|]. split; [intros _; exact Hl2|].
      right. exists e2. cbn. by rewrite Hs2.
  - destruct Eo as [-> He]. rewrite He, with_fs_same.
    eexists. split; [reflexivity|]. split; [discriminate|]. split; [done|].
    right. by exists e1.
Qed.

End logger_properties.

(* ===================================================================== *)
(** * Further properties of utils/logger.py *)
(* ===================================================================== *)

Section logger_more_properties.
Import Py config os_ logger.

(** ** The log directory is made one level deep *)

(** [setup_logger] makes the directory of the log file with
    [mkdir(exist_ok=True)], without [parents]: when that directory is
    missing and so is the directory above it, constructing a logger raises
    [FileNotFoundError], with file logging enabled or not, and the logger
    is left registered with no handler at all. *)
Theorem logger_needs_parent_of_log_directory (cfg : Config) (name : string)
    (lw : LogWorld) (level : Z) :
  resolved_level cfg = Ok level →
  is_dir (fs lw) (norm (parent (LOG_FILE_PATH cfg))) = false →
  is_file (fs lw) (norm (parent (LOG_FILE_PATH cfg))) = false →
  is_dir (fs lw) (parent (norm (parent (LOG_FILE_PATH cfg)))) = false →
  is_file (fs lw) (parent (norm (parent (LOG_FILE_PATH cfg)))) = false →
  ∃ lw' e,
    TestLogger cfg name lw = (lw', Raise e) ∧
    exn_cls e = FileNotFoundError ∧
    handlers_of lw' name = [] ∧
    fs lw' = fs lw.
Proof.
  unfold resolved_level. intros Hlevel Hd Hf Hpd Hpf.
  unfold TestLogger, getLogger, setup_logger, setLevel, update_logger, on_fs, lift,
    eval, modify, mbind, SE_bind, mret, SE_ret.
  assert (Hm : ∀ f : FS LogRecord, files f = files (fs lw) → dirs f = dirs (fs lw) →
               ∃ e, mkdir_exist_ok (parent (LOG_FILE_PATH cfg)) f = (f, Raise e) ∧
                    exn_cls e = FileNotFoundError).
  { intros f Hff Hfd. unfold mkdir_exist_ok, raise.
    unfold is_dir, is_file in *. rewrite Hff, Hfd, Hd, Hf, Hpf, Hpd. cbn. eauto. }
  destruct (loggerDict lw !! name) as [lg0|] eqn:El; rewrite Hlevel; cbn.
  - destruct (Hm (fs lw) eq_refl eq_refl) as (e & -> & He).
    eexists _, e. split; [reflexivity|]. split; [exact He|]. split.
    + unfold handlers_of. cbn. by rewrite !lookup_alter_eq, El.
    + by destruct lw.
  - destruct (Hm (fs lw) eq_refl eq_refl) as (e & -> & He).
    eexists _, e. split; [reflexivity|]. split; [exact He|]. split.
    + unfold handlers_of. cbn. by rewrite !lookup_alter_eq, lookup_insert_eq.
    + by destruct lw.
Qed.

(** A configuration whose log file is two directories deep. *)
Definition nested_log_config : Config :=
  Config_with {["LOG_FILE_PATH" := "reports/logs/run.log"]} 30000.

Lemma logger_needs_parent_of_log_directory_witness :
  resolved_level nested_log_config = Ok INFO ∧
  is_dir (fs empty_logworld) "reports/logs" = false ∧
  is_dir (fs empty_logworld) "reports" = false ∧
  ∃ lw' e,
    TestLogger nested_log_config "test" empty_logworld = (lw', Raise e) ∧
    exn_cls e = FileNotFoundError ∧
    handlers_of lw' "test" = [] ∧
    fs lw' = fs empty_logworld.
Proof.
  split; [reflexivity|]. split; [reflexivity|]. split; [reflexivity|].
  refine (logger_needs_parent_of_log_directory nested_log_config "test"
            empty_logworld INFO _ _ _ _ _); reflexivity.
Defined.

(** ** Clearing the log file leaves a line in it *)

Lemma emit_keeps_file (r : LogRecord) (q : string) (lw : LogWorld) (h : Handler) :
  (∃ ls, files (fs lw) !! q = Some ls ∧ r ∈ ls) →
  ∃ ls, files (fs (emit r lw h)) !! q = Some ls ∧ r ∈ ls.
Proof.
  intros (ls & Hl & Hr). unfold emit.
  destruct (h_sink h) as [p|]; cbn; [|eauto].
  destruct (decide (norm p = q)) as [<-|Hne].
  - exists (ls ++ [r]). rewrite lookup_alter_eq, Hl. split; [done|].
    apply elem_of_app. by left.
  - exists ls. by rewrite lookup_alter_ne.
Qed.

Lemma emit_keeps_existence (r : LogRecord) (q : string) (lw : LogWorld) (h : Handler) :
  is_Some (files (fs lw) !! q) → is_Some (files (fs (emit r lw h)) !! q).
Proof.
  intros [ls Hl]. unfold emit.
  destruct (h_sink h) as [p|]; cbn; [|eauto].
  destruct (decide (norm p = q)) as [<-|Hne].
  - rewrite lookup_alter_eq, Hl. eauto.
  - rewrite lookup_alter_ne by done. eauto.
Qed.

Lemma emit_file_sink (r : LogRecord) (p : string) (lw : LogWorld) (h : Handler) :
  h_sink h = FileSink p →
  is_Some (files (fs lw) !! norm p) →
  ∃ ls, files (fs (emit r lw h)) !! norm p = Some ls ∧ r ∈ ls.
Proof.
  intros Hs [ls Hl]. unfold emit. rewrite Hs. cbn.
  exists (ls ++ [r]). rewrite lookup_alter_eq, Hl. split; [done|].
  apply elem_of_app. right. by apply list_elem_of_singleton.
Qed.

(** A record passed to a list of handlers that holds a file handler on an
    existing file ends up in that file. *)
Lemma foldl_emit_writes (r : LogRecord) (p : string) (hs : list Handler)
    (lw : LogWorld) (h : Handler) :
  h ∈ hs → h_sink h = FileSink p →
  is_Some (files (fs lw) !! norm p) →
  ∃ ls, files (fs (foldl (emit r) lw hs)) !! norm p = Some ls ∧ r ∈ ls.
Proof.
  revert lw. induction hs as [|h' hs IH]; intros lw Hin Hs Hex.
  - by apply elem_of_nil in Hin.
  - cbn [foldl]. apply elem_of_cons in Hin as [<-|Hin].
    + pose proof (emit_file_sink r p lw h Hs Hex) as Hw.
      clear IH. revert Hw. generalize (emit r lw h). clear lw Hex.
      induction hs as [|h'' hs IH]; intros lw Hw; cbn [foldl]; [done|].
      apply IH. by apply emit_keeps_file.
    + apply IH; [done|done|]. by apply emit_keeps_existence.
Qed.

(** After [setup_logger] completes with file logging enabled the log file
    exists. *)
Lemma setup_logger_opens_file (cfg : Config) (name : string) (lw lw' : LogWorld) :
  LOG_TO_FILE cfg = true →
  setup_logger cfg name lw = (lw', Ok tt) →
  is_Some (files (fs lw') !! norm (LOG_FILE_PATH cfg)).
Proof.
  intros Hfile.
  unfold setup_logger, setLevel, addHandler, update_logger,
    FileHandler, StreamHandler, fresh_id, on_fs, lift, eval, modify,
    mbind, SE_bind, mret, SE_ret.
  rewrite Hfile. cbn [fs with_fs with_loggerDict with_next_id].
  destruct (checkLevel _) as [level|e0]; [|discriminate].
  destruct (mkdir_exist_ok _ _) as [f1 [[]|e1]]; [|discriminate].
  cbn [fs with_fs with_loggerDict with_next_id].
  destruct (open_ _ _ f1) as [f2 r2] eqn:Eo. apply open_spec in Eo.
  destruct r2 as [[]|e2]; [|discriminate].
  destruct (LOG_TO_CONSOLE cfg); intros H; inversion H; subst; cbn;
    rewrite Eo, lookup_insert_eq; eauto.
Qed.

Lemma TestLogger_opens_file (cfg : Config) (name lg : string) (lw lw' : LogWorld) :
  LOG_TO_FILE cfg = true →
  TestLogger cfg name lw = (lw', Ok lg) →
  is_Some (files (fs lw') !! norm (LOG_FILE_PATH cfg)).
Proof.
  intros Hfile. unfold TestLogger, getLogger, mbind, SE_bind, mret, SE_ret.
  destruct (loggerDict lw !! name).
  - destruct (setup_logger cfg name lw) as [lw1 [[]|e]] eqn:Es; [|discriminate].
    intros H; inversion H; subst. by eapply setup_logger_opens_file.
  - destruct (setup_logger cfg name _) as [lw1 [[]|e]] eqn:Es; [|discriminate].
    intros H; inversion H; subst. by eapply setup_logger_opens_file.
Qed.

(** The level in force on a logger that [setup_logger] gave a level other
    than [NOTSET]. *)
Lemma getEffectiveLevel_own (lw : LogWorld) (name : string) (lg : Logger) :
  loggerDict lw !! name = Some lg → lg_level lg ≠ NOTSET →
  getEffectiveLevel lw name = lg_level lg.
Proof.
  intros Hl Hn.
  assert (Hlev : level_of lw name = lg_level lg) by (unfold level_of; by rewrite Hl).
  unfold getEffectiveLevel. rewrite fmap_cons, Hlev. cbn [list_find].
  by rewrite decide_True.
Qed.

(** What a successful [open] says about the file system it found. *)
Lemma open_ok_conditions (p : string) (truncate : bool) (f f' : FS LogRecord) :
  open_ p truncate f = (f', Ok tt) →
  is_dir f (norm p) = false ∧
  is_file f (parent (norm p)) = false ∧
  is_dir f (parent (norm p)) = true ∧
  bool_decide (norm p ∈ denied f) = false ∧
  dirs f' = dirs f ∧ denied f' = denied f.
Proof.
  unfold open_, raise. intros H.
  destruct (is_dir f (norm p)); [discriminate|].
  destruct (is_file f (parent (norm p))); [discriminate|].
  destruct (is_dir f (parent (norm p))); [|discriminate].
  destruct (bool_decide (norm p ∈ denied f)); [discriminate|].
  by inversion H; subst.
Qed.

(** Where the log directory exists and the log file can be opened for
    appending, [TestLogger(name)] completes. *)
Lemma TestLogger_succeeds (cfg : Config) (name : string) (lw : LogWorld)
    (level : Z) (f2 : FS LogRecord) :
  resolved_level cfg = Ok level →
  is_dir (fs lw) (norm (parent (LOG_FILE_PATH cfg))) = true →
  open_ (LOG_FILE_PATH cfg) false (fs lw) = (f2, Ok tt) →
  ∃ lw', TestLogger cfg name lw = (lw', Ok name).
Proof.
  unfold resolved_level. intros Hlevel Hdir Hopen.
  unfold TestLogger, getLogger, setup_logger, setLevel, addHandler, update_logger,
    FileHandler, StreamHandler, fresh_id, on_fs, lift, eval, modify,
    mbind, SE_bind, mret, SE_ret.
  assert (Hm : mkdir_exist_ok (parent (LOG_FILE_PATH cfg)) (fs lw) = (fs lw, Ok tt)).
  { unfold mkdir_exist_ok. by rewrite Hdir. }
  destruct (loggerDict lw !! name); rewrite Hlevel; cbn; rewrite Hm; cbn;
    destruct (LOG_TO_FILE cfg), (LOG_TO_CONSOLE cfg); cbn;
    rewrite ?Hopen; cbn; eauto.
Qed.


(** [clear_log_file] does not leave the file empty.  When the log file
    exists, can be opened for writing and its directory is there, file
    logging is enabled and the level admits INFO, the function returns
    without a warning and the file then holds the notice that it was
    cleared, and nothing else: a log write that follows makes at least two
    lines. *)
Theorem clear_log_file_leaves_notice (cfg : Config) (lw : LogWorld)
    (f1 : FS LogRecord) (level : Z) :
  path_exists (fs lw) (LOG_FILE_PATH cfg) = true →
  open_ (LOG_FILE_PATH cfg) true (fs lw) = (f1, Ok tt) →
  is_dir (fs lw) (norm (parent (LOG_FILE_PATH cfg))) = true →
  LOG_TO_FILE cfg = true →
  resolved_level cfg = Ok level →
  level ≠ NOTSET →
  level ≤ INFO →
  ∃ lw' ls,
    clear_log_file cfg lw = (lw', Ok tt) ∧
    stdout lw' = stdout lw ∧
    files (fs lw') !! norm (LOG_FILE_PATH cfg) = Some ls ∧
    ls ≠ [] ∧
    Forall (λ l, l = cleared_record) ls.
Proof.
  intros Hex Hopen Hdir Hfile Hlevel Hnot Hinfo.
  unfold clear_log_file, try_catch. rewrite Hex.
  unfold mbind, SE_bind, on_fs, lift. rewrite Hopen.
  pose proof (open_spec _ _ _ _ _ Hopen) as Hf1. cbn in Hf1.
  destruct (open_ok_conditions _ _ _ _ Hopen) as (Hnd & Hpf & Hpd & Hden & Hdirs & Hdenied).
  set (lw1 := with_fs f1 lw).
  assert (Hl1 : lines_are cleared_record (norm (LOG_FILE_PATH cfg)) lw1).
  { exists []. cbn. rewrite Hf1, lookup_insert_eq. by split. }
  (* the logger can be configured on the truncated file *)
  assert (Hne : parent (norm (LOG_FILE_PATH cfg)) ≠ norm (LOG_FILE_PATH cfg)).
  { intros Heq. rewrite Heq in Hpd. congruence. }
  assert (Hopen2 : ∃ f2, open_ (LOG_FILE_PATH cfg) false f1 = (f2, Ok tt)).
  { unfold open_, raise, is_dir, is_file in *.
    rewrite Hdirs, Hdenied, Hf1, Hnd, Hpd, Hden.
    rewrite lookup_insert_ne by done. rewrite Hpf. cbn. eauto. }
  destruct Hopen2 as [f2 Hopen2].
  assert (Hdir1 : is_dir (fs lw1) (norm (parent (LOG_FILE_PATH cfg))) = true).
  { unfold is_dir in *. cbn. by rewrite Hdirs. }
  destruct (TestLogger_succeeds cfg module_name lw1 level f2 Hlevel Hdir1 Hopen2)
    as [lw2 Ht].
  rewrite Ht.
  pose proof (TestLogger_frame _ _ _ _ _ Ht) as (Hs2 & [Hk2 Hd2] & _).
  pose proof (TestLogger_opens_file _ _ _ _ _ Hfile Ht) as Hex2.
  destruct (TestLogger_completes _ _ _ _ _ Ht) as (_ & l2 & Hl2 & Hn2 & _).
  rewrite Hlevel in Hl2. inversion Hl2; subst l2. clear Hl2.
  assert (Hlines2 : lines_are cleared_record (norm (LOG_FILE_PATH cfg)) lw2).
  { destruct Hl1 as (ls & Hls & Hf). destruct Hex2 as [ls2 Hls2].
    exists ls2. split; [done|].
    destruct (Hk2 _ _ Hls2) as [Hold | ->]; [|done].
    rewrite Hls in Hold. by inversion Hold; subst. }
  destruct (log_frame module_name INFO [Text "🧹 Log file cleared"] lw2)
    as (lw3 & Hlog & Hs3 & Hl3).
  unfold info. rewrite Hlog.
  destruct (Hl3 _ Hlines2) as (ls3 & Hls3 & Hall).
  exists lw3, ls3. split; [done|]. split; [by rewrite Hs3, Hs2|].
  split; [done|]. split; [|done].
  (* the record is written by the file handler just attached *)
  unfold log in Hlog.
  assert (Hen : isEnabledFor lw2 module_name INFO = true).
  { unfold isEnabledFor. rewrite (getEffectiveLevel_own _ _ _ Hn2) by done.
    by apply bool_decide_eq_true. }
  rewrite Hen in Hlog. inversion Hlog as [Hfold]. clear Hlog.
  set (r := mkRecord module_name INFO [Text "🧹 Log file cleared"]) in *.
  assert (Hin : mkHandler (next_id lw1) (FileSink (LOG_FILE_PATH cfg)) level
                ∈ callHandlers lw2 module_name r).
  { unfold callHandlers. rewrite fmap_cons. cbn [mjoin list_join].
    apply list_elem_of_filter. split; [done|]. apply elem_of_app. left.
    rewrite (handlers_of_lookup _ _ _ Hn2). cbn. unfold new_handlers.
    rewrite Hfile. cbn. left. }
  destruct (foldl_emit_writes r (LOG_FILE_PATH cfg) _
              (with_submitted (submitted lw2 ++ [r]) lw2) _ Hin eq_refl Hex2)
    as (ls & Hls & Hr).
  rewrite Hfold in Hls. rewrite Hls3 in Hls. inversion Hls; subst ls.
  intros ->. by apply elem_of_nil in Hr.
Qed.

(** A log file left by an earlier run, in its directory. *)
Definition old_logworld : LogWorld :=
  mkLogWorld
    (mkFS {["logs/test_execution.log" :=
              [mkRecord "test" INFO [Text "an old line"];
               mkRecord "test" INFO [Text "another old line"]]]}
          {["logs"]} ∅)
    ∅ WARNING 0 [] [] [].

Lemma clear_log_file_leaves_notice_witness :
  path_exists (fs old_logworld) (LOG_FILE_PATH default_config) = true ∧
  resolved_level default_config = Ok INFO ∧
  ∃ lw' ls,
    clear_log_file default_config old_logworld = (lw', Ok tt) ∧
    stdout lw' = stdout old_logworld ∧
    files (fs lw') !! norm (LOG_FILE_PATH default_config) = Some ls ∧
    ls ≠ [] ∧
    Forall (λ l, l = cleared_record) ls.
Proof.
  split; [reflexivity|]. split; [reflexivity|].
  refine (clear_log_file_leaves_notice default_config old_logworld
            (open_ (LOG_FILE_PATH default_config) true (fs old_logworld)).1
            INFO _ _ _ _ _ _ _);
    first [ reflexivity | vm_compute; reflexivity | discriminate
          | vm_compute; discriminate ].
Defined.

(** What the file holds in that case: the notice, once. *)
Example clear_log_file_then_one_line :
  files (fs (clear_log_file default_config old_logworld).1)
    !! "logs/test_execution.log" = Some [cleared_record].
Proof. vm_compute. reflexivity. Qed.

End logger_more_properties.

(* ===================================================================== *)
(** * The logger hierarchy *)
(* ===================================================================== *)

Section logger_hierarchy_properties.
Import Py config os_ logger.

(** ** Calling [get_test_logger] twice *)






(** Two calls for the same test in a fresh process. *)
Definition first_call : LogWorld * result string :=
  get_test_logger default_config (Some "test_login") empty_logworld.
Definition second_call : LogWorld * result string :=
  get_test_logger default_config (Some "test_login") first_call.1.


(** The logger [test], then the logger of a test. *)
Definition first_parented : LogWorld * result string :=
  get_test_logger default_config None empty_logworld.
Definition second_parented : LogWorld * result string :=
  get_test_logger default_config (Some "test_login") first_parented.1.

(** The same two calls, then one record: both attached handlers, file
    then console, and nothing else. *)
Example second_call_handlers :
  h_sink <$> callHandlers second_call.1 "test.test_login"
               (mkRecord "test.test_login" INFO [Text "step"])
  = [FileSink "logs/test_execution.log"; ConsoleSink].
Proof. vm_compute. reflexivity. Qed.

(** ** Records of a test's logger also reach the handlers of [test] *)








(** A test whose name begins with a dot has a logger outside the
    hierarchy of [test]: the parent search passes over the name in front of
    two adjacent dots, and the record is written once. *)
Example dotted_test_outside_hierarchy :
  ancestors (get_test_logger default_config (Some ".x") first_parented.1).1 "test..x"
    = [] ∧
  ancestors second_parented.1 "test.test_login" = ["test"].
Proof. split; vm_compute; reflexivity. Qed.

End logger_hierarchy_properties.

(* ===================================================================== *)
(** * Properties of the page objects *)
(* ===================================================================== *)

Section page_properties.
Import Py config logger session base_page login_page.

(** ** The calls a method makes on the page *)

(** [m] only adds calls to the history, and every call it adds
    satisfies [P]. *)
Definition adds_calls {A} (P : action → Prop) (m : SE World A) : Prop :=
  ∀ w w' r, m w = (w', r) →
    ∃ calls, history w' = history w ++ calls ∧ Forall P calls.

Lemma adds_calls_mret {A} (P : action → Prop) (a : A) : adds_calls P (mret a).
Proof.
  intros w w' r H. inversion H; subst. exists []. by rewrite app_nil_r.
Qed.

Lemma adds_calls_reraise {A} (P : action → Prop) (e : exn) :
  adds_calls P (reraise e : SE World A).
Proof.
  intros w w' r H. inversion H; subst. exists []. by rewrite app_nil_r.
Qed.

Lemma adds_calls_on_log {A} (P : action → Prop) (m : SE LogWorld A) :
  adds_calls P (on_log m).
Proof.
  intros w w' r H. unfold on_log, lift in H.
  destruct (m (logw w)) as [l r']. inversion H; subst.
  exists []. by rewrite app_nil_r.
Qed.

Lemma adds_calls_call {A} (P : action → Prop) (a : action)
    (answer : list action → result A) :
  P a → adds_calls P (call a answer).
Proof.
  intros Ha w w' r H. inversion H; subst. exists [a]. split; [done|].
  by constructor.
Qed.

Lemma adds_calls_bind {A B} (P : action → Prop) (m : SE World A) (f : A → SE World B) :
  adds_calls P m → (∀ a, adds_calls P (f a)) → adds_calls P (m ≫= f).
Proof.
  intros Hm Hf w w' r H. unfold mbind, SE_bind in H.
  destruct (m w) as [w1 [a|e]] eqn:Em.
  - destruct (Hm _ _ _ Em) as (c1 & H1 & F1).
    destruct (Hf a _ _ _ H) as (c2 & H2 & F2).
    exists (c1 ++ c2). rewrite H2, H1, app_assoc. split; [done|].
    by apply Forall_app.
  - inversion H; subst. by eapply Hm.
Qed.

Lemma adds_calls_try {A} (P : action → Prop) (body : SE World A) (cls : exn_class)
    (handler : exn → SE World A) :
  adds_calls P body → (∀ e, adds_calls P (handler e)) →
  adds_calls P (try_catch body cls handler).
Proof.
  intros Hb Hh w w' r H. unfold try_catch in H.
  destruct (body w) as [w1 [a|e]] eqn:Eb.
  - inversion H; subst. by eapply Hb.
  - destruct (isinstance e cls).
    + destruct (Hb _ _ _ Eb) as (c1 & H1 & F1).
      destruct (Hh e _ _ _ H) as (c2 & H2 & F2).
      exists (c1 ++ c2). rewrite H2, H1, app_assoc. split; [done|].
      by apply Forall_app.
    + inversion H; subst. by eapply Hb.
Qed.

Ltac adds_calls :=
  repeat first
    [ apply adds_calls_on_log
    | apply adds_calls_mret
    | apply adds_calls_reraise
    | apply adds_calls_bind; [|intros ?]
    | apply adds_calls_try; [|intros ?]
    | apply adds_calls_call ].

(** A logging call on a configured logger completes. *)
Lemma log_completes (name : string) (level : Z) (msg : message) (lw : LogWorld) :
  ∃ lw', log name level msg lw = (lw', Ok tt).
Proof. unfold log. destruct (isEnabledFor _ _ _); eauto. Qed.

Lemma on_log_debug (name : string) (msg : message) (w : World) :
  ∃ lw', on_log (debug name msg) w = (with_logw lw' w, Ok tt).
Proof.
  unfold on_log, lift, debug.
  destruct (log_completes name DEBUG msg (logw w)) as [lw' ->]. eauto.
Qed.

(** ** [is_element_visible] *)

(** The result of the check, by cases on the driver's answer. *)
Lemma is_element_visible_answer (self : BasePage) (selector : string) (w : World) :
  (∀ e, is_visible (page self) (history w) selector = Raise e →
        isinstance e Exception = true) →
  ∃ w',
    is_element_visible self selector w =
      (w', Ok match is_visible (page self) (history w) selector with
              | Ok visible => visible
              | Raise _ => false
              end) ∧
    history w' = history w ++ [IsVisible selector].
Proof.
  intros Hexc. unfold is_element_visible, try_catch, call, mbind, SE_bind, mret, SE_ret.
  destruct (is_visible (page self) (history w) selector) as [visible|e] eqn:Ev.
  - match goal with |- context [on_log (debug ?n ?m) ?w0] =>
      destruct (on_log_debug n m w0) as [lw' ->] end.
    eexists. split; reflexivity.
  - rewrite (Hexc e eq_refl).
    match goal with |- context [on_log (debug ?n ?m) ?w0] =>
      destruct (on_log_debug n m w0) as [lw' ->] end.
    eexists. split; reflexivity.
Qed.

(** C8. For every selector the visibility check returns and does not
    raise: when the driver's call raises an exception the check returns
    false, so that an absent element and a driver error give the same
    answer; otherwise it returns what the driver answered.  (The driver's
    errors derive from [Exception], the class the handler names.) *)
Theorem is_element_visible_never_raises (self : BasePage) (selector : string)
    (w : World) :
  (∀ e, is_visible (page self) (history w) selector = Raise e →
        isinstance e Exception = true) →
  (∃ w' visible, is_element_visible self selector w = (w', Ok visible)) ∧
  (∀ e, is_visible (page self) (history w) selector = Raise e →
        ∃ w', is_element_visible self selector w = (w', Ok false)) ∧
  (∀ visible, is_visible (page self) (history w) selector = Ok visible →
        ∃ w', is_element_visible self selector w = (w', Ok visible)).
Proof.
  intros Hexc.
  destruct (is_element_visible_answer self selector w Hexc) as (w' & Hv & _).
  split; [eauto|]. split.
  - intros e He. rewrite He in Hv. eauto.
  - intros visible He. rewrite He in Hv. eauto.
Qed.

(** A page handle whose visibility query fails with the driver's error. *)
Definition broken_page : Page :=
  mkPage (λ _ _, Ok tt) (λ _ _, Ok tt) (λ _ _, Ok tt) (λ _ _ _, Ok tt)
         (λ _ _, Ok None)
         (λ _ _, Raise (Exn PlaywrightError "Target page, context or browser has been closed"))
         (λ _ _ _, Ok tt) (λ _ _, Ok tt) (λ _, Ok "") (λ _, "about:blank").

Definition broken_login_page : BasePage :=
  mkBasePage broken_page default_config "test.LoginPage".

Lemma is_element_visible_never_raises_witness :
  (∀ e, is_visible broken_page [] "#x" = Raise e → isinstance e Exception = true) ∧
  ∃ w', is_element_visible broken_login_page "#x" empty_world = (w', Ok false) ∧
        history w' = [IsVisible "#x"].
Proof.
  assert (H : ∀ e, is_visible broken_page [] "#x" = Raise e →
                   isinstance e Exception = true).
  { intros e He. inversion He. reflexivity. }
  split; [exact H|].
  destruct (proj1 (proj2 (is_element_visible_never_raises
              broken_login_page "#x" empty_world H)) _ eq_refl) as [w' Hw'].
  exists w'. split; [exact Hw'|].
  destruct (is_element_visible_answer broken_login_page "#x" empty_world H)
    as (w'' & Hv & Hh).
  rewrite Hw' in Hv. by inversion Hv; subst.
Defined.

(** ** [get_error_message] *)

(** C10. When the error element is reported not visible, or the
    visibility probe raises, [get_error_message] returns the empty string
    without raising, and the probe is the only call it makes on the page:
    the element's text is not read.  When the element is reported visible
    the result is that of [get_text], which may raise. *)
Theorem get_error_message_guarded (self : BasePage) (w : World) :
  (∀ e, is_visible (page self) (history w) req_error = Raise e →
        isinstance e Exception = true) →
  match is_visible (page self) (history w) req_error with
  | Ok true =>
      ∃ w1, is_element_visible self req_error w = (w1, Ok true) ∧
            get_error_message self w = get_text self req_error w1
  | _ =>
      ∃ w', get_error_message self w = (w', Ok (Some "")) ∧
            history w' = history w ++ [IsVisible req_error]
  end.
Proof.
  intros Hexc.
  destruct (is_element_visible_answer self req_error w Hexc) as (w1 & Hv & Hh).
  unfold get_error_message, mbind, SE_bind. rewrite Hv.
  destruct (is_visible (page self) (history w) req_error) as [[|]|e]; eauto.
Qed.

Lemma get_error_message_guarded_witness :
  (∀ e, is_visible broken_page [] req_error = Raise e → isinstance e Exception = true) ∧
  ∃ w', get_error_message broken_login_page empty_world = (w', Ok (Some "")) ∧
        history w' = [IsVisible req_error].
Proof.
  assert (H : ∀ e, is_visible broken_page [] req_error = Raise e →
                   isinstance e Exception = true).
  { intros e He. inversion He. reflexivity. }
  split; [exact H|].
  exact (get_error_message_guarded broken_login_page empty_world H).
Defined.

(** ** [login] *)

Lemma or_None (d : string) : or_ None d = d.
Proof. reflexivity. Qed.

Lemma or_empty (d : string) : or_ (Some "") d = d.
Proof. reflexivity. Qed.

Lemma or_nonempty (x : option string) (d : string) : d ≠ "" → or_ x d ≠ "".
Proof.
  intros Hd. destruct x as [s|]; [|done]. unfold or_.
  destruct (truthy (Some s)) eqn:E; [|done]. by apply truthy_Some.
Qed.

(** What [login] types into the form. *)
Definition login_call (username password : string) (a : action) : Prop :=
  match a with
  | Fill selector text =>
      (selector = username_input ∧ text = username) ∨
      (selector = password_input ∧ text = password)
  | _ => True
  end.

Lemma login_adds_calls (self : BasePage) (email password : option string) :
  adds_calls (login_call (or_ email (TEST_USER (config self)))
                         (or_ password (TEST_PASSWORD (config self))))
             (login self email password).
Proof.
  unfold login, enter_username, enter_password, click_login_button,
    wait_for_element, fill_input, click_element.
  adds_calls; cbn; auto.
Qed.

(** A page handle on which every call succeeds. *)
Definition blank_page : Page :=
  mkPage (λ _ _, Ok tt) (λ _ _, Ok tt) (λ _ _, Ok tt) (λ _ _ _, Ok tt)
         (λ _ _, Ok None) (λ _ _, Ok false)
         (λ _ _ _, Ok tt) (λ _ _, Ok tt) (λ _, Ok "") (λ _, "about:blank").

(** C9, as stated, fails in its last part: where the configured default
    user name is itself empty (the variable TEST_USER set to the empty
    string), [login("")] does submit an empty user name. *)
Lemma login_submits_empty_default :
  TEST_USER (Config_with {["TEST_USER" := ""]} 30000) = "" ∧
  history (login (mkBasePage blank_page (Config_with {["TEST_USER" := ""]} 30000)
                             "test.LoginPage")
                 (Some "") None empty_world).1
  = [WaitForSelector "#user-name" 30000; Fill "#user-name" "";
     WaitForSelector "#password" 30000; Fill "#password" "secret_sauce";
     Click "#login-button"].
Proof. split; vm_compute; reflexivity. Qed.

(** C9, amended. [login] replaces a credential by the configured default
    when the argument is omitted and also when it is the empty string: the
    two calls are the same computation.  Every text [login] fills into the
    user name field is [email or TEST_USER], and into the password field
    [password or TEST_PASSWORD]; so an empty argument never reaches the
    form, and the text submitted is empty only when the configured default
    is itself empty. *)
Theorem login_substitutes_defaults (self : BasePage) (email password : option string)
    (w : World) :
  login self (Some "") password w = login self None password w ∧
  login self email (Some "") w = login self email None w ∧
  ∃ calls,
    history (login self email password w).1 = history w ++ calls ∧
    (∀ text, Fill username_input text ∈ calls →
       text = or_ email (TEST_USER (config self)) ∧
       (TEST_USER (config self) ≠ "" → text ≠ "")) ∧
    (∀ text, Fill password_input text ∈ calls →
       text = or_ password (TEST_PASSWORD (config self)) ∧
       (TEST_PASSWORD (config self) ≠ "" → text ≠ "")).
Proof.
  split; [reflexivity|]. split; [reflexivity|].
  destruct (login self email password w) as [w' r] eqn:E.
  destruct (login_adds_calls self email password _ _ _ E) as (calls & Hh & Hc).
  exists calls. split; [exact Hh|].
  rewrite Forall_forall in Hc. split.
  - intros text Hin. destruct (Hc _ Hin) as [[_ ->]|[Hsel _]]; [|discriminate Hsel].
    split; [reflexivity|]. apply or_nonempty.
  - intros text Hin. destruct (Hc _ Hin) as [[Hsel _]|[_ ->]]; [discriminate Hsel|].
    split; [reflexivity|]. apply or_nonempty.
Qed.

(** With the default configuration, [login("", "")] types the default
    credentials. *)
Example login_empty_strings :
  history (login (mkBasePage blank_page default_config "test.LoginPage")
                 (Some "") (Some "") empty_world).1
  = [WaitForSelector "#user-name" 30000; Fill "#user-name" "standard_user";
     WaitForSelector "#password" 30000; Fill "#password" "secret_sauce";
     Click "#login-button"].
Proof. vm_compute. reflexivity. Qed.

End page_properties.

(* ===================================================================== *)
(** * Properties of the test lifecycle hooks *)
(* ===================================================================== *)

Section lifecycle_properties.
Import Py config os_ logger session conftest pytest.

Lemma emit_submitted (r : LogRecord) (lw : LogWorld) (h : Handler) :
  submitted (emit r lw h) = submitted lw.
Proof. unfold emit. by destruct (h_sink h). Qed.

(** A logging call hands its record to the logger. *)
Lemma log_submits (name : string) (level : Z) (msg : message) (lw : LogWorld) :
  ∃ lw', log name level msg lw = (lw', Ok tt) ∧
         submitted lw' = submitted lw ++ [mkRecord name level msg].
Proof.
  unfold log. set (r := mkRecord name level msg).
  set (w1 := with_submitted _ lw).
  assert (H1 : submitted w1 = submitted lw ++ [r]) by done.
  destruct (isEnabledFor lw name level); [|eauto].
  eexists. split; [reflexivity|].
  generalize (callHandlers lw name r). intros hs.
  revert H1. generalize w1. clear w1.
  induction hs as [|h hs IH]; intros w1 H1; cbn [foldl]; [done|].
  apply IH. by rewrite emit_submitted.
Qed.

(** The level [log_test_end] logs a status at. *)
Definition end_level (status : string) : Z :=
  if bool_decide (upper status ∈ ["PASSED"; "SKIPPED"]) then INFO else ERROR.

(** Once the logger of the test is configured, [log_test_end] hands the
    end record to it. *)
Lemma log_test_end_submits (cfg : Config) (test_name status : string)
    (duration : option Z) (lw lw1 : LogWorld) (lg : string) :
  get_test_logger cfg (Some test_name) lw = (lw1, Ok lg) →
  ∃ lw2,
    log_test_end cfg test_name status duration lw = (lw2, Ok tt) ∧
    submitted lw2 =
      submitted lw ++
      [mkRecord lg (end_level status) (test_end_message test_name status duration)].
Proof.
  intros Hg. unfold log_test_end, mbind, SE_bind. rewrite Hg.
  assert (Hs : submitted lw1 = submitted lw).
  { unfold get_test_logger in Hg. by apply TestLogger_completes in Hg as (_ & ? & ? & ? & ? & ? & ? & ? & ?). }
  unfold end_level, info, error.
  destruct (bool_decide _);
    match goal with |- context [log ?n ?l ?m ?w] =>
      destruct (log_submits n l m w) as (lw2 & -> & Hsub) end;
    exists lw2; (split; [done|]); by rewrite Hsub, Hs.
Qed.

(** ** Where a record ends up *)






(** The world in which a phase result has been reported. *)
Definition reported (when_ : string) (r : result unit) (w : World) : World :=
  (pytest_runtest_makereport (report_of when_ r) w).1.

(** A test of the repository, and bodies that take 1500 ticks and then
    raise. *)
Definition login_test : Item :=
  mkItem "test_login_with_valid_credentials" (Some "TestLoginPage") "test_login.py".

Definition raising_body (e : exn) : SE World unit :=
  λ w, (mkWorld (logw w) (history w) (clock w + 1500) (item_attrs w), Raise e).










Definition failed_run_setup : World * result Z :=
  log_test_execution_setup default_config login_test (with_item_attrs ∅ empty_world).
Definition failed_run_body : World * result unit :=
  raising_body (Exn AssertionError "assert False")
    (reported "setup" (Ok tt) failed_run_setup.1).
Definition failed_run_reported : World :=
  reported "call" (Raise (Exn AssertionError "assert False")) failed_run_body.1.


(** With the default configuration the end record is also the last line
    of the log file. *)
Example failed_run_log_file :
  last <$> os_.files (fs (logw (runtestprotocol default_config login_test
                                  (mret tt) (mret tt)
                                  (raising_body (Exn AssertionError "assert False"))
                                  empty_world).1))
             !! "logs/test_execution.log"
  = Some (Some (mkRecord "test.test_login_with_valid_credentials" ERROR
                  (test_end_message "test_login_with_valid_credentials" "FAILED"
                     (Some 1500)))).
Proof. vm_compute. reflexivity. Qed.

(** The duration that is logged, in ticks. *)
Example failed_run_duration : clock failed_run_reported - 0 = 1500.
Proof. vm_compute. reflexivity. Qed.

(** The outcomes the framework keeps apart from a failure.  A body that
    raises the skip signal is reported as skipped, and the end record carries
    the status SKIPPED, at level INFO. *)
Example skip_signal_is_reported_skipped :
  let run := runtestprotocol default_config login_test (mret tt) (mret tt)
               (raising_body (Exn Skipped "needs a live site")) empty_world in
  run.2 = Ok tt ∧
  item_attrs run.1 !! "rep_call" = Some (mkReport "call" "skipped") ∧
  last (submitted (logw run.1)) =
    Some (mkRecord "test.test_login_with_valid_credentials" INFO
            (test_end_message "test_login_with_valid_credentials" "SKIPPED" (Some 1500))).
Proof. repeat split; vm_compute; reflexivity. Qed.

(** A body that is interrupted from the keyboard leaves no call report:
    the session is aborted, and the end record, written when the fixture
    is torn down, carries the status UNKNOWN. *)
Example interrupted_body_is_unknown :
  let run := runtestprotocol default_config login_test (mret tt) (mret tt)
               (raising_body (Exn KeyboardInterrupt "")) empty_world in
  run.2 = Raise (Exn KeyboardInterrupt "") ∧
  item_attrs run.1 !! "rep_call" = None ∧
  last (submitted (logw run.1)) =
    Some (mkRecord "test.test_login_with_valid_credentials" ERROR
            (test_end_message "test_login_with_valid_credentials" "UNKNOWN" (Some 1500))).
Proof. repeat split; vm_compute; reflexivity. Qed.

(** No call report is stored when a later fixture fails: the end record
    then carries the status UNKNOWN. *)
Example fixture_failure_is_unknown :
  last (submitted (logw (runtestprotocol default_config login_test
                           (λ w, (w, Raise (Exn PlaywrightError "browser closed")))
                           (mret tt) (mret tt) empty_world).1)) =
    Some (mkRecord "test.test_login_with_valid_credentials" ERROR
            (test_end_message "test_login_with_valid_credentials" "UNKNOWN" (Some 0))).
Proof. vm_compute. reflexivity. Qed.

End lifecycle_properties.

(* ===================================================================== *)
(** * Properties of the [context] fixture *)
(* ===================================================================== *)

Section context_properties.
Import Py config conftest.

(** An excerpt in the shape of the driver's registry of devices. *)
Definition iphone_12 : gmap string value :=
  <["user_agent" :=
      VStr "Mozilla/5.0 (iPhone; CPU iPhone OS 14_4 like Mac OS X) AppleWebKit/605.1.15 (KHTML, like Gecko) Version/14.0.3 Mobile/15E148 Safari/604.1"]>
    (<["viewport" := VSize 390 664]>
       (<["device_scale_factor" := VNum 3 1]>
          (<["is_mobile" := VBool true]>
             (<["has_touch" := VBool true]> ∅)))).

Definition pixel_5 : gmap string value :=
  <["user_agent" :=
      VStr "Mozilla/5.0 (Linux; Android 11; Pixel 5) AppleWebKit/537.36 (KHTML, like Gecko) Chrome/90.0.4430.91 Mobile Safari/537.36"]>
    (<["viewport" := VSize 393 727]>
       (<["device_scale_factor" := VNum 275 100]>
          (<["is_mobile" := VBool true]>
             (<["has_touch" := VBool true]> ∅)))).

Definition devices_excerpt : gmap string (gmap string value) :=
  <["iPhone 12" := iphone_12]> (<["Pixel 5" := pixel_5]> ∅).

Lemma default_viewport (environ : gmap string string) :
  default_options environ !! "viewport" = Some (VSize 1920 1080).
Proof. reflexivity. Qed.

(** C5, as stated, fails: the profile [iPad] of [Config.DEVICES] has a
    non-null override, the registry has no entry of that name, and the
    context is created with the defaults only: viewport 1920x1080 and no
    user agent. *)
Lemma context_override_not_applied :
  DEVICES (Config_with {["DEVICE" := "iPad"]} 30000)
    !! DEVICE (Config_with {["DEVICE" := "iPad"]} 30000) = Some (Some "iPad") ∧
  context_options (Config_with {["DEVICE" := "iPad"]} 30000) ∅ devices_excerpt
    = default_options ∅ ∧
  context_options (Config_with {["DEVICE" := "iPad"]} 30000) ∅ devices_excerpt
    !! "viewport" = Some (VSize 1920 1080) ∧
  context_options (Config_with {["DEVICE" := "iPad"]} 30000) ∅ devices_excerpt
    !! "user_agent" = None.
Proof. repeat split; vm_compute; reflexivity. Qed.

(** C5, amended. When the resolved device profile has a non-null override
    that names an entry of the driver's registry, the context is created
    with every setting of that entry (viewport, user agent, ...), which
    take precedence, and with the defaults for the other options.  When the
    override is null, as for [Desktop Chrome], or names no entry of the
    registry, the context is created with the defaults, whose viewport is
    1920x1080. *)
Theorem context_options_resolution (cfg : Config) (environ : gmap string string)
    (devices : gmap string (gmap string value)) :
  (∀ device_name device,
     DEVICE cfg ≠ "" →
     DEVICES cfg !! DEVICE cfg = Some (Some device_name) →
     device_name ≠ "" →
     devices !! device_name = Some device →
     (∀ k v, device !! k = Some v →
             context_options cfg environ devices !! k = Some v) ∧
     (∀ k, device !! k = None →
           context_options cfg environ devices !! k = default_options environ !! k)) ∧
  (DEVICES cfg !! DEVICE cfg = Some None →
   context_options cfg environ devices = default_options environ ∧
   context_options cfg environ devices !! "viewport" = Some (VSize 1920 1080)) ∧
  (∀ device_name,
     DEVICES cfg !! DEVICE cfg = Some (Some device_name) →
     devices !! device_name = None →
     context_options cfg environ devices = default_options environ ∧
     context_options cfg environ devices !! "viewport" = Some (VSize 1920 1080)).
Proof.
  unfold context_options. split; [|split].
  - intros device_name device Hd Hl Hn Hr. rewrite Hl.
    change (mjoin (Some (Some device_name))) with (Some device_name).
    rewrite (proj2 (truthy_Some _) Hd), (proj2 (truthy_Some _) Hn).
    cbn [andb from_option id]. rewrite Hr. split.
    + intros k v Hk. by apply lookup_union_Some_l.
    + intros k Hk. by apply lookup_union_r.
  - intros ->. change (mjoin (Some None)) with (@None string).
    cbn [truthy]. by rewrite andb_false_r.
  - intros device_name Hl Hr. rewrite Hl.
    change (mjoin (Some (Some device_name))) with (Some device_name).
    cbn [from_option id]. rewrite Hr. by destruct (_ && _).
Qed.

Lemma context_options_resolution_witness :
  DEVICE (Config_with {["DEVICE" := "iPhone 12"]} 30000) ≠ "" ∧
  DEVICES (Config_with {["DEVICE" := "iPhone 12"]} 30000)
    !! DEVICE (Config_with {["DEVICE" := "iPhone 12"]} 30000) = Some (Some "iPhone 12") ∧
  devices_excerpt !! "iPhone 12" = Some iphone_12 ∧
  iphone_12 !! "viewport" = Some (VSize 390 664) ∧
  context_options (Config_with {["DEVICE" := "iPhone 12"]} 30000) ∅ devices_excerpt
    !! "viewport" = Some (VSize 390 664).
Proof.
  split; [discriminate|]. split; [reflexivity|]. split; [reflexivity|].
  split; [reflexivity|].
  refine (proj1 (proj1 (context_options_resolution
            (Config_with {["DEVICE" := "iPhone 12"]} 30000) ∅ devices_excerpt)
            "iPhone 12" iphone_12 _ _ _ _) "viewport" (VSize 390 664) _);
    first [discriminate | reflexivity].
Defined.

(** The default profile of [Config.DEVICES]. *)
Example context_desktop_chrome :
  context_options default_config ∅ devices_excerpt !! "viewport"
  = Some (VSize 1920 1080).
Proof. vm_compute. reflexivity. Qed.

End context_properties.

(* ===================================================================== *)
(** * Properties of test_runner.py *)
(* ===================================================================== *)

Section test_runner_properties.
Import Py test_runner.

(** A host on which every directory can be made and every child process
    exits with status [c]. *)
Definition host_child_exits (c : Z) : Host :=
  mkHost "/usr/bin/python3" (λ _ _ _, Ok (mkCompleted c "" "")) (λ _, Ok tt) false (Ok []).

(** The command line without any flag, and with [--install]. *)
Definition plain_args : Args :=
  mkArgs false false None None None None None None None false false None.
Definition install_args : Args :=
  mkArgs true false None None None None None None None false false None.

Lemma ensure_directories_ok (h : Host) (n : nat) :
  (∀ d, mkdir h d = Ok tt) → ensure_directories h n = (n, Ok tt).
Proof.
  intros H. unfold ensure_directories, eval. cbn.
  unfold mbind, SE_bind. by rewrite !H.
Qed.





(** An interrupt while the test process runs: [subprocess.run] raises
    [KeyboardInterrupt] in the runner, no handler catches it, and the runner
    ends by the signal. *)
Definition host_interrupted : Host :=
  mkHost "/usr/bin/python3" (λ _ _ _, Raise (Exn KeyboardInterrupt ""))
         (λ _, Ok tt) false (Ok []).

Example runner_interrupted :
  main host_interrupted (inl plain_args) = Traceback (Exn KeyboardInterrupt "") ∧
  exit_code (main host_interrupted (inl plain_args)) = -2.
Proof. split; reflexivity. Qed.

(** The runner's status for some statuses of the test process, and for an
    installation whose first command fails. *)
Example runner_exit_codes :
  exit_code (main (host_child_exits 0) (inl plain_args)) = 0 ∧
  exit_code (main (host_child_exits 1) (inl plain_args)) = 1 ∧
  exit_code (main (host_child_exits 2) (inl plain_args)) = 1 ∧
  exit_code (main (host_child_exits 1) (inl install_args)) = 1 ∧
  exit_code (main (host_child_exits 0) (inr 2)) = 2.
Proof. repeat split; reflexivity. Qed.

End test_runner_properties.

(* ===================================================================== *)
(** * Further properties of the page objects *)
(* ===================================================================== *)

Section page_more_properties.
Import Py config logger session base_page login_page.

Lemma on_log_run {A} (m : SE LogWorld A) (w : World) :
  on_log m w = (with_logw (m (logw w)).1 w, (m (logw w)).2).
Proof. unfold on_log, lift. by destruct (m (logw w)). Qed.

(** ** One call per action, and no answer invented *)

(** The common shape of [click_element], [fill_input] and
    [wait_for_element]: one call on the page, a log line after it, and a
    handler that logs the failure and raises again. *)
Lemma guarded_call_spec {B} (a : action) (answer : list action → result B)
    (after : B → SE LogWorld unit) (on_error : exn → SE LogWorld unit)
    (w w' : World) (r : result unit) :
  try_catch (call a answer ≫= λ x, on_log (after x)) Exception
            (λ e, on_log (on_error e);; reraise e) w = (w', r) →
  history w' = history w ++ [a] ∧
  (r = Ok tt → ∃ x, answer (history w) = Ok x) ∧
  (∀ e, answer (history w) = Raise e → ∃ e', r = Raise e').
Proof.
  unfold try_catch, call, mbind, SE_bind, reraise.
  destruct (answer (history w)) as [x|e] eqn:Ea.
  - rewrite on_log_run. destruct (after x _) as [lw1 [[]|e1]]; cbn -[isinstance].
    + intros H; inversion H; subst. cbn. repeat split; eauto. intros e He; discriminate.
    + destruct (isinstance e1 Exception).
      * rewrite on_log_run. destruct (on_error e1 _) as [lw2 [[]|e2]]; cbn -[isinstance];
          intros H; inversion H; subst; cbn;
          (split; [done|split; [intros; try discriminate; eauto | intros; eauto]]).
      * intros H; inversion H; subst; cbn.
        split; [done|split; [intros; try discriminate; eauto | intros; eauto]].
  - destruct (isinstance e Exception).
    + rewrite on_log_run. destruct (on_error e _) as [lw2 [[]|e2]]; cbn -[isinstance];
        intros H; inversion H; subst; cbn;
        (split; [done|split; [intros; try discriminate; eauto | intros; eauto]]).
    + intros H; inversion H; subst; cbn.
      split; [done|split; [intros; try discriminate; eauto | intros; eauto]].
Qed.

Lemma log_then (name : string) (level : Z) (msg : message) {A} (k : SE World A)
    (w : World) :
  (on_log (log name level msg);; k) w = k (with_logw (log name level msg (logw w)).1 w).
Proof.
  unfold mbind, SE_bind. rewrite on_log_run.
  by destruct (log_completes name level msg (logw w)) as [lw' ->].
Qed.

Lemma debug_then (name : string) (msg : message) {A} (k : SE World A) (w : World) :
  (on_log (debug name msg);; k) w = k (with_logw (debug name msg (logw w)).1 w).
Proof. apply log_then. Qed.

(** [click_element], [fill_input] and [get_text] make exactly one call on
    the page, whether they return or raise: no call is repeated and none is
    skipped.  They return normally only if the driver answered the call
    without error, [get_text] with the very text the driver gave; and when
    the driver raises, they raise. *)
Theorem page_actions_make_one_call (self : BasePage) (selector text : string)
    (w : World) :
  (history (click_element self selector w).1 = history w ++ [Click selector] ∧
   ((click_element self selector w).2 = Ok tt →
    click (page self) (history w) selector = Ok tt) ∧
   (raises (click (page self) (history w) selector) = true →
    raises (click_element self selector w).2 = true)) ∧
  (history (fill_input self selector text w).1 = history w ++ [Fill selector text] ∧
   ((fill_input self selector text w).2 = Ok tt →
    fill (page self) (history w) selector text = Ok tt) ∧
   (raises (fill (page self) (history w) selector text) = true →
    raises (fill_input self selector text w).2 = true)) ∧
  (history (get_text self selector w).1 = history w ++ [TextContent selector] ∧
   (∀ t, (get_text self selector w).2 = Ok t →
    text_content (page self) (history w) selector = Ok t) ∧
   (raises (text_content (page self) (history w) selector) = true →
    raises (get_text self selector w).2 = true)).
Proof.
  split; [|split].
  - unfold click_element. rewrite debug_then.
    match goal with |- context [try_catch ?b ?c ?h ?w0] =>
      destruct (try_catch b c h w0) as [w' r] eqn:E end.
    apply guarded_call_spec in E as (Hh & Hok & Herr). cbn in *.
    split; [done|]. split.
    + intros ->. destruct (Hok eq_refl) as [[] Hx]. done.
    + destruct (click _ _ _) as [|e]; [discriminate|]. intros _.
      by destruct (Herr e eq_refl) as [e' ->].
  - unfold fill_input. rewrite debug_then.
    match goal with |- context [try_catch ?b ?c ?h ?w0] =>
      destruct (try_catch b c h w0) as [w' r] eqn:E end.
    apply guarded_call_spec in E as (Hh & Hok & Herr). cbn in *.
    split; [done|]. split.
    + intros ->. destruct (Hok eq_refl) as [[] Hx]. done.
    + destruct (fill _ _ _ _) as [|e]; [discriminate|]. intros _.
      by destruct (Herr e eq_refl) as [e' ->].
  - unfold get_text. rewrite debug_then.
    unfold try_catch, call, mbind, SE_bind, mret, SE_ret, reraise. cbn [history with_logw].
    destruct (text_content (page self) (history w) selector) as [t|e] eqn:Ea.
    + rewrite on_log_run. destruct (log_action _ _ _ _ _) as [lw1 [[]|e1]]; cbn -[isinstance].
      * repeat split; intros; try done; congruence.
      * destruct (isinstance e1 Exception); [|cbn; repeat split; intros; done].
        rewrite on_log_run. destruct (log_error _ _ _ _ _) as [lw2 [[]|e2]]; cbn -[isinstance];
          repeat split; intros; done.
    + destruct (isinstance e Exception); [|cbn; repeat split; intros; done].
      rewrite on_log_run. destruct (log_error _ _ _ _ _) as [lw2 [[]|e2]]; cbn -[isinstance];
        repeat split; intros; done.
Qed.

(** ** A failed action: logged, then raised again *)

Lemma get_test_logger_submitted (cfg : Config) (test_name : option string)
    (lw lw1 : LogWorld) (lg : string) :
  get_test_logger cfg test_name lw = (lw1, Ok lg) →
  submitted lw1 = submitted lw ∧
  lg = if truthy test_name then "test." +:+ default "" test_name else "test".
Proof.
  unfold get_test_logger. intros Hg.
  apply TestLogger_completes in Hg as (-> & ? & ? & ? & ? & ? & ? & ? & ?). done.
Qed.

Lemma log_error_submits (cfg : Config) (error_message : string) (e : exn)
    (lw lw1 : LogWorld) (lg : string) :
  get_test_logger cfg None lw = (lw1, Ok lg) →
  ∃ lw2,
    log_error cfg error_message (Some e) None lw = (lw2, Ok tt) ∧
    submitted lw2 =
      submitted lw ++
      [mkRecord "test" ERROR [Text "💥 Error: "; Text error_message];
       mkRecord "test" ERROR [Text "Exception details: "; Text (exn_msg e)];
       mkRecord "test" DEBUG [Text "Exception type: "; Text (class_name (exn_cls e))]].
Proof.
  intros Hg. unfold log_error, mbind, SE_bind. rewrite Hg.
  apply get_test_logger_submitted in Hg as [Hs ->]. cbn [truthy].
  unfold error, debug.
  destruct (log_submits "test" ERROR [Text "💥 Error: "; Text error_message] lw1)
    as (la & -> & Ha).
  destruct (log_submits "test" ERROR [Text "Exception details: "; Text (exn_msg e)] la)
    as (lb & -> & Hb).
  destruct (log_submits "test" DEBUG
              [Text "Exception type: "; Text (class_name (exn_cls e))] lb)
    as (lc & -> & Hc).
  exists lc. split; [done|].
  rewrite Hc, Hb, Ha, Hs, <- !app_assoc. done.
Qed.

Lemma log_error_raises (cfg : Config) (error_message : string) (exception : option exn)
    (lw lw1 : LogWorld) (e2 : exn) :
  get_test_logger cfg None lw = (lw1, Raise e2) →
  log_error cfg error_message exception None lw = (lw1, Raise e2).
Proof. intros Hg. unfold log_error, mbind, SE_bind. by rewrite Hg. Qed.

(** When the driver refuses a click with an error [e], [click_element]
    reports it and raises the same [e] again, having handed four records to
    the logging system: its own announcement, two ERROR records of the
    session logger with the selector and the driver's message, and a DEBUG
    record with the class of the error.  This needs the session logger to be
    set up anew inside the handler: where that set-up fails, the error that
    reaches the caller is the logger's, not the driver's. *)
Theorem click_failure_is_logged_and_raised_again (self : BasePage) (selector : string)
    (w : World) (e : exn) (lw2 : LogWorld) (r : result string) :
  click (page self) (history w) selector = Raise e →
  isinstance e Exception = true →
  get_test_logger (config self) None
    (debug (logger self) [Text "🖱️ Clicking element: "; Text selector] (logw w)).1
    = (lw2, r) →
  (∀ lg, r = Ok lg →
     (click_element self selector w).2 = Raise e ∧
     submitted (logw (click_element self selector w).1) =
       submitted (logw w) ++
       [mkRecord (logger self) DEBUG [Text "🖱️ Clicking element: "; Text selector];
        mkRecord "test" ERROR
          [Text "💥 Error: "; Text ("Failed to click element: " +:+ selector)];
        mkRecord "test" ERROR [Text "Exception details: "; Text (exn_msg e)];
        mkRecord "test" DEBUG [Text "Exception type: "; Text (class_name (exn_cls e))]]) ∧
  (∀ e2, r = Raise e2 → (click_element self selector w).2 = Raise e2).
Proof.
  intros Hc He Hg.
  unfold click_element. rewrite debug_then.
  unfold try_catch, call, mbind, SE_bind, reraise. cbn [history with_logw].
  rewrite Hc, He, on_log_run. cbn [logw with_logw with_history].
  assert (Hd : submitted (debug (logger self)
                 [Text "🖱️ Clicking element: "; Text selector] (logw w)).1
               = submitted (logw w) ++
                 [mkRecord (logger self) DEBUG
                    [Text "🖱️ Clicking element: "; Text selector]]).
  { unfold debug. destruct (log_submits (logger self) DEBUG
      [Text "🖱️ Clicking element: "; Text selector] (logw w)) as (l & -> & Hl). done. }
  split.
  - intros lg ->.
    destruct (log_error_submits (config self) ("Failed to click element: " +:+ selector)
                e _ _ _ Hg) as (lw3 & -> & Hs).
    cbn. split; [done|]. rewrite Hs, Hd, <- app_assoc. done.
  - intros e2 ->.
    rewrite (log_error_raises _ _ _ _ _ _ Hg). done.
Qed.

(** A page handle whose buttons do not react: a click runs into its
    timeout. *)
Definition stuck_page : Page :=
  mkPage (λ _ _, Ok tt) (λ _ _, Ok tt)
         (λ _ _, Raise (Exn PlaywrightTimeoutError "Timeout 30000ms exceeded."))
         (λ _ _ _, Ok tt) (λ _ _, Ok None) (λ _ _, Ok true)
         (λ _ _ _, Ok tt)
         (λ _ _, Raise (Exn PlaywrightError "Target page, context or browser has been closed"))
         (λ _, Ok "Swag Labs") (λ _, "https://www.saucedemo.com/").

Definition stuck_login_page : BasePage :=
  mkBasePage stuck_page default_config "test.LoginPage".

Lemma click_failure_is_logged_and_raised_again_witness :
  click stuck_page [] "#login-button"
    = Raise (Exn PlaywrightTimeoutError "Timeout 30000ms exceeded.") ∧
  (click_element stuck_login_page "#login-button" empty_world).2
    = Raise (Exn PlaywrightTimeoutError "Timeout 30000ms exceeded.") ∧
  length (submitted (logw (click_element stuck_login_page "#login-button"
                                         empty_world).1)) = 4%nat.
Proof.
  split; [reflexivity|].
  pose proof (proj1 (click_failure_is_logged_and_raised_again
    stuck_login_page "#login-button" empty_world
    (Exn PlaywrightTimeoutError "Timeout 30000ms exceeded.")
    (get_test_logger default_config None
       (debug "test.LoginPage" [Text "🖱️ Clicking element: "; Text "#login-button"]
              empty_logworld).1).1
    (Ok "test") eq_refl eq_refl ltac:(vm_compute; reflexivity)) "test" eq_refl) as [H1 H2].
  split; [exact H1|]. rewrite H2. reflexivity.
Defined.

(** ** A screenshot that cannot be taken does not stop the test *)

(** [take_screenshot] keeps a failure of the driver to itself: when the
    screenshot call raises an error [e] and the session logger can be set
    up, the method returns normally; the error is only reported, in two ERROR
    records and a DEBUG record of the session logger, and no record says that
    a screenshot was saved. *)
Theorem take_screenshot_swallows_failure (self : BasePage) (name : string)
    (w : World) (e : exn) (lw2 : LogWorld) (lg : string) :
  screenshot (page self) (history w) ("screenshots/" +:+ name +:+ ".png") = Raise e →
  isinstance e Exception = true →
  get_test_logger (config self) None
    (info (logger self)
          [Text "📸 Taking screenshot: "; Text ("screenshots/" +:+ name +:+ ".png")]
          (logw w)).1
    = (lw2, Ok lg) →
  (take_screenshot self name w).2 = Ok tt ∧
  history (take_screenshot self name w).1 =
    history w ++ [Screenshot ("screenshots/" +:+ name +:+ ".png")] ∧
  submitted (logw (take_screenshot self name w).1) =
    submitted (logw w) ++
    [mkRecord (logger self) INFO
       [Text "📸 Taking screenshot: "; Text ("screenshots/" +:+ name +:+ ".png")];
     mkRecord "test" ERROR
       [Text "💥 Error: ";
        Text ("Failed to take screenshot: " +:+ ("screenshots/" +:+ name +:+ ".png"))];
     mkRecord "test" ERROR [Text "Exception details: "; Text (exn_msg e)];
     mkRecord "test" DEBUG [Text "Exception type: "; Text (class_name (exn_cls e))]].
Proof.
  intros Hc He Hg.
  unfold take_screenshot.
  set (path := "screenshots/" +:+ name +:+ ".png") in *.
  unfold info in *. rewrite log_then.
  destruct (log_submits (logger self) INFO [Text "📸 Taking screenshot: "; Text path]
              (logw w)) as (l1 & Hl1 & Hs1).
  rewrite Hl1 in *. cbn [fst snd] in *.
  unfold try_catch, call, mbind, SE_bind. cbn [history with_logw].
  rewrite Hc, He, on_log_run. cbn [logw with_logw with_history].
  destruct (log_error_submits (config self) ("Failed to take screenshot: " +:+ path)
              e _ _ _ Hg) as (lw3 & -> & Hs).
  cbn. split; [done|]. split; [done|]. rewrite Hs, Hs1, <- app_assoc. done.
Qed.

Lemma take_screenshot_swallows_failure_witness :
  screenshot stuck_page [] "screenshots/login.png"
    = Raise (Exn PlaywrightError "Target page, context or browser has been closed") ∧
  (take_screenshot stuck_login_page "login" empty_world).2 = Ok tt.
Proof.
  split; [reflexivity|].
  refine (proj1 (take_screenshot_swallows_failure stuck_login_page "login" empty_world
    (Exn PlaywrightError "Target page, context or browser has been closed")
    (get_test_logger default_config None
       (info "test.LoginPage"
             [Text "📸 Taking screenshot: "; Text "screenshots/login.png"]
             empty_logworld).1).1
    "test" _ _ _)); vm_compute; reflexivity.
Defined.

(** ** [login]: five calls in order, stopped by the first failure *)

(** The driver answered the call [a], made after the calls [h], without an
    error. *)
Definition answered (pg : Page) (h : list action) (a : action) : bool :=
  match a with
  | Goto target => negb (raises (goto pg h target))
  | WaitForLoadState state => negb (raises (wait_for_load_state pg h state))
  | Click selector => negb (raises (click pg h selector))
  | Fill selector text => negb (raises (fill pg h selector text))
  | TextContent selector => negb (raises (text_content pg h selector))
  | IsVisible selector => negb (raises (is_visible pg h selector))
  | WaitForSelector selector timeout => negb (raises (wait_for_selector pg h selector timeout))
  | Screenshot path => negb (raises (screenshot pg h path))
  | Title => negb (raises (title pg h))
  end.

(** The statement [m] makes the calls [l] in order and stops at the first
    one it fails on: the calls made are the first [k] of [l], every one of
    them but the last was answered by the driver, and [m] returns only when
    all of [l] were made and answered. *)
Definition stops_at_failure (pg : Page) (l : list action) (m : SE World unit) : Prop :=
  ∀ w w' r, m w = (w', r) →
    ∃ k, (k ≤ length l)%nat ∧ (l ≠ [] → 1 ≤ k)%nat ∧
         history w' = history w ++ take k l ∧
         (∀ i a, l !! i = Some a → (S i < k)%nat →
                 answered pg (history w ++ take i l) a = true) ∧
         (r = Ok tt →
          k = length l ∧
          ∀ i a, l !! i = Some a → answered pg (history w ++ take i l) a = true).

Lemma stops_at_failure_one (pg : Page) (a : action) (m : SE World unit) :
  (∀ w w' r, m w = (w', r) →
     history w' = history w ++ [a] ∧ (r = Ok tt → answered pg (history w) a = true)) →
  stops_at_failure pg [a] m.
Proof.
  intros Hm w w' r E. destruct (Hm _ _ _ E) as [Hh Hok].
  exists 1%nat. cbn. repeat split; try done.
  - intros i b _ Hi. lia.
  - intros i b Hi. destruct i as [|i]; cbn in Hi; [|done].
    injection Hi as <-. cbn. rewrite app_nil_r. by apply Hok.
Qed.

Lemma stops_at_failure_seq (pg : Page) (l1 l2 : list action) (m1 m2 : SE World unit) :
  l1 ≠ [] →
  stops_at_failure pg l1 m1 → stops_at_failure pg l2 m2 →
  stops_at_failure pg (l1 ++ l2) (m1;; m2).
Proof.
  intros Hne H1 H2 w w' r. unfold mbind, SE_bind.
  destruct (m1 w) as [w1 r1] eqn:E1.
  destruct (H1 _ _ _ E1) as (k1 & Hk1 & Hpos1 & Hh1 & Hbefore1 & Hok1).
  destruct r1 as [[]|e1].
  - destruct (Hok1 eq_refl) as [-> Ha1].
    intros E2. destruct (H2 _ _ _ E2) as (k2 & Hk2 & _ & Hh2 & Hbefore2 & Hok2).
    rewrite firstn_all in Hh1.
    assert (Hl2 : ∀ i a, (l1 ++ l2) !! i = Some a → ¬ (i < length l1)%nat →
              l2 !! (i - length l1)%nat = Some a ∧
              history w ++ take i (l1 ++ l2)
              = history w1 ++ take (i - length l1) l2).
    { intros i a Hi Hge. rewrite lookup_app_r in Hi by lia. split; [done|].
      replace i with (length l1 + (i - length l1))%nat at 1 by lia.
      by rewrite take_app_add', app_assoc, <- Hh1. }
    assert (Hl1 : ∀ i a, (l1 ++ l2) !! i = Some a → (i < length l1)%nat →
              answered pg (history w ++ take i (l1 ++ l2)) a = true).
    { intros i a Hi Hlt. rewrite lookup_app_l in Hi by done.
      rewrite take_app_le by lia. by apply Ha1. }
    exists (length l1 + k2)%nat. rewrite length_app. split; [lia|].
    split; [intros _; specialize (Hpos1 Hne); lia|].
    split; [rewrite Hh2, Hh1, take_app_add', <- app_assoc; done|]. split.
    + intros i a Hi Hlt. destruct (decide (i < length l1)%nat) as [Hin|Hge].
      * by apply Hl1.
      * destruct (Hl2 _ _ Hi Hge) as [Hi2 ->]. apply Hbefore2; [done|lia].
    + intros ->. destruct (Hok2 eq_refl) as [-> Ha2]. split; [done|].
      intros i a Hi. destruct (decide (i < length l1)%nat) as [Hin|Hge].
      * by apply Hl1.
      * destruct (Hl2 _ _ Hi Hge) as [Hi2 ->]. by apply Ha2.
  - intros E; inversion E; subst. exists k1. rewrite length_app.
    split; [lia|]. split; [by intros _; apply Hpos1|].
    split; [by rewrite take_app_le|]. split; [|discriminate].
    intros i a Hi Hlt. rewrite lookup_app_l in Hi by lia.
    rewrite take_app_le by lia. by apply Hbefore1.
Qed.

Lemma guarded_call_stops (pg : Page) (a : action) (answer : list action → result unit)
    (after : SE LogWorld unit) (on_error : exn → SE LogWorld unit)
    (name : string) (msg : message) :
  (∀ h, answered pg h a = negb (raises (answer h))) →
  stops_at_failure pg [a]
    (on_log (debug name msg);;
     try_catch (call a answer;; on_log after) Exception
               (λ e, on_log (on_error e);; reraise e)).
Proof.
  intros Ha. apply stops_at_failure_one. intros w w' r. rewrite debug_then.
  intros E. apply (guarded_call_spec a answer (λ _, after) on_error) in E
    as (Hh & Hok & _). cbn in *.
  split; [done|]. intros Hr. destruct (Hok Hr) as [x Hx]. by rewrite Ha, Hx.
Qed.

Lemma login_stops (self : BasePage) (email password : option string) :
  stops_at_failure (page self)
    [WaitForSelector username_input (TIMEOUT (config self));
     Fill username_input (or_ email (TEST_USER (config self)));
     WaitForSelector password_input (TIMEOUT (config self));
     Fill password_input (or_ password (TEST_PASSWORD (config self)));
     Click login_button]
    (login self email password).
Proof.
  unfold login, enter_username, enter_password, click_login_button,
    wait_for_element, fill_input, click_element.
  apply (stops_at_failure_seq _ [_; _] [_; _; _]); [done| |].
  { apply (stops_at_failure_seq _ [_] [_]); [done| |];
      apply guarded_call_stops; done. }
  apply (stops_at_failure_seq _ [_; _] [_]); [done| |].
  { apply (stops_at_failure_seq _ [_] [_]); [done| |];
      apply guarded_call_stops; done. }
  apply guarded_call_stops; done.
Qed.

(** [login] works through five calls on the page, in this order: wait for
    the user name field, fill it, wait for the password field, fill it,
    click the button; both waits with the configured timeout.  A call the
    driver does not answer ends the sequence: the calls made are the first
    [k] of the five, with [k] at least one, and every call before the last
    one made was answered without error.  [login] returns only after all
    five, each answered, and raises when it stops earlier.  So the button is
    clicked only after both fields were found and filled: when the click is
    among the calls, the four calls before it were answered. *)
Theorem login_stops_at_first_failure (self : BasePage) (email password : option string)
    (w : World) :
  let calls :=
    [WaitForSelector username_input (TIMEOUT (config self));
     Fill username_input (or_ email (TEST_USER (config self)));
     WaitForSelector password_input (TIMEOUT (config self));
     Fill password_input (or_ password (TEST_PASSWORD (config self)));
     Click login_button] in
  ∃ k, (1 ≤ k ≤ 5)%nat ∧
    history (login self email password w).1 = history w ++ take k calls ∧
    (∀ i a, calls !! i = Some a → (S i < k)%nat →
            answered (page self) (history w ++ take i calls) a = true) ∧
    (∀ i a, calls !! i = Some a → (i < k)%nat →
            answered (page self) (history w ++ take i calls) a = false →
            S i = k ∧ raises (login self email password w).2 = true) ∧
    ((login self email password w).2 = Ok tt →
     k = 5%nat ∧
     ∀ i a, calls !! i = Some a →
            answered (page self) (history w ++ take i calls) a = true) ∧
    ((k < 5)%nat → raises (login self email password w).2 = true) ∧
    (Click login_button ∈ drop (length (history w))
                               (history (login self email password w).1) →
     k = 5%nat ∧
     ∀ i a, calls !! i = Some a → (i < 4)%nat →
            answered (page self) (history w ++ take i calls) a = true).
Proof.
  intros calls.
  destruct (login self email password w) as [w' r] eqn:E.
  destruct (login_stops self email password _ _ _ E)
    as (k & Hk & Hpos & Hh & Hbefore & Hok).
  fold calls in Hh, Hbefore, Hok. cbn [length] in Hk. cbn [fst snd].
  assert (Hclick : Click login_button ∈ drop (length (history w)) (history w') →
                   k = 5%nat).
  { rewrite Hh, drop_app_length.
    do 5 (destruct k as [|k];
      [unfold calls; cbn [take firstn]; rewrite ?elem_of_cons, elem_of_nil; intros Hin;
       repeat (destruct Hin as [Hin|Hin]; [discriminate Hin|]); done|]).
    intros _. lia. }
  exists k. split; [split; [by apply Hpos|done]|].
  split; [done|]. split; [done|]. split; [|split; [done|split; [|]]].
  - intros i a Hi Hlt Hna.
    assert (Hlast : S i = k).
    { destruct (decide (S i < k)%nat) as [Hb|Hb]; [|lia].
      rewrite (Hbefore _ _ Hi Hb) in Hna. discriminate Hna. }
    split; [done|]. destruct r as [[]|e]; [|done].
    destruct (Hok eq_refl) as [_ Hall]. rewrite (Hall _ _ Hi) in Hna. discriminate Hna.
  - intros Hlt. destruct r as [[]|e]; [|done]. destruct (Hok eq_refl) as [Hk5 _].
    rewrite Hk5 in Hlt. cbn in Hlt. lia.
  - intros Hin. specialize (Hclick Hin). split; [done|].
    intros i a Hi Hlt. apply Hbefore; [done|lia].
Qed.

(** A stuck button: all five calls are made and [login] raises. *)
Example login_on_stuck_page :
  history (login stuck_login_page None None empty_world).1
    = [WaitForSelector "#user-name" 30000; Fill "#user-name" "standard_user";
       WaitForSelector "#password" 30000; Fill "#password" "secret_sauce";
       Click "#login-button"] ∧
  (login stuck_login_page None None empty_world).2
    = Raise (Exn PlaywrightTimeoutError "Timeout 30000ms exceeded.").
Proof. split; vm_compute; reflexivity. Qed.

(** ** [is_login_successful]: decided by the address alone *)

Lemma append_nil_l (t : string) : "" +:+ t = t.
Proof. reflexivity. Qed.

Lemma append_cons (c : ascii) (s t : string) : String c s +:+ t = String c (s +:+ t).
Proof. reflexivity. Qed.

Lemma prefix_spec (needle s : string) :
  String.prefix needle s = true ↔ ∃ post, s = needle +:+ post.
Proof.
  revert s. induction needle as [|c needle IH]; intros s.
  - split; [intros _; by exists s|intros _; by destruct s].
  - destruct s as [|d s]; cbn [String.prefix].
    + split; [done|]. intros [post H]. rewrite append_cons in H. discriminate.
    + destruct (Ascii.ascii_dec c d) as [->|Hne].
      * rewrite IH. split; intros [post H]; exists post.
        -- by rewrite append_cons, H.
        -- rewrite append_cons in H. by injection H.
      * split; [done|]. intros [post H]. rewrite append_cons in H.
        injection H as H1 _. by destruct Hne.
Qed.

(** [contains needle s] is Python's [needle in s]: [needle] occurs in [s]
    as a run of consecutive characters. *)
Lemma contains_spec (needle s : string) :
  contains needle s = true ↔ ∃ pre post, s = pre +:+ needle +:+ post.
Proof.
  induction s as [|d s IH]; cbn [contains]; rewrite orb_true_iff, prefix_spec.
  - split.
    + intros [[post H]|H]; [|done]. by exists "", post.
    + intros (pre & post & H). left. destruct pre as [|c pre].
      * by exists post.
      * rewrite append_cons in H. discriminate.
  - rewrite IH. split.
    + intros [[post H]|(pre & post & H)].
      * by exists "", post.
      * exists (String d pre), post. by rewrite append_cons, H.
    + intros (pre & post & H). destruct pre as [|c pre].
      * left. by exists post.
      * right. rewrite append_cons in H. injection H as _ H. by exists pre, post.
Qed.

(** [is_login_successful] never raises, as long as the errors of the driver
    derive from [Exception], and makes one call, the visibility check of the
    title.  Its answer does not depend on that check: it is [True] exactly
    when the address of the page after the check has [/inventory.html]
    somewhere in it. *)
Theorem is_login_successful_by_address (self : BasePage) (w : World) :
  (∀ e, is_visible (page self) (history w) product_title = Raise e →
        isinstance e Exception = true) →
  ∃ b,
    (is_login_successful self w).2 = Ok b ∧
    history (is_login_successful self w).1 = history w ++ [IsVisible product_title] ∧
    (b = true ↔
     ∃ pre post,
       url (page self) (history w ++ [IsVisible product_title])
       = pre +:+ "/inventory.html" +:+ post).
Proof.
  intros Hexc.
  destruct (is_element_visible_answer self product_title w Hexc) as (w' & Hv & Hh).
  unfold is_login_successful, mbind, SE_bind, gets, mret, SE_ret. rewrite Hv. cbn.
  rewrite Hh. eexists. split; [reflexivity|]. split; [reflexivity|].
  apply contains_spec.
Qed.

(** A page that shows no title and sits at the inventory address. *)
Definition inventory_page : Page :=
  mkPage (λ _ _, Ok tt) (λ _ _, Ok tt) (λ _ _, Ok tt) (λ _ _ _, Ok tt)
         (λ _ _, Ok None) (λ _ _, Ok false)
         (λ _ _ _, Ok tt) (λ _ _, Ok tt) (λ _, Ok "")
         (λ _, "https://www.saucedemo.com/inventory.html").

Lemma is_login_successful_by_address_witness :
  is_visible inventory_page [] product_title = Ok false ∧
  (is_login_successful (mkBasePage inventory_page default_config "test.LoginPage")
                       empty_world).2 = Ok true.
Proof.
  split; [reflexivity|].
  destruct (is_login_successful_by_address
              (mkBasePage inventory_page default_config "test.LoginPage") empty_world)
    as (b & Hb & _ & Hiff).
  { intros e He. discriminate He. }
  rewrite Hb. f_equal. apply Hiff.
  exists "https://www.saucedemo.com", "". reflexivity.
Defined.

(** ** [verify_login_page_loaded]: nothing is required of hidden inputs *)

Lemma is_element_visible_hidden (self : BasePage) (selector : string) (w : World) :
  is_visible (page self) (history w) selector = Ok false →
  ∃ w', is_element_visible self selector w = (w', Ok false) ∧
        history w' = history w ++ [IsVisible selector].
Proof.
  intros Hv.
  destruct (is_element_visible_answer self selector w) as (w' & Ha & Hh).
  { intros e He. rewrite Hv in He. discriminate He. }
  rewrite Hv in Ha. eauto.
Qed.

(** [verify_login_page_loaded] asserts that an input is visible only after
    the page has reported it visible.  So when the address is the
    configured one and the page reports neither the user name field nor the
    password field visible, the check passes, whatever the visibility
    assertions would have said: a page without its login form is accepted. *)
Theorem verify_login_page_loaded_without_form (self : BasePage) (ex : Expect)
    (w : World) :
  to_have_url ex (history w) (BASE_URL (config self)) = Ok tt →
  is_visible (page self) (history w) username_input = Ok false →
  is_visible (page self) (history w ++ [IsVisible username_input]) password_input
    = Ok false →
  (verify_login_page_loaded self ex w).2 = Ok tt ∧
  history (verify_login_page_loaded self ex w).1
    = history w ++ [IsVisible username_input; IsVisible password_input].
Proof.
  intros Hu H1 H2.
  unfold verify_login_page_loaded, expect, mbind, SE_bind, mret, SE_ret.
  rewrite Hu.
  destruct (is_element_visible_hidden self username_input w H1) as (w1 & -> & Hh1).
  rewrite <- Hh1 in H2.
  destruct (is_element_visible_hidden self password_input w1 H2) as (w2 & -> & Hh2).
  cbn. split; [done|]. rewrite Hh2, Hh1, <- app_assoc. done.
Qed.

(** Assertions that hold for the address and fail for every element. *)
Definition no_element : Expect :=
  mkExpect (λ _ _, Ok tt)
           (λ _ selector, Raise (Exn AssertionError ("Locator expected to be visible: "
                                                      +:+ selector))).

Lemma verify_login_page_loaded_without_form_witness :
  to_be_visible no_element [] username_input
    = Raise (Exn AssertionError "Locator expected to be visible: #user-name") ∧
  (verify_login_page_loaded (mkBasePage blank_page default_config "test.LoginPage")
                            no_element empty_world).2 = Ok tt.
Proof.
  split; [reflexivity|].
  refine (proj1 (verify_login_page_loaded_without_form
                   (mkBasePage blank_page default_config "test.LoginPage")
                   no_element empty_world _ _ _)); reflexivity.
Defined.

(** ** [open]: a failed navigation is not reported *)

Lemma or_same (s : string) : or_ (Some s) s = s.
Proof. unfold or_, truthy. by destruct (negb _). Qed.

(** [open] goes to the configured address and then waits for the network
    to be idle.  When the driver refuses the navigation with an error [e],
    [open] raises [e] after that single call: the page is not waited for,
    and, unlike a failed click, the failure leaves no record of its own;
    the only record is the announcement of the navigation. *)
Theorem open_navigation_failure (self : BasePage) (w : World) (e : exn) :
  goto (page self) (history w) (BASE_URL (config self)) = Raise e →
  (open self w).2 = Raise e ∧
  history (open self w).1 = history w ++ [Goto (BASE_URL (config self))] ∧
  submitted (logw (open self w).1) =
    submitted (logw w) ++
    [mkRecord (logger self) INFO
       [Text "🌐 Navigating to: "; Text (BASE_URL (config self))]].
Proof.
  intros Hg. unfold open, navigate_to. rewrite or_same.
  unfold info, call, mbind, SE_bind. rewrite on_log_run.
  destruct (log_submits (logger self) INFO
              [Text "🌐 Navigating to: "; Text (BASE_URL (config self))] (logw w))
    as (l1 & Hl1 & Hs1).
  rewrite Hl1. cbn [history with_logw fst snd].
  rewrite Hg. cbn. by rewrite Hs1.
Qed.

(** A page handle with no connection. *)
Definition offline_page : Page :=
  mkPage (λ _ _, Raise (Exn PlaywrightError "net::ERR_INTERNET_DISCONNECTED"))
         (λ _ _, Ok tt) (λ _ _, Ok tt) (λ _ _ _, Ok tt)
         (λ _ _, Ok None) (λ _ _, Ok false)
         (λ _ _ _, Ok tt) (λ _ _, Ok tt) (λ _, Ok "") (λ _, "about:blank").

Lemma open_navigation_failure_witness :
  (open (mkBasePage offline_page default_config "test.LoginPage") empty_world).2
    = Raise (Exn PlaywrightError "net::ERR_INTERNET_DISCONNECTED") ∧
  length (submitted (logw (open (mkBasePage offline_page default_config "test.LoginPage")
                                empty_world).1)) = 1%nat.
Proof.
  pose proof (open_navigation_failure
                (mkBasePage offline_page default_config "test.LoginPage") empty_world
                (Exn PlaywrightError "net::ERR_INTERNET_DISCONNECTED") eq_refl)
    as (H1 & _ & H3).
  split; [exact H1|]. rewrite H3. reflexivity.
Defined.

End page_more_properties.

(* ===================================================================== *)
(** * Further properties of the test lifecycle hooks *)
(* ===================================================================== *)

Section lifecycle_more_properties.
Import Py config logger session conftest pytest.

(** ** The statuses that are logged *)

(** Whatever the outcome of the call phase, once the report hook has
    stored the report the framework built for it, the fixture reads one of
    three statuses from the item: PASSED when the body returned, SKIPPED when
    it raised the skip or the xfail signal, FAILED for every other
    exception.  The status ERROR, the fourth branch of the fixture, is never
    chosen for such a report, nor is UNKNOWN. *)
Theorem call_status_is_one_of_three (r : result unit) (w : World) :
  let status := status_of (item_attrs (pytest_runtest_makereport (report_of "call" r) w).1) in
  status = match r with
           | Ok _ => "PASSED"
           | Raise e => if isinstance e Skipped || isinstance e XFailed
                        then "SKIPPED" else "FAILED"
           end ∧
  status ≠ "ERROR" ∧ status ≠ "UNKNOWN" ∧
  (end_level status = INFO ↔ status ≠ "FAILED").
Proof.
  cbn zeta. unfold pytest_runtest_makereport, modify, status_of.
  cbn -[isinstance report_of].
  change ("rep_" +:+ "call") with "rep_call". rewrite lookup_insert_eq.
  unfold report_of.
  destruct r as [[]|e]; [|destruct (isinstance e Skipped || isinstance e XFailed)];
    cbn; (split; [reflexivity|]); (split; [discriminate|]); (split; [discriminate|]);
    vm_compute; split; intros H; first [discriminate H | reflexivity | by destruct H | done].
Qed.

(** ** A fixture that fails *)

(** After a failed fixture the protocol goes on with the teardown phase,
    whatever the body is. *)
Lemma fixture_failure_skips_body (cfg : Config) (node : Item)
    (fixtures finalizers body : SE World unit) (w w1 w2 : World)
    (start_time : Z) (e : exn) :
  log_test_execution_setup cfg node (with_item_attrs ∅ w) = (w1, Ok start_time) →
  fixtures w1 = (w2, Raise e) →
  interrupts e = false →
  runtestprotocol cfg node fixtures finalizers body w =
    call_and_report "teardown"
      (teardown_phase finalizers (log_test_execution_teardown cfg node start_time))
      (reported "setup" (Raise e) w2).
Proof.
  intros Hsetup Hfix Hint.
  match goal with |- _ = ?R => remember R as rhs eqn:Hrhs end.
  unfold runtestprotocol. rewrite Hsetup.
  unfold call_and_report. unfold mbind, SE_bind, gets. rewrite Hfix.
  assert (Hrp : report_phase "setup" (Raise e) w2
                = pytest_runtest_makereport (report_of "setup" (Raise e)) w2).
  { unfold report_phase. by rewrite Hint. }
  rewrite Hrp. unfold reported, call_and_report in Hrhs.
  destruct (pytest_runtest_makereport (report_of "setup" (Raise e)) w2)
    as [w2' r2] eqn:E2.
  assert (r2 = Ok tt) as -> by (by inversion E2).
  assert (Hs : passed <$> item_attrs w2' !! "rep_setup" = Some false).
  { inversion E2; subst. cbn.
    change ("rep_" +:+ "setup") with "rep_setup". rewrite lookup_insert_eq. cbn.
    unfold passed, report_of. cbn [outcome].
    by destruct (isinstance e Skipped || isinstance e XFailed). }
  rewrite Hs, bool_decide_eq_false_2 by discriminate. by subst rhs.
Qed.

(** When a fixture set up after [log_test_execution] raises (an error, or
    the skip signal), the body of the test is not run and no call report is
    stored; what follows the [yield] of [log_test_execution] still runs,
    and, the logger of the test being configured there, the last record
    handed to a logger is the end record with status UNKNOWN, at level
    ERROR: a test skipped by a fixture is logged as an error.  (The other
    finalizers leave the item without a call report.) *)
Theorem fixture_failure_is_logged_unknown (cfg : Config) (node : Item)
    (fixtures finalizers body : SE World unit) (w w1 w2 w4 : World)
    (start_time : Z) (e : exn) (r4 : result unit) (lw : LogWorld) (lg : string) :
  log_test_execution_setup cfg node (with_item_attrs ∅ w) = (w1, Ok start_time) →
  fixtures w1 = (w2, Raise e) →
  interrupts e = false →
  finalizers (reported "setup" (Raise e) w2) = (w4, r4) →
  item_attrs w4 !! "rep_call" = None →
  get_test_logger cfg (Some (name node)) (logw w4) = (lw, Ok lg) →
  ∃ w' r,
    runtestprotocol cfg node fixtures finalizers body w = (w', r) ∧
    item_attrs w' !! "rep_call" = None ∧
    last (submitted (logw w')) =
      Some (mkRecord lg ERROR
              (test_end_message (name node) "UNKNOWN" (Some (clock w4 - start_time)))) ∧
    (∀ body', runtestprotocol cfg node fixtures finalizers body' w = (w', r)).
Proof.
  intros Hsetup Hfix Hint Hfin Hattrs Hlg.
  pose proof (λ b, fixture_failure_skips_body cfg node fixtures finalizers b
                     w w1 w2 start_time e Hsetup Hfix Hint) as Hskip.
  destruct (call_and_report "teardown"
              (teardown_phase finalizers (log_test_execution_teardown cfg node start_time))
              (reported "setup" (Raise e) w2)) as [w' r] eqn:E.
  exists w', r. split; [by rewrite Hskip|].
  split; [|split; [|by intros body'; rewrite Hskip]].
  all: revert E; unfold call_and_report, teardown_phase; rewrite Hfin;
    unfold log_test_execution_teardown, time_time, gets, mbind, SE_bind;
    assert (Hst : status_of (item_attrs w4) = "UNKNOWN")
      by (unfold status_of; by rewrite Hattrs);
    rewrite Hst;
    destruct (log_test_end_submits cfg (name node) "UNKNOWN"
                (Some (clock w4 - start_time)) (logw w4) lw lg Hlg)
      as (lw2 & Hend & Hsub);
    unfold on_log, lift; rewrite Hend;
    assert (Hlast : last (submitted (logw (with_logw lw2 w4))) =
                    Some (mkRecord lg ERROR
                            (test_end_message (name node) "UNKNOWN"
                               (Some (clock w4 - start_time)))))
      by (cbn; rewrite Hsub; apply last_snoc);
    destruct r4 as [[]|e4]; unfold report_phase; [|destruct (interrupts e4)];
    intros E; inversion E; subst; cbn;
    change ("rep_" +:+ "teardown") with "rep_teardown";
    rewrite ?lookup_insert_ne by done; first [exact Hattrs | exact Hlast].
Qed.

(** A fixture that skips the test. *)
Definition skipping_fixture : SE World unit :=
  λ w, (w, Raise (Exn Skipped "no browser installed")).

Definition skipped_setup : World :=
  reported "setup" (Raise (Exn Skipped "no browser installed")) failed_run_setup.1.

Lemma fixture_failure_is_logged_unknown_witness :
  item_attrs skipped_setup !! "rep_setup" = Some (mkReport "setup" "skipped") ∧
  ∃ w' r,
    runtestprotocol default_config login_test skipping_fixture (mret tt)
      (raising_body (Exn AssertionError "assert False")) empty_world = (w', r) ∧
    item_attrs w' !! "rep_call" = None ∧
    last (submitted (logw w')) =
      Some (mkRecord "test.test_login_with_valid_credentials" ERROR
              (test_end_message "test_login_with_valid_credentials" "UNKNOWN"
                 (Some (clock skipped_setup - 0)))) ∧
    (∀ body', runtestprotocol default_config login_test skipping_fixture (mret tt)
                body' empty_world = (w', r)).
Proof.
  split; [vm_compute; reflexivity|].
  refine (fixture_failure_is_logged_unknown default_config login_test
            skipping_fixture (mret tt) _ empty_world
            failed_run_setup.1 failed_run_setup.1 skipped_setup 0
            (Exn Skipped "no browser installed") (Ok tt)
            (get_test_logger default_config (Some (name login_test))
               (logw skipped_setup)).1
            "test.test_login_with_valid_credentials" _ _ _ _ _ _);
    vm_compute; reflexivity.
Defined.

(** ** A logger that cannot be set up *)

Lemma Exception_is_reported_failed (e : exn) :
  isinstance e Exception = true →
  report_of "setup" (Raise e) = mkReport "setup" "failed".
Proof.
  destruct e as [c msg]. unfold report_of.
  destruct c; vm_compute; intros H; try reflexivity; discriminate H.
Qed.

(** When the logger of a test cannot be set up (the log file cannot be
    opened, say), the test fails in its setup phase before anything else
    happens: no later fixture is set up, the body is not run, no call is
    made on a page, and the item carries a failed setup report and no call
    report.  No end record is written either, as the fixture never got to
    its [yield]. *)
Theorem logging_failure_fails_the_test (cfg : Config) (node : Item)
    (fixtures finalizers body : SE World unit) (w : World) (lw : LogWorld) (e : exn) :
  get_test_logger cfg (Some (name node)) (logw w) = (lw, Raise e) →
  interrupts e = false →
  runtestprotocol cfg node fixtures finalizers body w =
    (with_item_attrs
       (<["rep_teardown" := mkReport "teardown" "passed"]>
          (<["rep_setup" := mkReport "setup" "failed"]> ∅))
       (with_logw lw w),
     Ok tt).
Proof.
  intros Hg Hint.
  assert (He : isinstance e Exception = true).
  { unfold get_test_logger in Hg. apply TestLogger_frame in Hg as (_ & _ & He).
    by apply He. }
  unfold runtestprotocol, log_test_execution_setup, log_test_start.
  unfold mbind at 1, SE_bind at 1. unfold on_log at 1, lift.
  cbn [logw with_item_attrs]. unfold mbind at 1, SE_bind at 1. rewrite Hg.
  unfold mbind, SE_bind, report_phase. rewrite Hint.
  rewrite (Exception_is_reported_failed e He).
  unfold pytest_runtest_makereport, modify. cbn.
  reflexivity.
Qed.

Lemma logging_failure_fails_the_test_witness :
  ∃ w',
    runtestprotocol nested_log_config login_test (mret tt) (mret tt)
      (raising_body (Exn AssertionError "assert False")) empty_world = (w', Ok tt) ∧
    item_attrs w' !! "rep_setup" = Some (mkReport "setup" "failed") ∧
    item_attrs w' !! "rep_call" = None ∧
    submitted (logw w') = [].
Proof.
  eexists. split.
  - refine (logging_failure_fails_the_test nested_log_config login_test _ _ _
              empty_world
              (get_test_logger nested_log_config (Some (name login_test))
                 empty_logworld).1
              (Exn FileNotFoundError "reports/logs") _ _);
      vm_compute; reflexivity.
  - repeat split; vm_compute; reflexivity.
Defined.

(** ** Logging an assertion *)

(** [log_assertion] only writes: for a result that is false it hands one
    record at level ERROR to the logger, saying FAILED, and returns
    normally like for a result that is true (one record at level INFO,
    saying PASSED); it never raises an [AssertionError], so a test that
    relies on it alone goes on after a failed assertion. *)
Theorem log_assertion_only_logs (cfg : Config) (assertion : string) (result : bool)
    (test_name : option string) (lw lw1 : LogWorld) (lg : string) :
  get_test_logger cfg test_name lw = (lw1, Ok lg) →
  ∃ lw2,
    log_assertion cfg assertion result test_name lw = (lw2, Ok tt) ∧
    submitted lw2 =
      submitted lw ++
      [mkRecord lg (if result then INFO else ERROR)
         [Text (if result then "✅" else "❌"); Text " Assertion: "; Text assertion;
          Text " - "; Text (if result then "PASSED" else "FAILED")]].
Proof.
  intros Hg. unfold log_assertion, mbind, SE_bind. rewrite Hg.
  apply get_test_logger_submitted in Hg as [Hs _].
  match goal with |- context [log ?n ?l ?m ?w] =>
    destruct (log_submits n l m w) as (lw2 & -> & Hsub) end.
  exists lw2. split; [done|]. by rewrite Hsub, Hs.
Qed.

Lemma log_assertion_only_logs_witness :
  (log_assertion default_config "title is shown" false (Some "test_title")
                 empty_logworld).2 = Ok tt ∧
  r_levelno <$> submitted (log_assertion default_config "title is shown" false
                             (Some "test_title") empty_logworld).1 = [ERROR].
Proof.
  destruct (log_assertion_only_logs default_config "title is shown" false
              (Some "test_title") empty_logworld
              (get_test_logger default_config (Some "test_title") empty_logworld).1
              "test.test_title" ltac:(vm_compute; reflexivity)) as (lw2 & Hr & Hs).
  rewrite Hr. cbn [fst snd]. split; [reflexivity|]. rewrite Hs. reflexivity.
Defined.

End lifecycle_more_properties.

(* ===================================================================== *)
(** * Further properties of test_runner.py *)
(* ===================================================================== *)

Section test_runner_more_properties.
Import Py config conftest test_runner.

(** ** The flags of the runner and the configuration of the tests *)

Lemma child_env_lookup (args : Args) (key : string) :
  child_env args !! key =
    if decide (key = "LOG_LEVEL") then
      if truthy (upper <$> log_level args) then upper <$> log_level args else None
    else if decide (key = "DEVICE") then
      if truthy (device args) then device args else None
    else if decide (key = "HEADLESS") then
      (λ b : bool, if b then "true" else "false") <$> headless args
    else if decide (key = "BROWSER") then
      if truthy (browser args) then browser args else None
    else None.
Proof.
  unfold child_env.
  repeat case_decide; subst;
    destruct (log_level args) as [l|], (device args) as [d|],
             (headless args) as [b|], (browser args) as [br|];
    cbn [fmap option_fmap option_map];
    repeat (match goal with
            | |- context [truthy None] => change (truthy None) with false; cbv iota
            | |- context [truthy (Some ?x)] => destruct (truthy (Some x))
            end);
    cbn [from_option id];
    repeat (first [ rewrite lookup_insert_eq | rewrite lookup_insert_ne by done ]);
    try rewrite lookup_empty; try done.
Qed.

(** Comparisons of the names of environment variables. *)
Local Ltac decide_keys :=
  repeat match goal with
  | |- context [decide (?a = ?b)] =>
      destruct (decide (a = b)) as [Heq|Hne];
      [first [discriminate Heq | clear Heq] | first [by destruct Hne | clear Hne]]
  end.

Lemma child_environ_lookup (environ : gmap string string) (args : Args) (key : string) :
  child_environ environ args !! key =
    match child_env args !! key with
    | Some v => Some v
    | None => environ !! key
    end.
Proof.
  unfold child_environ. rewrite lookup_union.
  by destruct (child_env args !! key), (environ !! key).
Qed.

Lemma upper_char_idemp (c : ascii) : upper_char (upper_char c) = upper_char c.
Proof. destruct c as [[] [] [] [] [] [] [] []]; vm_compute; reflexivity. Qed.

Lemma upper_idemp (s : string) : upper (upper s) = upper s.
Proof. induction s as [|c s IH]; cbn [upper]; [done|]. by rewrite upper_char_idemp, IH. Qed.

Lemma truthy_upper (l : option string) : truthy (upper <$> l) = truthy l.
Proof. by destruct l as [[|c l]|]. Qed.

(** The tests read their configuration from the environment the runner
    starts them with.  A flag given to the runner decides the setting,
    whatever the runner's own environment says: [--browser] the browser,
    [--device] the device, [--log-level] the level (in capitals), and
    [--headless] the headless mode.  A flag that is not given, or given as
    the empty string, leaves the setting of the environment in place, and
    no other setting is touched. *)
Theorem runner_flags_reach_the_tests (environ : gmap string string) (args : Args)
    (timeout : Z) :
  let cfg := Config_with (child_environ environ args) timeout in
  let own := Config_with environ timeout in
  BROWSER cfg = (if truthy (browser args) then default "" (browser args)
                 else BROWSER own) ∧
  DEVICE cfg = (if truthy (device args) then default "" (device args)
                else DEVICE own) ∧
  LOG_LEVEL cfg = (if truthy (log_level args) then upper (default "" (log_level args))
                   else LOG_LEVEL own) ∧
  HEADLESS cfg = (match headless args with Some b => b | None => HEADLESS own end) ∧
  TIMEOUT_stmt (child_environ environ args) = TIMEOUT_stmt environ ∧
  BASE_URL cfg = BASE_URL own ∧
  TEST_ENV cfg = TEST_ENV own ∧
  TEST_USER cfg = TEST_USER own ∧
  TEST_PASSWORD cfg = TEST_PASSWORD own ∧
  LOG_TO_FILE cfg = LOG_TO_FILE own ∧
  LOG_TO_CONSOLE cfg = LOG_TO_CONSOLE own ∧
  LOG_FILE_PATH cfg = LOG_FILE_PATH own.
Proof.
  cbn zeta. unfold Config_with, TIMEOUT_stmt, HEADLESS_expr, flag, getenv.
  cbn [BROWSER DEVICE LOG_LEVEL HEADLESS BASE_URL TEST_ENV TEST_USER TEST_PASSWORD
       LOG_TO_FILE LOG_TO_CONSOLE LOG_FILE_PATH].
  rewrite !child_environ_lookup, !child_env_lookup, truthy_upper.
  repeat split; decide_keys; try done.
  - destruct (browser args) as [b|]; [destruct (truthy (Some b))|]; done.
  - destruct (device args) as [d|]; [destruct (truthy (Some d))|]; done.
  - destruct (log_level args) as [l|]; [destruct (truthy (Some l))|]; [|done..].
    cbn. by rewrite upper_idemp.
  - by destruct (headless args) as [[]|].
Qed.

(** What the fixtures of the tests do with two of these settings, for the
    three browsers the runner accepts. *)
Example firefox_flag_selects_firefox (environ : gmap string string) :
  browser_type
    (Config_with (child_environ environ
                    (mkArgs false false None None None (Some "firefox") None None None
                            false false None)) 30000) = firefox.
Proof.
  unfold browser_type, Config_with, getenv. cbn [BROWSER].
  rewrite child_environ_lookup, child_env_lookup. decide_keys. reflexivity.
Qed.

(** ** [--headless] cannot switch the headless mode off *)

(** The text given to [--headless] is converted with [bool], so every
    text but the empty one counts as true: after [--headless false], or
    [--headless 0], the tests are configured headless, and the browser is
    launched headless and without slow motion, even where the environment of
    the runner says otherwise. *)
Theorem headless_flag_cannot_switch_off (environ : gmap string string) (args : Args)
    (arg_string : string) (timeout : Z) :
  headless args = Some (headless_type arg_string) →
  arg_string ≠ "" →
  HEADLESS (Config_with (child_environ environ args) timeout) = true ∧
  launch_options (Config_with (child_environ environ args) timeout) = mkLaunch true 0.
Proof.
  intros Hh Hne.
  assert (Ht : headless_type arg_string = true).
  { unfold headless_type, truthy. destruct arg_string; [done|reflexivity]. }
  assert (H : HEADLESS (Config_with (child_environ environ args) timeout) = true).
  { unfold Config_with, HEADLESS_expr, flag, getenv. cbn [HEADLESS].
    rewrite child_environ_lookup, child_env_lookup, Hh, Ht.
    decide_keys. reflexivity. }
  split; [exact H|]. unfold launch_options. by rewrite H.
Qed.

Lemma headless_flag_cannot_switch_off_witness :
  HEADLESS (Config_with {["HEADLESS" := "false"]} 30000) = false ∧
  HEADLESS (Config_with
              (child_environ {["HEADLESS" := "false"]}
                 (mkArgs false false None None None None (Some (headless_type "false"))
                         None None false false None)) 30000) = true.
Proof.
  split; [reflexivity|].
  refine (proj1 (headless_flag_cannot_switch_off {["HEADLESS" := "false"]}
                   (mkArgs false false None None None None (Some (headless_type "false"))
                           None None false false None) "false" 30000 eq_refl _)).
  discriminate.
Defined.

(** Only the empty text switches it off. *)
Example headless_flag_empty :
  launch_options
    (Config_with
       (child_environ ∅
          (mkArgs false false None None None None (Some (headless_type ""))
                  None None false false None)) 30000) = mkLaunch false 50.
Proof. reflexivity. Qed.

(** ** Installing: the browsers only after the packages *)

Lemma run_command_answer (h : Host) (cmd : list string) (n : nat) :
  (∀ e, run h n cmd ∅ = Raise e → isinstance e Exception = true) →
  run_command h cmd n =
    (S n, Ok match run h n cmd ∅ with
             | Ok cp => bool_decide (returncode cp = 0)
             | Raise _ => false
             end).
Proof.
  intros He. unfold run_command, try_catch, subprocess_run, mbind, SE_bind, mret, SE_ret.
  destruct (run h n cmd ∅) as [cp|e]; [done|]. by rewrite (He e eq_refl).
Qed.

(** [install_dependencies] installs the packages first and the browsers
    second, and does not start the second installation when the first one
    failed, be it by a status other than 0 or by an error of the host: then
    one child process was started and the answer is [False].  The answer is
    [True] exactly when both installations were run and both exited with
    status 0. *)
Theorem install_dependencies_in_order (h : Host) (n : nat) :
  let pip := [executable h; "-m"; "pip"; "install"; "-r"; "requirements.txt"] in
  let browsers := [executable h; "-m"; "playwright"; "install"] in
  (∀ k cmd e, run h k cmd ∅ = Raise e → isinstance e Exception = true) →
  ((∀ cp, run h n pip ∅ = Ok cp → returncode cp ≠ 0 →
      install_dependencies h n = (S n, Ok false)) ∧
   (∀ e, run h n pip ∅ = Raise e →
      install_dependencies h n = (S n, Ok false)) ∧
   ((install_dependencies h n).2 = Ok true ↔
    ∃ cp1 cp2,
      run h n pip ∅ = Ok cp1 ∧ returncode cp1 = 0 ∧
      run h (S n) browsers ∅ = Ok cp2 ∧ returncode cp2 = 0)).
Proof.
  intros pip browsers He.
  unfold install_dependencies, mbind, SE_bind. fold pip browsers.
  rewrite (run_command_answer h pip n) by apply He.
  split; [|split].
  - intros cp -> Hne. by rewrite bool_decide_eq_false_2.
  - by intros e ->.
  - destruct (run h n pip ∅) as [cp1|e1].
    + case_bool_decide as H1; cbn.
      * rewrite (run_command_answer h browsers (S n)) by apply He.
        destruct (run h (S n) browsers ∅) as [cp2|e2].
        -- case_bool_decide as H2; cbn.
           ++ split; [|done]. intros _. by exists cp1, cp2.
           ++ split; [done|]. intros (c1 & c2 & _ & _ & [= <-] & ?). done.
        -- cbn. split; [done|]. intros (c1 & c2 & _ & _ & ? & _). done.
      * split; [done|]. intros (c1 & c2 & [= <-] & ? & _). done.
    + cbn. split; [done|]. intros (c1 & c2 & ? & _). done.
Qed.

(** A host on which the first installation exits with status 1. *)
Definition host_pip_fails : Host :=
  mkHost "/usr/bin/python3"
         (λ k _ _, Ok (mkCompleted (if k is O then 1 else 0) "" ""))
         (λ _, Ok tt) false (Ok []).

Lemma install_dependencies_in_order_witness :
  install_dependencies host_pip_fails 0%nat = (1%nat, Ok false).
Proof.
  refine (proj1 (install_dependencies_in_order host_pip_fails 0%nat _)
                (mkCompleted 1 "" "") eq_refl _).
  - intros k cmd e He. discriminate He.
  - discriminate.
Defined.

(** ** [--allure] without a usable Allure command *)

Lemma check_allure_cli_missing (h : Host) (n : nat) (e : exn) :
  run h n ["allure"; "--version"] ∅ = Raise e →
  isinstance e FileNotFoundError = true →
  check_allure_cli h n = (S n, Ok false).
Proof.
  intros Hr He.
  unfold check_allure_cli, try_catch, subprocess_run, mbind, SE_bind, mret, SE_ret.
  by rewrite Hr, He.
Qed.

Lemma check_allure_cli_crash (h : Host) (n : nat) (e : exn) :
  run h n ["allure"; "--version"] ∅ = Raise e →
  isinstance e FileNotFoundError = false →
  check_allure_cli h n = (S n, Raise e).
Proof.
  intros Hr He.
  unfold check_allure_cli, try_catch, subprocess_run, mbind, SE_bind, mret, SE_ret.
  by rewrite Hr, He.
Qed.

Lemma check_allure_cli_found (h : Host) (n : nat) (cp : CompletedProcess) :
  run h n ["allure"; "--version"] ∅ = Ok cp →
  check_allure_cli h n = (S n, Ok (bool_decide (returncode cp = 0))).
Proof.
  intros Hr.
  unfold check_allure_cli, try_catch, subprocess_run, mbind, SE_bind, mret, SE_ret.
  by rewrite Hr.
Qed.

(** Under [--allure], when the [allure] command is not installed (starting
    it fails with [FileNotFoundError], at both checks), the tests still
    run: with the command line of a run without Allure output, after
    which no report is generated.  Three child processes are started, two
    of them the failed checks, and the answer of [run_tests] says whether the
    test process exited with status 0. *)
Theorem allure_missing_falls_back (h : Host) (args : Args) (n : nat) (e1 e2 : exn)
    (cp : CompletedProcess) :
  allure args = true →
  run h n ["allure"; "--version"] ∅ = Raise e1 →
  isinstance e1 FileNotFoundError = true →
  run h (S n) (command h args false) (child_env args) = Ok cp →
  run h (S (S n)) ["allure"; "--version"] ∅ = Raise e2 →
  isinstance e2 FileNotFoundError = true →
  run_tests h args n = (S (S (S n)), Ok (bool_decide (returncode cp = 0))).
Proof.
  intros Ha H1 He1 Hc H2 He2.
  unfold run_tests, mbind at 1, SE_bind at 1. rewrite Ha.
  rewrite (check_allure_cli_missing h n e1 H1 He1).
  unfold try_catch, subprocess_run, mbind, SE_bind, mret, SE_ret. rewrite Hc.
  by rewrite (check_allure_cli_missing h (S (S n)) e2 H2 He2).
Qed.

(** A host without the [allure] command, on which the tests pass. *)
Definition host_without_allure : Host :=
  mkHost "/usr/bin/python3"
         (λ _ cmd _, match cmd with
                     | "allure" :: _ =>
                         Raise (Exn FileNotFoundError
                                    "[Errno 2] No such file or directory: 'allure'")
                     | _ => Ok (mkCompleted 0 "" "")
                     end)
         (λ _, Ok tt) false (Ok []).

Definition allure_args : Args :=
  mkArgs false false None None None None None None None false true None.

Lemma allure_missing_falls_back_witness :
  run_tests host_without_allure allure_args 0%nat = (3%nat, Ok true).
Proof.
  exact (allure_missing_falls_back host_without_allure allure_args 0%nat
           (Exn FileNotFoundError "[Errno 2] No such file or directory: 'allure'")
           (Exn FileNotFoundError "[Errno 2] No such file or directory: 'allure'")
           (mkCompleted 0 "" "") eq_refl eq_refl eq_refl eq_refl eq_refl eq_refl).
Defined.

(** Under [--allure], when starting the [allure] command fails with an
    error other than [FileNotFoundError] (the file is there but may not be
    executed, say), the first check lets the error through: the runner ends
    with that error unhandled, and the test process is never started. *)
Theorem allure_check_error_stops_the_runner (h : Host) (args : Args) (e : exn) :
  allure args = true →
  install args = false →
  truthy_Z (serve_allure args) = false →
  (∀ d, mkdir h d = Ok tt) →
  run h 0%nat ["allure"; "--version"] ∅ = Raise e →
  isinstance e FileNotFoundError = false →
  main h (inl args) = Traceback e ∧
  run_tests h args 0%nat = (1%nat, Raise e).
Proof.
  intros Ha Hi Hs Hd Hr He.
  assert (Ht : run_tests h args 0%nat = (1%nat, Raise e)).
  { unfold run_tests, mbind at 1, SE_bind at 1. rewrite Ha.
    by rewrite (check_allure_cli_crash h 0%nat e Hr He). }
  split; [|exact Ht].
  unfold main. by rewrite (ensure_directories_ok _ _ Hd), Hi, Hs, Ht.
Qed.

(** A host on which the [allure] file may not be executed. *)
Definition host_allure_denied : Host :=
  mkHost "/usr/bin/python3"
         (λ _ cmd _, match cmd with
                     | "allure" :: _ =>
                         Raise (Exn PermissionError "[Errno 13] Permission denied: 'allure'")
                     | _ => Ok (mkCompleted 0 "" "")
                     end)
         (λ _, Ok tt) false (Ok []).

Lemma allure_check_error_stops_the_runner_witness :
  main host_allure_denied (inl allure_args)
    = Traceback (Exn PermissionError "[Errno 13] Permission denied: 'allure'") ∧
  exit_code (main host_allure_denied (inl plain_args)) = 0.
Proof.
  split; [|reflexivity].
  refine (proj1 (allure_check_error_stops_the_runner host_allure_denied allure_args
                   (Exn PermissionError "[Errno 13] Permission denied: 'allure'")
                   eq_refl eq_refl eq_refl _ eq_refl eq_refl)).
  intros d. reflexivity.
Defined.

(** ** The report and the status *)

Lemma generate_allure_report_answers (h : Host) (n : nat) :
  (∀ e, allure_results_listdir h = Raise e → isinstance e Exception = true) →
  (∀ e, run h n ["allure"; "generate"; "allure-results"; "-o"; "allure-report"; "--clean"] ∅
        = Raise e → isinstance e Exception = true) →
  ∃ m b, generate_allure_report h n = (m, Ok b).
Proof.
  intros Hl Hr.
  unfold generate_allure_report, try_catch, subprocess_run, eval, mbind, SE_bind,
    mret, SE_ret.
  destruct (allure_results_exists h); [|eauto].
  destruct (allure_results_listdir h) as [l|e]; [|rewrite (Hl e eq_refl); eauto].
  case_bool_decide; [eauto|].
  destruct (run h n _ ∅) as [cp|e]; [eauto|]. rewrite (Hr e eq_refl). eauto.
Qed.

(** With the [allure] command installed, what [run_tests] answers under
    [--allure] is decided by the test process alone: whether the report
    could be generated or not (results missing, directory unreadable,
    [allure generate] failing or not starting) changes nothing, as long as
    the errors of the host derive from [Exception]. *)
Theorem report_generation_keeps_status (h : Host) (args : Args) (n : nat)
    (v1 cp v2 : CompletedProcess) :
  allure args = true →
  run h n ["allure"; "--version"] ∅ = Ok v1 →
  returncode v1 = 0 →
  run h (S n) (command h args true) (child_env args) = Ok cp →
  run h (S (S n)) ["allure"; "--version"] ∅ = Ok v2 →
  returncode v2 = 0 →
  (∀ e, allure_results_listdir h = Raise e → isinstance e Exception = true) →
  (∀ e, run h (S (S (S n)))
            ["allure"; "generate"; "allure-results"; "-o"; "allure-report"; "--clean"] ∅
        = Raise e → isinstance e Exception = true) →
  (run_tests h args n).2 = Ok (bool_decide (returncode cp = 0)).
Proof.
  intros Ha H1 Hv1 Hc H2 Hv2 Hl Hg.
  unfold run_tests, mbind at 1, SE_bind at 1. rewrite Ha.
  rewrite (check_allure_cli_found h n v1 H1), bool_decide_eq_true_2 by done.
  unfold try_catch, subprocess_run, mbind, SE_bind, mret, SE_ret. rewrite Hc.
  rewrite (check_allure_cli_found h (S (S n)) v2 H2), bool_decide_eq_true_2 by done.
  destruct (generate_allure_report_answers h (S (S (S n))) Hl Hg) as (m & b & ->).
  done.
Qed.

(** A host with the [allure] command on which the tests fail and the
    report cannot be generated. *)
Definition host_report_fails : Host :=
  mkHost "/usr/bin/python3"
         (λ _ cmd _, match cmd with
                     | ["allure"; "--version"] => Ok (mkCompleted 0 "2.24.0" "")
                     | "allure" :: _ => Raise (Exn OSError "[Errno 8] Exec format error")
                     | _ => Ok (mkCompleted 1 "" "")
                     end)
         (λ _, Ok tt) true (Ok ["a-result.json"]).

Lemma report_generation_keeps_status_witness :
  (run_tests host_report_fails allure_args 0%nat).2 = Ok false.
Proof.
  refine (report_generation_keeps_status host_report_fails allure_args 0%nat
            (mkCompleted 0 "2.24.0" "") (mkCompleted 1 "" "") (mkCompleted 0 "2.24.0" "")
            eq_refl eq_refl eq_refl eq_refl eq_refl eq_refl _ _).
  - intros e He. discriminate He.
  - intros e He. injection He as <-. reflexivity.
Defined.

(** ** Serving the report *)

(** Under [--serve-allure PORT] without [--install], the directories
    being there: for a port other than 0 the runner starts one child
    process, the Allure server, and its ending is decided by the answer to
    that one process alone, so no test process is consulted: the runner
    returns whatever status the server exits with and also when the server
    cannot be started with an error deriving from [Exception] (its status is
    then 0); any other error ends the runner unhandled.  Port 0 counts as no
    port: the runner runs the tests and ends as [run_tests] decides. *)
Theorem serve_allure_ignores_failure (h : Host) (args : Args) (port : Z) :
  install args = false →
  serve_allure args = Some port →
  (∀ d, mkdir h d = Ok tt) →
  (port ≠ 0 →
   serve_allure_report h port 0%nat =
     (1%nat,
      match run h 0%nat ["allure"; "serve"; "allure-results"; "--port"; str_of_Z port] ∅
      with
      | Ok _ => Ok tt
      | Raise e => if isinstance e Exception then Ok tt else Raise e
      end) ∧
   main h (inl args) =
     match run h 0%nat ["allure"; "serve"; "allure-results"; "--port"; str_of_Z port] ∅
     with
     | Ok _ => Returns
     | Raise e => if isinstance e Exception then Returns else Traceback e
     end ∧
   ((∀ e, run h 0%nat ["allure"; "serve"; "allure-results"; "--port"; str_of_Z port] ∅
          = Raise e → isinstance e Exception = true) →
    exit_code (main h (inl args)) = 0)) ∧
  (port = 0 →
   main h (inl args) =
     match run_tests h args 0%nat with
     | (_, Raise e) => Traceback e
     | (_, Ok success) => SysExit (if success then 0 else 1)
     end).
Proof.
  intros Hi Hs Hd. split.
  - intros Hp.
    assert (Hr : serve_allure_report h port 0%nat =
              (1%nat,
               match run h 0%nat ["allure"; "serve"; "allure-results"; "--port";
                                  str_of_Z port] ∅
               with
               | Ok _ => Ok tt
               | Raise e => if isinstance e Exception then Ok tt else Raise e
               end)).
    { unfold serve_allure_report, try_catch, subprocess_run, mbind, SE_bind, mret, SE_ret.
      destruct (run h 0%nat _ ∅) as [cp|e]; [done|].
      by destruct (isinstance e Exception). }
    assert (Hm : main h (inl args) =
              match run h 0%nat ["allure"; "serve"; "allure-results"; "--port";
                                 str_of_Z port] ∅
              with
              | Ok _ => Returns
              | Raise e => if isinstance e Exception then Returns else Traceback e
              end).
    { unfold main. rewrite (ensure_directories_ok _ _ Hd), Hi, Hs.
      unfold truthy_Z. rewrite (proj2 (Z.eqb_neq port 0) Hp). cbn [negb from_option id].
      rewrite Hr. destruct (run h 0%nat _ ∅) as [cp|e]; [done|].
      by destruct (isinstance e Exception). }
    split; [exact Hr|]. split; [exact Hm|].
    intros He. rewrite Hm. destruct (run h 0%nat _ ∅) as [cp|e]; [done|].
    by rewrite (He e eq_refl).
  - intros ->. unfold main. by rewrite (ensure_directories_ok _ _ Hd), Hi, Hs.
Qed.

(** A host on which only the Allure server could be started: every other
    command is interrupted. *)
Definition host_only_serves : Host :=
  mkHost "/usr/bin/python3"
         (λ _ cmd _, match cmd with
                     | "allure" :: "serve" :: _ => Ok (mkCompleted 1 "" "")
                     | _ => Raise (Exn KeyboardInterrupt "")
                     end)
         (λ _, Ok tt) false (Ok []).

Lemma serve_allure_ignores_failure_witness :
  main host_only_serves
       (inl (mkArgs false false None None None None None None None
                    false false (Some 8080))) = Returns ∧
  main host_only_serves
       (inl (mkArgs false false None None None None None None None
                    false false (Some 0))) = Traceback (Exn KeyboardInterrupt "").
Proof.
  split.
  - refine (proj1 (proj2 (proj1 (serve_allure_ignores_failure host_only_serves
                   (mkArgs false false None None None None None None None
                           false false (Some 8080)) 8080 eq_refl eq_refl _) _))).
    + intros d. reflexivity.
    + discriminate.
  - refine (proj2 (serve_allure_ignores_failure host_only_serves
                   (mkArgs false false None None None None None None None
                           false false (Some 0)) 0 eq_refl eq_refl _) eq_refl).
    intros d. reflexivity.
Defined.

End test_runner_more_properties.

(* ===================================================================== *)
(** * Properties of utils/helpers.py *)
(* ===================================================================== *)

Section helpers_properties.
Import Py helpers.

(** ** [retry_action] *)

(** The loop from attempt [i] on, when the action fails [k] times and then
    succeeds. *)
Lemma retry_loop_success {A} (action_func : nat → result A)
    (sleep_answer : nat → result unit) (max_attempts : Z) (a : A) (k : nat) :
  ∀ (i len n : nat) (ps : list nat),
    (k < len)%nat →
    Z.of_nat (i + len) = max_attempts →
    (∀ j, (j < k)%nat →
       ∃ e, action_func (n + j)%nat = Raise e ∧ isinstance e Exception = true) →
    (∀ j, (j < k)%nat → sleep_answer (i + j)%nat = Ok tt) →
    action_func (n + k)%nat = Ok a →
    retry_loop action_func sleep_answer max_attempts (seq i len) (mkRetries n ps)
    = (mkRetries (n + k + 1) (ps ++ seq i k), Ok (Some a)).
Proof.
  induction k as [|k IH]; intros i len n ps Hlen Hmax Hfail Hsleep Hok;
    (destruct len as [|len]; [lia|]); cbn [seq retry_loop];
    unfold try_catch, call_action, mbind, SE_bind, mret, SE_ret; cbn [calls pauses].
  - replace (n + 0)%nat with n in Hok by lia. rewrite Hok.
    replace (n + 0 + 1)%nat with (S n) by lia. by rewrite app_nil_r.
  - destruct (Hfail 0%nat ltac:(lia)) as (e & He & Hexc).
    replace (n + 0)%nat with n in He by lia. rewrite He, Hexc.
    rewrite decide_False by lia.
    unfold sleep at 1. cbn [calls pauses].
    specialize (Hsleep 0%nat ltac:(lia)) as Hs0.
    replace (i + 0)%nat with i in Hs0 by lia. rewrite Hs0.
    rewrite (IH (S i) len (S n) (ps ++ [i])).
    + f_equal. f_equal; [lia|]. by rewrite <- app_assoc.
    + lia.
    + lia.
    + intros j Hj. destruct (Hfail (S j) ltac:(lia)) as (e' & He' & Hexc').
      exists e'. split; [|done]. by replace (S n + j)%nat with (n + S j)%nat by lia.
    + intros j Hj. replace (S i + j)%nat with (i + S j)%nat by lia. apply Hsleep. lia.
    + by replace (S n + k)%nat with (n + S k)%nat by lia.
Qed.

(** [retry_action] returns what the first successful call of the action
    returns: when the action fails [k] times with errors that derive from
    [Exception] and succeeds at the next call, that being within the
    allowed number of attempts, the action has been called [k + 1] times and
    not again, and [k] pauses were taken in between, one after each failed
    attempt, of lengths [delay], [2 delay], [4 delay], ... *)
Theorem retry_action_first_success {A} (action_func : nat → result A)
    (sleep_answer : nat → result unit) (max_attempts : Z) (a : A) (k n : nat)
    (ps : list nat) :
  Z.of_nat k < max_attempts →
  (∀ j, (j < k)%nat →
     ∃ e, action_func (n + j)%nat = Raise e ∧ isinstance e Exception = true) →
  (∀ j, (j < k)%nat → sleep_answer j = Ok tt) →
  action_func (n + k)%nat = Ok a →
  retry_action action_func sleep_answer max_attempts (mkRetries n ps)
  = (mkRetries (n + k + 1) (ps ++ seq 0 k), Ok (Some a)).
Proof.
  intros Hk Hfail Hsleep Hok. unfold retry_action.
  apply retry_loop_success; try done; lia.
Qed.

(** An action that fails twice and then answers 7. *)
Definition third_time_lucky (call : nat) : result Z :=
  match call with
  | 0%nat | 1%nat => Raise (Exn PlaywrightTimeoutError "Timeout 30000ms exceeded.")
  | _ => Ok 7
  end.

Lemma retry_action_first_success_witness :
  retry_action third_time_lucky (λ _, Ok tt) 3 (mkRetries 0 [])
  = (mkRetries 3 [0; 1]%nat, Ok (Some 7)).
Proof.
  refine (retry_action_first_success third_time_lucky (λ _, Ok tt) 3 7 2 0 [] _ _ _ _).
  - lia.
  - intros j Hj. exists (Exn PlaywrightTimeoutError "Timeout 30000ms exceeded.").
    destruct j as [|[|j]]; [done|done|lia].
  - done.
  - reflexivity.
Defined.

(** The loop from attempt [i] on, when the action fails every time. *)
Lemma retry_loop_failure {A} (action_func : nat → result A)
    (sleep_answer : nat → result unit) (max_attempts : Z) (len : nat) :
  ∀ (i n : nat) (ps : list nat) (last_error : exn),
    Z.of_nat (i + S len) = max_attempts →
    (∀ j, (j ≤ len)%nat →
       ∃ e, action_func (n + j)%nat = Raise e ∧ isinstance e Exception = true) →
    (∀ j, (j < len)%nat → sleep_answer (i + j)%nat = Ok tt) →
    action_func (n + len)%nat = Raise last_error →
    retry_loop (A:=A) action_func sleep_answer max_attempts (seq i (S len))
               (mkRetries n ps)
    = (mkRetries (n + S len) (ps ++ seq i len), Raise last_error).
Proof.
  induction len as [|len IH]; intros i n ps last_error Hmax Hfail Hsleep Hlast;
    [change (seq i 1) with [i] | change (seq i (S (S len))) with (i :: seq (S i) (S len))];
    cbn [retry_loop];
    unfold try_catch, call_action, mbind, SE_bind, mret, SE_ret; cbn [calls pauses];
    destruct (Hfail 0%nat ltac:(lia)) as (e & He & Hexc);
    replace (n + 0)%nat with n in He by lia; rewrite He, Hexc.
  - rewrite decide_True by lia. unfold eval.
    replace (n + 0)%nat with n in Hlast by lia. rewrite He in Hlast.
    injection Hlast as ->. rewrite app_nil_r. by replace (n + 1)%nat with (S n) by lia.
  - rewrite decide_False by lia.
    unfold sleep at 1. cbn [calls pauses].
    specialize (Hsleep 0%nat ltac:(lia)) as Hs0.
    replace (i + 0)%nat with i in Hs0 by lia. rewrite Hs0.
    rewrite (IH (S i) (S n) (ps ++ [i]) last_error).
    + f_equal. f_equal; [lia|]. by rewrite <- app_assoc.
    + lia.
    + intros j Hj. destruct (Hfail (S j) ltac:(lia)) as (e' & He' & Hexc').
      exists e'. split; [|done]. by replace (S n + j)%nat with (n + S j)%nat by lia.
    + intros j Hj. replace (S i + j)%nat with (i + S j)%nat by lia. apply Hsleep. lia.
    + by replace (S n + len)%nat with (n + S len)%nat by lia.
Qed.

(** When every one of the [max_attempts] calls of the action fails with an
    error deriving from [Exception], [retry_action] raises the error of the
    last call, after exactly [max_attempts] calls and [max_attempts - 1]
    pauses: there is no pause after the last attempt.  With a number of
    attempts that is not positive the action is never called, and
    [retry_action] returns [None] without an error. *)
Theorem retry_action_gives_up {A} (action_func : nat → result A)
    (sleep_answer : nat → result unit) (max_attempts : Z) (n : nat) (ps : list nat) :
  (0 < max_attempts →
   ∀ last_error,
     (∀ j, (j < Z.to_nat max_attempts)%nat →
        ∃ e, action_func (n + j)%nat = Raise e ∧ isinstance e Exception = true) →
     (∀ j, (j < Z.to_nat max_attempts - 1)%nat → sleep_answer j = Ok tt) →
     action_func (n + (Z.to_nat max_attempts - 1))%nat = Raise last_error →
     retry_action action_func sleep_answer max_attempts (mkRetries n ps)
     = (mkRetries (n + Z.to_nat max_attempts)
                  (ps ++ seq 0 (Z.to_nat max_attempts - 1)),
        Raise last_error)) ∧
  (max_attempts ≤ 0 →
   retry_action action_func sleep_answer max_attempts (mkRetries n ps)
   = (mkRetries n ps, Ok None)).
Proof.
  split.
  - intros Hpos last_error Hfail Hsleep Hlast. unfold retry_action.
    destruct (Z.to_nat max_attempts) as [|len] eqn:El; [lia|].
    replace (S len - 1)%nat with len in * by lia.
    apply retry_loop_failure; try done.
    + lia.
    + intros j Hj. apply Hfail. lia.
  - intros Hle. unfold retry_action.
    replace (Z.to_nat max_attempts) with 0%nat by lia. reflexivity.
Qed.

(** An action that always runs into its timeout: three calls, two
    pauses. *)
Example retry_action_three_failures :
  retry_action (A:=Z) (λ _, Raise (Exn PlaywrightTimeoutError "Timeout 30000ms exceeded."))
               (λ _, Ok tt) 3 (mkRetries 0 [])
  = (mkRetries 3 [0; 1]%nat,
     Raise (Exn PlaywrightTimeoutError "Timeout 30000ms exceeded.")).
Proof. reflexivity. Qed.

(** ** [build_api_url] *)

(** A run of [n] slashes. *)
Fixpoint slashes (n : nat) : string :=
  match n with
  | O => ""
  | S k => String "/" (slashes k)
  end.

Lemma lstrip_slash_spec (s : string) :
  (∃ n, s = slashes n +:+ lstrip_slash s) ∧
  (∀ x, lstrip_slash s ≠ String "/" x).
Proof.
  induction s as [|c s [[n IH1] IH2]]; cbn [lstrip_slash].
  - split; [by exists 0%nat|done].
  - destruct (Ascii.eqb c "/") eqn:Ec.
    + apply Ascii.eqb_eq in Ec as ->. split; [|done].
      exists (S n). cbn [slashes]. by rewrite append_cons, <- IH1.
    + split; [by exists 0%nat|]. intros x [= -> _]. by rewrite Ascii.eqb_refl in Ec.
Qed.

Lemma rstrip_slash_spec (s : string) :
  (∃ n, s = rstrip_slash s +:+ slashes n) ∧
  (∀ x, rstrip_slash s ≠ x +:+ "/").
Proof.
  induction s as [|c s [[n IH1] IH2]]; cbn [rstrip_slash].
  - split; [by exists 0%nat|]. intros [|d x]; [done|by rewrite append_cons].
  - destruct (rstrip_slash s) as [|d r] eqn:Er.
    + rewrite append_nil_l in IH1. destruct (Ascii.eqb c "/") eqn:Ec.
      * apply Ascii.eqb_eq in Ec as ->. split.
        -- exists (S n). by rewrite append_nil_l, IH1.
        -- intros [|d x]; [done|by rewrite append_cons].
      * split.
        -- exists n. by rewrite append_cons, append_nil_l, <- IH1.
        -- intros [|d [|d' x]]; rewrite ?append_cons, ?append_nil_l; try done.
           intros [= -> ]. by rewrite Ascii.eqb_refl in Ec.
    + split.
      * exists n. by rewrite append_cons, <- IH1.
      * intros [|d' x]; rewrite ?append_cons, ?append_nil_l; [done|].
        intros [= -> Hr]. by apply (IH2 x).
Qed.

(** [build_api_url] joins the two parts with exactly one slash, however
    many slashes the base address ends with and the endpoint begins with:
    the result is the base without its trailing slashes, one slash, and the
    endpoint without its leading slashes; what stands before the joining
    slash does not end with a slash and what stands after it does not begin
    with one.  Without parameters, or with an empty dictionary of
    parameters, nothing is appended. *)
Theorem build_api_url_one_slash (urlencode : list (string * string) → string)
    (base_url endpoint : string) :
  ∃ (b e : string) (n m : nat),
    base_url = b +:+ slashes n ∧
    endpoint = slashes m +:+ e ∧
    (∀ x, b ≠ x +:+ "/") ∧
    (∀ x, e ≠ "/" +:+ x) ∧
    build_api_url urlencode base_url endpoint None = b +:+ "/" +:+ e ∧
    build_api_url urlencode base_url endpoint (Some []) = b +:+ "/" +:+ e ∧
    ∀ p ps, build_api_url urlencode base_url endpoint (Some (p :: ps))
            = (b +:+ "/" +:+ e) +:+ "?" +:+ urlencode (p :: ps).
Proof.
  destruct (rstrip_slash_spec base_url) as [[n Hb] Hnb].
  destruct (lstrip_slash_spec endpoint) as [[m He] Hne].
  exists (rstrip_slash base_url), (lstrip_slash endpoint), n, m.
  repeat split; try done.
Qed.

(** A base address that consists of a scheme only loses the slashes of
    the scheme. *)
Example build_api_url_scheme_only :
  build_api_url (λ _, "") "https://" "/users" None = "https:/users".
Proof. reflexivity. Qed.

End helpers_properties.

(* ===================================================================== *)
(** * Properties of tests/test_login.py *)
(* ===================================================================== *)

Section test_login_properties.
Import Py config logger session base_page login_page test_login.

(** ** What the steps of a test have done once they return *)

Lemma LoginPage_returns (cfg : Config) (pg : Page) (w w' : World) (self : BasePage) :
  LoginPage cfg pg w = (w', Ok self) →
  history w' = history w ∧ page self = pg ∧ config self = cfg.
Proof.
  unfold LoginPage, BasePage_init, mbind, SE_bind, mret, SE_ret. rewrite on_log_run.
  destruct (get_test_logger cfg (Some "LoginPage") (logw w)) as [lw [lg|e]]; cbn;
    intros H; inversion H; subst. done.
Qed.

Lemma unguarded_call_stops (pg : Page) (a : action) (answer : list action → result unit)
    (after : SE LogWorld unit) (name : string) (level : Z) (msg : message) :
  (∀ h, answered pg h a = negb (raises (answer h))) →
  stops_at_failure pg [a]
    (on_log (log name level msg);; call a answer;; on_log after).
Proof.
  intros Ha. apply stops_at_failure_one. intros w w' r. rewrite log_then.
  unfold call, mbind, SE_bind. cbn [history with_logw].
  destruct (answer (history w)) as [[]|e] eqn:Ea.
  - rewrite on_log_run. destruct (after _) as [lw1 r1]. cbn.
    intros H; inversion H; subst. cbn. split; [done|]. intros _. by rewrite Ha, Ea.
  - intros H; inversion H; subst. cbn. split; [done|]. discriminate.
Qed.

Lemma open_stops (self : BasePage) :
  stops_at_failure (page self)
    [Goto (BASE_URL (config self)); WaitForLoadState "networkidle"]
    (open self).
Proof.
  unfold open, navigate_to, wait_for_page_load. rewrite or_same.
  apply (stops_at_failure_seq _ [_] [_]); [done| |];
    apply unguarded_call_stops; done.
Qed.

Lemma stops_at_failure_returns (pg : Page) (l : list action) (m : SE World unit)
    (w w' : World) :
  stops_at_failure pg l m →
  m w = (w', Ok tt) →
  history w' = history w ++ l ∧
  ∀ i a, l !! i = Some a → answered pg (history w ++ take i l) a = true.
Proof.
  intros Hm E. destruct (Hm _ _ _ E) as (k & _ & _ & Hh & _ & Hok).
  destruct (Hok eq_refl) as [-> Ha]. by rewrite firstn_all in Hh.
Qed.

Lemma is_element_visible_returns (self : BasePage) (selector : string) (w w' : World)
    (b : bool) :
  is_element_visible self selector w = (w', Ok b) →
  history w' = history w ++ [IsVisible selector] ∧
  (b = true → is_visible (page self) (history w) selector = Ok true).
Proof.
  unfold is_element_visible, try_catch, call, mbind, SE_bind, mret, SE_ret.
  destruct (is_visible (page self) (history w) selector) as [v|e].
  - match goal with |- context [on_log (debug ?n ?m) ?w0] =>
      destruct (on_log_debug n m w0) as [lw' ->] end.
    intros H; inversion H; subst. cbn. split; [done|]. by intros ->.
  - destruct (isinstance e Exception); [|discriminate].
    match goal with |- context [on_log (debug ?n ?m) ?w0] =>
      destruct (on_log_debug n m w0) as [lw' ->] end.
    intros H; inversion H; subst. cbn. split; [done|]. discriminate.
Qed.

Lemma get_text_returns (self : BasePage) (selector : string) (w w' : World)
    (t : option string) :
  get_text self selector w = (w', Ok t) →
  history w' = history w ++ [TextContent selector] ∧
  text_content (page self) (history w) selector = Ok t.
Proof.
  unfold get_text. rewrite debug_then.
  unfold try_catch, call, mbind, SE_bind, mret, SE_ret, reraise. cbn [history with_logw].
  destruct (text_content (page self) (history w) selector) as [t0|e].
  - rewrite on_log_run. destruct (log_action _ _ _ _ _) as [lw1 [[]|e1]]; cbn -[isinstance].
    + intros H; inversion H; subst. done.
    + destruct (isinstance e1 Exception); [|discriminate].
      rewrite on_log_run. by destruct (log_error _ _ _ _ _) as [lw2 [[]|e2]].
  - destruct (isinstance e Exception); [|discriminate].
    rewrite on_log_run. by destruct (log_error _ _ _ _ _) as [lw2 [[]|e2]].
Qed.

Lemma assert_returns (cond : bool) (w w' : World) :
  assert_ cond w = (w', Ok tt) → cond = true ∧ w' = w.
Proof. destruct cond; intros H; inversion H; done. Qed.

(** ** What a passed login test has established *)

(** When [test_login_with_valid_credentials] passes, it has made exactly
    eight calls on the page: gone to the configured address, waited for the
    network to be idle, waited for and filled the user name field with the
    configured user and the password field with the configured password,
    clicked the button, and asked whether the title is visible.  The first
    seven were answered by the driver without error, and the address of the
    page after the last has [/inventory.html] in it.  Whether the title was
    visible plays no part. *)
Theorem valid_credentials_test_passed (cfg : Config) (pg : Page) (w w' : World) :
  let calls :=
    [Goto (BASE_URL cfg); WaitForLoadState "networkidle";
     WaitForSelector username_input (TIMEOUT cfg);
     Fill username_input (TEST_USER cfg);
     WaitForSelector password_input (TIMEOUT cfg);
     Fill password_input (TEST_PASSWORD cfg);
     Click login_button] in
  test_login_with_valid_credentials cfg pg w = (w', Ok tt) →
  history w' = history w ++ calls ++ [IsVisible product_title] ∧
  (∀ i a, calls !! i = Some a → answered pg (history w ++ take i calls) a = true) ∧
  ∃ pre post, url pg (history w') = pre +:+ "/inventory.html" +:+ post.
Proof.
  intros calls. unfold test_login_with_valid_credentials, mbind, SE_bind.
  destruct (LoginPage cfg pg w) as [w1 [self|e]] eqn:E1; [|discriminate].
  apply LoginPage_returns in E1 as (H1 & <- & <-).
  destruct (open self w1) as [w2 [[]|e]] eqn:E2; [|discriminate].
  destruct (login self None None w2) as [w3 [[]|e]] eqn:E3; [|discriminate].
  destruct (is_login_successful self w3) as [w4 [b|e]] eqn:E4; [|discriminate].
  intros E5. apply assert_returns in E5 as [-> ->].
  assert (E23 : (open self;; login self None None) w1 = (w3, Ok tt)).
  { unfold mbind, SE_bind. by rewrite E2, E3. }
  assert (Hst : stops_at_failure (page self) calls (open self;; login self None None)).
  { apply (stops_at_failure_seq _ [_; _] [_; _; _; _; _]);
      [done|apply open_stops|apply (login_stops self None None)]. }
  destruct (stops_at_failure_returns _ _ _ _ _ Hst E23) as [H3 Ha].
  unfold is_login_successful, mbind, SE_bind, gets, mret, SE_ret in E4.
  destruct (is_element_visible self product_title w3) as [w5 [v|e]] eqn:E6;
    [|discriminate].
  apply is_element_visible_returns in E6 as [H6 _].
  injection E4 as <- Hb. rewrite H6, H3, H1 in *.
  split; [by rewrite <- app_assoc|]. split; [exact Ha|].
  by apply contains_spec.
Qed.

(** A page on which the login succeeds. *)
Definition shop_page : Page :=
  mkPage (λ _ _, Ok tt) (λ _ _, Ok tt) (λ _ _, Ok tt) (λ _ _ _, Ok tt)
         (λ _ _, Ok None) (λ _ _, Ok true)
         (λ _ _ _, Ok tt) (λ _ _, Ok tt) (λ _, Ok "Swag Labs")
         (λ h, if existsb (λ a, match a with Click _ => true | _ => false end) h
               then "https://www.saucedemo.com/inventory.html"
               else "https://www.saucedemo.com/").

Lemma valid_credentials_test_passed_witness :
  (test_login_with_valid_credentials default_config shop_page empty_world).2 = Ok tt ∧
  length (history (test_login_with_valid_credentials default_config shop_page
                     empty_world).1) = 8%nat.
Proof.
  split; [vm_compute; reflexivity|].
  rewrite (proj1 (valid_credentials_test_passed default_config shop_page empty_world
                    (test_login_with_valid_credentials default_config shop_page
                       empty_world).1
                    ltac:(vm_compute; reflexivity))).
  reflexivity.
Defined.

(** ** What a passed test of the missing password has established *)

Lemma get_error_message_returns (self : BasePage) (w w' : World) (t : option string) :
  get_error_message self w = (w', Ok t) →
  (t = Some "" ∧ history w' = history w ++ [IsVisible req_error]) ∨
  (is_visible (page self) (history w) req_error = Ok true ∧
   text_content (page self) (history w ++ [IsVisible req_error]) req_error = Ok t ∧
   history w' = history w ++ [IsVisible req_error; TextContent req_error]).
Proof.
  unfold get_error_message, mbind, SE_bind, mret, SE_ret.
  destruct (is_element_visible self req_error w) as [w1 [[|]|e]] eqn:E1; [..|discriminate].
  - apply is_element_visible_returns in E1 as [H1 Hv]. intros E2.
    apply get_text_returns in E2 as [H2 Ht]. right.
    rewrite H1 in H2, Ht. rewrite <- app_assoc in H2. auto.
  - apply is_element_visible_returns in E1 as [H1 _].
    intros H; inversion H; subst. by left.
Qed.

(** When [test_login_with_invalid_credentials] passes, it has gone to the
    configured address, waited for the network, waited for the user name
    field and filled in [standard_user], and clicked the button without
    touching the password field; after that the page reported the error
    element visible, and the text of that element, read by the seventh and
    last call, has [Password is required] in it. *)
Theorem missing_password_test_passed (cfg : Config) (pg : Page) (w w' : World) :
  let calls :=
    [Goto (BASE_URL cfg); WaitForLoadState "networkidle";
     WaitForSelector username_input (TIMEOUT cfg);
     Fill username_input "standard_user";
     Click login_button] in
  test_login_with_invalid_credentials cfg pg w = (w', Ok tt) →
  history w' = history w ++ calls ++ [IsVisible req_error; TextContent req_error] ∧
  (∀ i a, calls !! i = Some a → answered pg (history w ++ take i calls) a = true) ∧
  is_visible pg (history w ++ calls) req_error = Ok true ∧
  ∃ pre post,
    text_content pg (history w ++ calls ++ [IsVisible req_error]) req_error
    = Ok (Some (pre +:+ "Password is required" +:+ post)).
Proof.
  intros calls. unfold test_login_with_invalid_credentials, mbind, SE_bind.
  destruct (LoginPage cfg pg w) as [w1 [self|e]] eqn:E1; [|discriminate].
  apply LoginPage_returns in E1 as (H1 & <- & <-).
  destruct (open self w1) as [w2 [[]|e]] eqn:E2; [|discriminate].
  destruct (enter_username self "standard_user" w2) as [w3 [[]|e]] eqn:E3;
    [|discriminate].
  destruct (click_login_button self w3) as [w4 [[]|e]] eqn:E4; [|discriminate].
  destruct (get_error_message self w4) as [w5 [t|e]] eqn:E5; [|discriminate].
  destruct t as [t|]; [|discriminate]. cbn [in_]. unfold mret, SE_ret.
  intros E6. apply assert_returns in E6 as [Hc ->].
  assert (E234 : (open self;;
                  (enter_username self "standard_user";; click_login_button self)) w1
                 = (w4, Ok tt)).
  { unfold mbind, SE_bind. by rewrite E2, E3, E4. }
  assert (Hst : stops_at_failure (page self) calls
                  (open self;;
                   (enter_username self "standard_user";; click_login_button self))).
  { apply (stops_at_failure_seq _ [_; _] [_; _; _]); [done|apply open_stops|].
    unfold enter_username, click_login_button, wait_for_element, fill_input,
      click_element.
    apply (stops_at_failure_seq _ [_; _] [_]); [done| |apply guarded_call_stops; done].
    apply (stops_at_failure_seq _ [_] [_]); [done| |]; apply guarded_call_stops; done. }
  destruct (stops_at_failure_returns _ _ _ _ _ Hst E234) as [H4 Ha].
  rewrite H1 in H4, Ha.
  apply get_error_message_returns in E5 as [[Ht _]|(Hv & Ht & H5)].
  { injection Ht as ->. discriminate Hc. }
  rewrite H4 in Hv, Ht, H5.
  split; [by rewrite H5, <- !app_assoc|]. split; [exact Ha|]. split; [exact Hv|].
  apply contains_spec in Hc as (pre & post & ->). exists pre, post.
  by rewrite <- app_assoc in Ht.
Qed.

(** A page that rejects a login without password. *)
Definition rejecting_page : Page :=
  mkPage (λ _ _, Ok tt) (λ _ _, Ok tt) (λ _ _, Ok tt) (λ _ _ _, Ok tt)
         (λ _ _, Ok (Some "Epic sadface: Password is required"))
         (λ _ _, Ok true)
         (λ _ _ _, Ok tt) (λ _ _, Ok tt) (λ _, Ok "Swag Labs")
         (λ _, "https://www.saucedemo.com/").

Lemma missing_password_test_passed_witness :
  (test_login_with_invalid_credentials default_config rejecting_page empty_world).2
    = Ok tt ∧
  length (history (test_login_with_invalid_credentials default_config rejecting_page
                     empty_world).1) = 7%nat.
Proof.
  split; [vm_compute; reflexivity|].
  rewrite (proj1 (missing_password_test_passed default_config rejecting_page empty_world
                    (test_login_with_invalid_credentials default_config rejecting_page
                       empty_world).1
                    ltac:(vm_compute; reflexivity))).
  reflexivity.
Defined.

(** The same test on a page that shows the error element without a text
    ends with a [TypeError], not with a failed assertion. *)
Example missing_password_test_without_text :
  (test_login_with_invalid_credentials default_config
     (mkPage (λ _ _, Ok tt) (λ _ _, Ok tt) (λ _ _, Ok tt) (λ _ _ _, Ok tt)
             (λ _ _, Ok None) (λ _ _, Ok true)
             (λ _ _ _, Ok tt) (λ _ _, Ok tt) (λ _, Ok "") (λ _, "about:blank"))
     empty_world).2
  = Raise (Exn TypeError "argument of type 'NoneType' is not iterable").
Proof. vm_compute. reflexivity. Qed.

(** [test_login_page_loads_successfully] passes on a page that shows no
    login form, as long as its address is the configured one. *)
Example page_loads_test_without_form :
  (test_login_page_loads_successfully default_config blank_page no_element
     empty_world).2 = Ok tt.
Proof. vm_compute. reflexivity. Qed.

End test_login_properties.
